(** * factom-accounts: the transaction ingestion code and the config reader

    A shallow embedding of [src/lib/transaction.ts] and of the [Config]
    class of [src/lib/config.ts], with the properties of the specification
    stated over it.

    Conventions of the embedding.
    - A JavaScript [number] holding a height, a count, a timestamp or an
      amount in factoshis is a [Z].  The product [sum * Math.pow(10, -8)]
      is the product of binary64, computed with the operations of
      [SpecFloat]; the double that it gives is kept as the rational number
      that it denotes.
    - A function that can throw, or that can end the process through
      [process.exit], runs in the monad [M]: it maps a world to a
      completion ([Normal], [Throw], [Exit]) and the world it leaves.
    - The world holds the state of the database and a chronological trace
      of the observable calls (ledger requests, blocks handed to the event
      emitter, rows handed to the database, log lines). *)

From Stdlib Require Import ZArith List String Ascii QArith Qround Qabs Bool Lia Lqa.
From Stdlib Require Import Permutation SpecFloat.
Import ListNotations.

Set Warnings "-register-all".

Local Open Scope string_scope.
Local Open Scope Z_scope.

(** ** The JavaScript runtime *)

Module Js.

(** An [Error] object: its constructor name, its message and the optional
    [code] that Node attaches to file-system errors. *)
Record Error : Type := mkError {
  name : string;
  message : string;
  code : option string
}.

Definition RangeError (msg : string) : Error := mkError "RangeError" msg None.
Definition TypeError (msg : string) : Error := mkError "TypeError" msg None.
Definition PlainError (msg : string) : Error := mkError "Error" msg None.

(** How the evaluation of a statement ends: with a value, with a thrown
    exception, or with the end of the process ([process.exit]). *)
Inductive Completion (A : Type) : Type :=
| Normal (a : A)
| Throw (e : Error)
| Exit (exitCode : Z).

Arguments Normal {A} a.
Arguments Throw {A} e.
Arguments Exit {A} exitCode.

Definition M (W A : Type) : Type := W -> Completion A * W.

Definition ret {W A} (a : A) : M W A := fun w => (Normal a, w).

Definition bind {W A B} (m : M W A) (k : A -> M W B) : M W B :=
  fun w =>
    match m w with
    | (Normal a, w') => k a w'
    | (Throw e, w') => (Throw e, w')
    | (Exit c, w') => (Exit c, w')
    end.

Definition throw {W A} (e : Error) : M W A := fun w => (Throw e, w).

(** [process.exit(c)]: nothing after it runs, no handler catches it. *)
Definition process_exit {W A} (c : Z) : M W A := fun w => (Exit c, w).

(** [try { body } catch (e) { handler(e) }] *)
Definition try_catch {W A} (body : M W A) (handler : Error -> M W A) : M W A :=
  fun w =>
    match body w with
    | (Throw e, w') => handler e w'
    | r => r
    end.

(** A completion computed outside the world (a pure library call). *)
Definition lift {W A} (c : Completion A) : M W A := fun w => (c, w).

(** Code with a loop runs on fuel: [None] says that the fuel ran out before
    the loop ended, [Some] carries the completion. *)
Definition MF (W A : Type) : Type := W -> option (Completion A * W).

Definition retF {W A} (a : A) : MF W A := fun w => Some (Normal a, w).

Definition liftF {W A} (m : M W A) : MF W A := fun w => Some (m w).

Definition outOfFuel {W A} : MF W A := fun _ => None.

Definition bindF {W A B} (m : MF W A) (k : A -> MF W B) : MF W B :=
  fun w =>
    match m w with
    | None => None
    | Some (Normal a, w') => k a w'
    | Some (Throw e, w') => Some (Throw e, w')
    | Some (Exit c, w') => Some (Exit c, w')
    end.

Definition try_catchF {W A} (body : MF W A) (handler : Error -> MF W A) : MF W A :=
  fun w =>
    match body w with
    | Some (Throw e, w') => handler e w'
    | r => r
    end.

(** *** Numbers to strings *)

Definition digitChar (d : Z) : ascii := ascii_of_nat (48 + Z.to_nat d).

(** The [width] low decimal digits of [n], most significant first. *)
Fixpoint padDigits (width : nat) (n : Z) (acc : string) : string :=
  match width with
  | O => acc
  | S width' => padDigits width' (n / 10) (String (digitChar (n mod 10)) acc)
  end.

Fixpoint natDigits (fuel : nat) (n : Z) (acc : string) : string :=
  match fuel with
  | O => acc
  | S fuel' =>
      let acc' := String (digitChar (n mod 10)) acc in
      if n / 10 =? 0 then acc' else natDigits fuel' (n / 10) acc'
  end.

(** [String(n)] for an integer [n] (below the exponent notation range). *)
Definition numberToString (n : Z) : string :=
  let digits := natDigits (S (Z.to_nat (Z.log2 (Z.abs n)))) (Z.abs n) "" in
  if n <? 0 then "-" ++ digits else digits.

(** *** [Date.prototype.toISOString] *)

Definition msPerDay : Z := 86400000.

(** Largest magnitude of a valid time value (ECMA-262, TimeClip). *)
Definition maxTimeValue : Z := 8640000000000000.

(** Proleptic Gregorian (year, month, day) of a day number counted from
    1970-01-01. *)
Definition civilFromDays (days : Z) : Z * Z * Z :=
  let z := days + 719468 in
  let era := z / 146097 in
  let doe := z - era * 146097 in
  let yoe := (doe - doe / 1460 + doe / 36524 - doe / 146096) / 365 in
  let y := yoe + era * 400 in
  let doy := doe - (365 * yoe + yoe / 4 - yoe / 100) in
  let mp := (5 * doy + 2) / 153 in
  let d := doy - (153 * mp + 2) / 5 + 1 in
  let m := if mp <? 10 then mp + 3 else mp - 9 in
  (if m <=? 2 then y + 1 else y, m, d).

Definition yearToString (y : Z) : string :=
  if (0 <=? y) && (y <=? 9999) then padDigits 4 y ""
  else (if y <? 0 then "-" else "+") ++ padDigits 6 (Z.abs y) "".

(** [new Date(t).toISOString()]: a [RangeError] outside the valid range. *)
Definition toISOString (t : Z) : Completion string :=
  if maxTimeValue <? Z.abs t then Throw (RangeError "Invalid time value")
  else
    let days := t / msPerDay in
    let msInDay := t mod msPerDay in
    let '(y, m, d) := civilFromDays days in
    Normal (yearToString y ++ "-" ++ padDigits 2 m "" ++ "-" ++ padDigits 2 d ""
            ++ "T" ++ padDigits 2 (msInDay / 3600000) ""
            ++ ":" ++ padDigits 2 (msInDay / 60000 mod 60) ""
            ++ ":" ++ padDigits 2 (msInDay / 1000 mod 60) ""
            ++ "." ++ padDigits 3 (msInDay mod 1000) "" ++ "Z").

End Js.

Import Js.

(** ** Double precision

    The arithmetic of the [number]s of JavaScript is the one of binary64:
    the operations of [SpecFloat] at a precision of 53 bits, with 1024 as
    the exponent of the infinities. *)

Module Double.

Definition prec : Z := 53.
Definition emax : Z := 1024.

(** The double of an integer: the integer itself up to 2^53, the nearest
    double beyond. *)
Definition ofInteger (n : Z) : spec_float := binary_normalize prec emax n 0 false.

(** [x * y] *)
Definition mul (x y : spec_float) : spec_float := SFmul prec emax x y.

(** [Math.pow(10, -8)], taken as the double nearest to 10^-8, which is
    6044629098073146 * 2^-79 (0x1.5798ee2308c3ap-27). *)
Definition tenToMinus8 : spec_float := S754_finite false 6044629098073146 (-79).

(** The rational number that a double denotes, in lowest terms.  The two
    zeros denote 0 and a finite double [m * 2^e] denotes itself.  An
    infinity is read as 2^1024 with its sign, one binade above the finite
    doubles, so that it differs from every finite double; NaN, which no
    product of two finite doubles gives, is read as 0. *)
Definition toQ (x : spec_float) : Q :=
  match x with
  | S754_zero _ => 0%Q
  | S754_finite s m e =>
      let n := if s then Zneg m else Zpos m in
      match e with
      | Zneg k => Qred (Qmake n (2 ^ k)%positive)
      | _ => inject_Z (n * 2 ^ e)
      end
  | S754_infinity s => inject_Z (if s then - 2 ^ emax else 2 ^ emax)
  | S754_nan => 0%Q
  end.

End Double.

Declare Scope js_scope.
Notation "x <- m ;; k" := (bind m (fun x => k))
  (at level 61, m at next level, right associativity) : js_scope.
Notation "m ;;; k" := (bind m (fun _ => k))
  (at level 61, right associativity) : js_scope.
Notation "x <~ m ;; k" := (bindF m (fun x => k))
  (at level 61, m at next level, right associativity) : js_scope.
Notation "m ;;~ k" := (bindF m (fun _ => k))
  (at level 61, right associativity) : js_scope.
Local Open Scope js_scope.

(** ** Logging *)

Inductive LogLevel : Type := LevelDebug | LevelInfo | LevelError.

(** One call of the logger: the level, the message and, where the call
    passes one, the error object. *)
Record LogEntry : Type := mkLog {
  level : LogLevel;
  text : string;
  meta : option Js.Error
}.

Definition logEntry (l : LogLevel) (msg : string) (e : option Js.Error) : LogEntry :=
  mkLog l msg e.

(** ** The data of [transaction.ts] *)

(** [TransactionAddress] of the factom library: one output of a factoid
    transaction, the amount in factoshis. *)
Module TransactionAddress.
Record t : Type := make { address : string; amount : Z }.
End TransactionAddress.

Module BlockContext.
Record t : Type := make { directoryBlockHeight : Z }.
End BlockContext.

(** [Transaction] of the factom library, with the fields the code reads. *)
Module Transaction.
Record t : Type := make {
  id : string;
  timestamp : Z;
  totalInputs : Z;
  factoidOutputs : list TransactionAddress.t;
  blockContext : BlockContext.t
}.
End Transaction.

(** [AddressConfig] of [./types], with the fields [transaction.ts] reads. *)
Module AddressConfig.
Record t : Type := make {
  address : string;
  name : string;
  coinbase : bool;
  nonCoinbase : bool;
  currency : string
}.
End AddressConfig.

Module TransactionRow.
Record t : Type := make {
  address : string;
  timestamp : Z;
  date : string;
  txhash : string;
  height : Z;
  symbol : string;
  currency : string;
  receivedFCT : Q
}.
End TransactionRow.

(** The answer of [cli.getHeights], with the field the code reads. *)
Module Heights.
Record t : Type := make { directoryBlockHeight : Z }.
End Heights.

(** Modelled from the spec: [toInteger] of [./utils], a file that is not
    part of the sources at hand.  The specification gives the timestamp of
    a record as [floor(timestampMillis / 1000)], so [toInteger] is the
    floor of its argument. *)
Definition toInteger (x : Q) : Z := Qfloor x.

(** [formatIncomeTransaction]: the only step that can throw is
    [toISOString]. *)
Definition formatIncomeTransaction (tx : Transaction.t) (conf : AddressConfig.t)
    (receivedFCT : Q) : Completion TransactionRow.t :=
  match toISOString (Transaction.timestamp tx) with
  | Normal date =>
      Normal
        {| TransactionRow.address := AddressConfig.address conf;
           TransactionRow.timestamp :=
             toInteger (inject_Z (Transaction.timestamp tx) / 1000);
           TransactionRow.date := date;
           TransactionRow.txhash := Transaction.id tx;
           TransactionRow.height :=
             BlockContext.directoryBlockHeight (Transaction.blockContext tx);
           TransactionRow.symbol := "FCT";
           TransactionRow.currency := AddressConfig.currency conf;
           TransactionRow.receivedFCT := receivedFCT |}
  | Throw e => Throw e
  | Exit c => Exit c
  end.

(** [sumFCToutputs]: [filter], then [reduce] from 0, then the product with
    [Math.pow(10, -8)].  The amounts are integers and the sum of [reduce] is
    the exact one, as it is in the code for totals below 2^53 factoshis
    (some 90 million FCT); the product is the product of two doubles,
    rounded to the nearest double. *)
Definition sumFCToutputs (transaction : Transaction.t) (address : string) : Q :=
  Double.toQ
    (Double.mul
       (Double.ofInteger
          (fold_left (fun total current => (total + TransactionAddress.amount current)%Z)
             (filter
                (fun outputs => String.eqb (TransactionAddress.address outputs) address)
                (Transaction.factoidOutputs transaction))
             0%Z))
       Double.tenToMinus8).

(** ** The world of [transaction.ts] *)

Section Ingestion.

(** The state of the database behind [TransactionTable], the directory
    blocks of the factom library, and the value that
    [insertUncommittedTransaction] returns. *)
Variable DB : Type.
Variable DirectoryBlock : Type.
Variable InsertResult : Type.

(** The observable calls, in the order they are made. *)
Inductive Event : Type :=
| GetMaxHeightCall
| GetHeightsCall
| GetDirectoryBlockCall (height : Z)
| HandleDirectoryBlockCall (directoryBlock : DirectoryBlock)
| InsertCall (row : TransactionRow.t)
| Logged (entry : LogEntry).

Record World : Type := mkWorld { db : DB; trace : list Event }.

Definition emit (ev : Event) : M World unit :=
  fun w => (Normal tt, mkWorld (db w) (trace w ++ [ev])%list).

Definition logger (l : LogLevel) (msg : string) (e : option Js.Error) : M World unit :=
  emit (Logged (logEntry l msg e)).

(** A method of a collaborator that acts on the database: the call is
    recorded, then the method runs on the database state. *)
Definition onDb {A} (ev : Event) (method : M DB A) : M World A :=
  fun w =>
    let '(c, d) := method (db w) in
    (c, mkWorld d (trace w ++ [ev])%list).

(** [TransactionTable] of [./db], through the two methods that
    [transaction.ts] calls. *)
Record TransactionTable : Type := mkTable {
  getMaxHeight : M DB Z;
  insertUncommittedTransaction : TransactionRow.t -> M DB InsertResult
}.

(** ** [saveNewTransaction] *)

Definition saveNewTransaction (conf : AddressConfig.t) (table : TransactionTable)
    (tx : Transaction.t) : M World (option InsertResult) :=
  let address := AddressConfig.address conf in
  let coinbase := AddressConfig.coinbase conf in
  let nonCoinbase := AddressConfig.nonCoinbase conf in
  let isCoinbase := Transaction.totalInputs tx =? 0 in
  if (isCoinbase && negb coinbase) || (negb isCoinbase && negb nonCoinbase) then
    ret None
  else
    let received := sumFCToutputs tx address in
    if Qeq_bool received 0 then ret None
    else
      txRow <- lift (formatIncomeTransaction tx conf received) ;;
      try_catch
        (logger LevelDebug
           ("Saving new transaction for address " ++ TransactionRow.address txRow
            ++ " at block " ++ numberToString (TransactionRow.height txRow)) None ;;;
         r <- onDb (InsertCall txRow) (insertUncommittedTransaction table txRow) ;;
         ret (Some r))
        (fun e =>
           logger LevelError "Fatal error. Failed to save transaction to database: "
             (Some e) ;;;
           process_exit 1).

(** ** [emitNewTransactions] *)

(** [Factom] of [./factom]: the ledger client [cli] and the event emitter
    [event].  A ledger call either returns or rejects.  The handler of a
    directory block acts on the database, and is taken to have done its work
    when the call returns: the schedule on which the event emitter runs its
    listeners is not modelled. *)
Record Factom : Type := mkFactom {
  cli_getHeights : Completion Heights.t;
  cli_getDirectoryBlock : Z -> Completion DirectoryBlock;
  event_handleDirectoryBlock : DirectoryBlock -> M DB unit
}.

(** The body of the [for] loop at height [i]. *)
Definition scanIteration (factom : Factom) (i : Z) : M World unit :=
  (if Z.rem i 1000 =? 0
   then logger LevelInfo ("Scanning block height: " ++ numberToString i) None
   else ret tt) ;;;
  directoryBlock <- (emit (GetDirectoryBlockCall i) ;;;
                     lift (cli_getDirectoryBlock factom i)) ;;
  onDb (HandleDirectoryBlockCall directoryBlock)
       (event_handleDirectoryBlock factom directoryBlock).

(** [for (let i = ...; i <= stopHeight; i++) { ... }] from the current [i]. *)
Fixpoint scanLoop (fuel : nat) (factom : Factom) (i stopHeight : Z)
    : MF World unit :=
  if i <=? stopHeight then
    match fuel with
    | O => outOfFuel
    | S fuel' =>
        liftF (scanIteration factom i) ;;~
        scanLoop fuel' factom (i + 1) stopHeight
    end
  else retF tt.

Definition emitNewTransactions (table : TransactionTable) (configStartHeight : Z)
    (factom : Factom) : MF World unit :=
  try_catchF
    (m <~ liftF (onDb GetMaxHeightCall (getMaxHeight table)) ;;
     let startHeight := if m >? configStartHeight then m else configStartHeight in
     heights <~ liftF (emit GetHeightsCall ;;; lift (cli_getHeights factom)) ;;
     let stopHeight := Heights.directoryBlockHeight heights in
     liftF (logger LevelInfo
              ("Fetching new tranactions between " ++ numberToString startHeight
               ++ " and " ++ numberToString stopHeight) None) ;;~
     scanLoop (Z.to_nat (stopHeight - startHeight)) factom (startHeight + 1)
       stopHeight ;;~
     liftF (logger LevelInfo "Scan complete" None))
    (fun e =>
       liftF (logger LevelError "Fatal error. Unable to backfill transactions: "
                (Some e) ;;;
              process_exit 1)).

End Ingestion.

Arguments mkWorld {DB DirectoryBlock} db trace.
Arguments db {DB DirectoryBlock} w.
Arguments trace {DB DirectoryBlock} w.
Arguments GetMaxHeightCall {DirectoryBlock}.
Arguments GetHeightsCall {DirectoryBlock}.
Arguments GetDirectoryBlockCall {DirectoryBlock} height.
Arguments HandleDirectoryBlockCall {DirectoryBlock} directoryBlock.
Arguments InsertCall {DirectoryBlock} row.
Arguments Logged {DirectoryBlock} entry.
Arguments emit {DB DirectoryBlock} ev.
Arguments logger {DB DirectoryBlock} l msg e.
Arguments onDb {DB DirectoryBlock A} ev method.
Arguments mkTable {DB InsertResult} getMaxHeight insertUncommittedTransaction.
Arguments getMaxHeight {DB InsertResult} t.
Arguments insertUncommittedTransaction {DB InsertResult} t row.
Arguments mkFactom {DB DirectoryBlock} _ _ _.
Arguments cli_getHeights {DB DirectoryBlock} f.
Arguments cli_getDirectoryBlock {DB DirectoryBlock} f height.
Arguments event_handleDirectoryBlock {DB DirectoryBlock} f directoryBlock.
Arguments saveNewTransaction {DB DirectoryBlock InsertResult} conf table tx.
Arguments scanIteration {DB DirectoryBlock} factom i.
Arguments scanLoop {DB DirectoryBlock} fuel factom i stopHeight.
Arguments emitNewTransactions {DB DirectoryBlock InsertResult} table configStartHeight factom.

(** ** What a trace shows *)

Section Observations.

Context {DirectoryBlock : Type}.

(** The rows handed to [insertUncommittedTransaction], oldest first. *)
Fixpoint insertedRows (tr : list (Event DirectoryBlock)) : list TransactionRow.t :=
  match tr with
  | [] => []
  | InsertCall row :: tr' => row :: insertedRows tr'
  | _ :: tr' => insertedRows tr'
  end.

(** The heights asked from [cli.getDirectoryBlock], oldest first. *)
Fixpoint fetchedHeights (tr : list (Event DirectoryBlock)) : list Z :=
  match tr with
  | [] => []
  | GetDirectoryBlockCall i :: tr' => i :: fetchedHeights tr'
  | _ :: tr' => fetchedHeights tr'
  end.

(** The blocks handed to [event.handleDirectoryBlock], oldest first. *)
Fixpoint handledBlocks (tr : list (Event DirectoryBlock)) : list DirectoryBlock :=
  match tr with
  | [] => []
  | HandleDirectoryBlockCall b :: tr' => b :: handledBlocks tr'
  | _ :: tr' => handledBlocks tr'
  end.

Fixpoint logged (tr : list (Event DirectoryBlock)) : list LogEntry :=
  match tr with
  | [] => []
  | Logged e :: tr' => e :: logged tr'
  | _ :: tr' => logged tr'
  end.

(** The events that a run from [w] to [w'] added. *)
Definition newEvents {DB} (w w' : World DB DirectoryBlock)
    : list (Event DirectoryBlock) :=
  skipn (List.length (trace w)) (trace w').

End Observations.

(** The heights [lo], [lo + 1], ..., [hi]; empty when [hi < lo]. *)
Definition heightRange (lo hi : Z) : list Z :=
  map (fun k => lo + Z.of_nat k) (seq 0 (Z.to_nat (hi + 1 - lo))).

(** ** The store, as the specification describes it *)

Module Store.

(** Modelled from the spec: the TransactionStore ([./db] is not part of the
    sources at hand).  It holds the income records and the scan cursor;
    [insertIncomeRecord] fails with [DuplicateRecord] when a record with the
    same (address, txId) exists, [getMaxHeight] returns the cursor and
    [commitHeight] moves it. *)
Record t : Type := make { records : list TransactionRow.t; cursor : Z }.

Definition DuplicateRecord : Js.Error :=
  mkError "DuplicateRecord" "(address, txId) already exists" None.

Definition sameKey (a b : TransactionRow.t) : bool :=
  String.eqb (TransactionRow.address a) (TransactionRow.address b)
  && String.eqb (TransactionRow.txhash a) (TransactionRow.txhash b).

(** Modelled from the spec: [getMaxHeight] of the TransactionStore returns
    the scan cursor. *)
Definition getMaxHeight : M t Z := fun s => (Normal (cursor s), s).

(** Modelled from the spec: [insertIncomeRecord] of the TransactionStore
    fails with [DuplicateRecord] if (address, txId) already exists. *)

Definition insertIncomeRecord (record : TransactionRow.t) : M t unit :=
  fun s =>
    if existsb (sameKey record) (records s) then (Throw DuplicateRecord, s)
    else (Normal tt, make (records s ++ [record])%list (cursor s)).

(** Modelled from the spec: [commitHeight] of the TransactionStore advances
    the scan cursor to [height].  No function of [transaction.ts] calls it. *)
Definition commitHeight (height : Z) : M t unit :=
  fun s => (Normal tt, make (records s) height).

(** Modelled from the spec: the TransactionStore behind the
    [TransactionTable] interface of the code, [insertIncomeRecord] standing
    for [insertUncommittedTransaction]. *)
Definition table : TransactionTable t unit :=
  mkTable getMaxHeight insertIncomeRecord.

End Store.

(** ** The ledger client and its retry policy *)

Module AxiosRetry.

(** The options object of [axiosRetry(axios, { retries, retryDelay })]. *)
Record IAxiosRetryConfig : Type := mkConfig {
  retries : nat;
  retryDelay : nat -> Q
}.

(** [exponentialDelay] of axios-retry, in milliseconds: [2^retryNumber * 100]
    plus a share of at most 20% of it; [random] stands for the value of
    [Math.random()]. *)
Definition exponentialDelay (random : Q) (retryNumber : nat) : Q :=
  (let delay := inject_Z (2 ^ Z.of_nat retryNumber) * 100 in
   let randomSum := delay * (2 # 10) * random in
   delay + randomSum)%Q.

(** Line 12 of [transaction.ts]; [random n] is the value that
    [Math.random()] gives at retry [n]. *)
Definition config (random : nat -> Q) : IAxiosRetryConfig :=
  mkConfig 2 (fun retryNumber => exponentialDelay (random retryNumber) retryNumber).

(** The answer of the ledger node to one attempt; [Transient] are the errors
    that the retry condition accepts (timeout, 5xx, connection reset). *)
Inductive Attempt (A : Type) : Type :=
| Answer (a : A)
| Transient (e : Js.Error)
| Permanent (e : Js.Error).

Arguments Answer {A} a.
Arguments Transient {A} e.
Arguments Permanent {A} e.

(** Modelled from the spec: the LedgerClient ([./factom] is not part of the
    sources at hand).  A request is sent; a transient error is retried while
    the retry count is below [retries], after the delay [retryDelay] of the
    new count; a permanent error, or a transient one with the budget spent,
    is thrown.  The result comes with the delays waited, oldest first. *)
Fixpoint send {A} (cfg : IAxiosRetryConfig) (attempt : nat -> Attempt A)
    (budget retryCount : nat) : Completion A * list Q :=
  match attempt retryCount with
  | Answer a => (Normal a, [])
  | Permanent e => (Throw e, [])
  | Transient e =>
      match budget with
      | O => (Throw e, [])
      | S budget' =>
          let '(r, delays) := send cfg attempt budget' (S retryCount) in
          (r, retryDelay cfg (S retryCount) :: delays)
      end
  end.

(** Modelled from the spec: a request of the LedgerClient starts with the
    whole retry budget. *)
Definition request {A} (cfg : IAxiosRetryConfig) (attempt : nat -> Attempt A)
    : Completion A * list Q :=
  send cfg attempt (retries cfg) 0.

(** The number of attempts that a request made. *)
Definition attemptsMade {A} (r : Completion A * list Q) : nat := S (List.length (snd r)).

End AxiosRetry.

Section LedgerClient.

Context {DB DirectoryBlock : Type}.

(** Modelled from the spec: the LedgerClient inside the [Factom] object
    ([./factom] is not part of the sources at hand).  Its [cli] sends its two
    requests under the retry policy of line 12; [tip] and [blocks i] give the
    answers of the node to the successive attempts. *)
Definition retryingFactom (random : nat -> Q)
    (tip : nat -> AxiosRetry.Attempt Heights.t)
    (blocks : Z -> nat -> AxiosRetry.Attempt DirectoryBlock)
    (handler : DirectoryBlock -> M DB unit) : Factom DB DirectoryBlock :=
  mkFactom
    (fst (AxiosRetry.request (AxiosRetry.config random) tip))
    (fun i => fst (AxiosRetry.request (AxiosRetry.config random) (blocks i)))
    handler.

End LedgerClient.

(** ** [config.ts]: reading the configuration *)

Module ConfigTs.

(** A document as [yaml.safeLoad] returns it; the empty document loads as
    [undefined]. *)
Inductive Yaml : Type :=
| YUndefined
| YNull
| YBool (b : bool)
| YNumber (n : Z)
| YString (s : string)
| YSeq (items : list Yaml)
| YMap (fields : list (string * Yaml)).

Record FactomdConfig : Type := mkFactomd {
  host : string;
  port : Z;
  path : string;
  protocol : string
}.

Record KeyConfig : Type := mkKeys {
  cryptocompare : string;
  bitcoinTax : bool;
  bitcoinTaxSecret : option string;
  bitcoinTaxKey : option string
}.

(** [options] as the schema leaves it: a validated object has a currency and
    no [minTime]; the default object has a [minTime] and no currency. *)
Record OptionsConfig : Type := mkOptions {
  currency : option string;
  startHeight : Z;
  minTime : option Z
}.

(** The four sub-schemas of [configSchema].  Each gives the validated value
    of a defined document, or the message of its validation error.
    [Joi.array().has(...)] keeps the array as it is. *)
Record Schemas : Type := mkSchemas {
  factomdConfigSchema : Yaml -> string + FactomdConfig;
  keySchema : Yaml -> string + KeyConfig;
  addressesSchema : Yaml -> string + list Yaml;
  optionsSchema : Yaml -> string + OptionsConfig
}.

(** The [value] of a validation without error.  [keys] carries neither
    [required()] nor [default()] in [configSchema], so it can be undefined. *)
Record Value : Type := mkValue {
  v_factomd : FactomdConfig;
  v_keys : option KeyConfig;
  v_addresses : list Yaml;
  v_options : OptionsConfig
}.

(** The answer [{ value, error }] of [Joi.validate]; [value] is [None] for
    [undefined]. *)
Record ValidationResult : Type := mkResult {
  value : option Value;
  error : option Js.Error
}.

Definition ValidationError (msg : string) : Js.Error :=
  mkError "ValidationError" msg None.

Definition defaultFactomd : FactomdConfig :=
  mkFactomd "api.factomd.net" 443 "/v2" "https".

Definition defaultOptions : OptionsConfig :=
  mkOptions None 143400 (Some 500).

Fixpoint lookup (key : string) (fields : list (string * Yaml)) : Yaml :=
  match fields with
  | [] => YUndefined
  | (k, v) :: rest => if String.eqb k key then v else lookup key rest
  end.

Definition knownKey (k : string) : bool :=
  existsb (String.eqb k) ["factomd"; "keys"; "addresses"; "options"].

Definition errorsOf {A} (r : string + A) : list string :=
  match r with inl msg => [msg] | inr _ => [] end.

(** [Joi.validate(config, configSchema, { abortEarly: false })].  An
    undefined document passes (the object itself is not required); a key
    outside the schema is an error; a missing [factomd] or [options] takes
    its default, a missing [keys] stays undefined, a missing [addresses] is
    an error; all errors are collected into one. *)
Definition validate (schemas : Schemas) (config : Yaml) : ValidationResult :=
  match config with
  | YUndefined => mkResult None None
  | YMap fields =>
      let unknown :=
        map (fun kv => fst kv ++ " is not allowed")
            (filter (fun kv => negb (knownKey (fst kv))) fields) in
      let rFactomd :=
        match lookup "factomd" fields with
        | YUndefined => inr defaultFactomd
        | y => factomdConfigSchema schemas y
        end in
      let rKeys :=
        match lookup "keys" fields with
        | YUndefined => inr None
        | y => match keySchema schemas y with
               | inl msg => inl msg
               | inr k => inr (Some k)
               end
        end in
      let rAddresses :=
        match lookup "addresses" fields with
        | YUndefined => inl "addresses is required"
        | y => addressesSchema schemas y
        end in
      let rOptions :=
        match lookup "options" fields with
        | YUndefined => inr defaultOptions
        | y => optionsSchema schemas y
        end in
      match rFactomd, rKeys, rAddresses, rOptions, unknown with
      | inr f, inr k, inr a, inr o, [] => mkResult (Some (mkValue f k a o)) None
      | _, _, _, _, _ =>
          mkResult None
            (Some (ValidationError
                     (String.concat ". "
                        (errorsOf rFactomd ++ errorsOf rKeys ++ errorsOf rAddresses
                         ++ errorsOf rOptions ++ unknown)%list)))
      end
  | _ => mkResult None (Some (ValidationError "value must be an object"))
  end.

(** The instance that the constructor builds. *)
Record Config : Type := mkInstance {
  factomd : FactomdConfig;
  addresses : list Yaml;
  options : OptionsConfig;
  keys : KeyConfig
}.

(** JavaScript truthiness of an optional string. *)
Definition truthy (s : option string) : bool :=
  match s with
  | None => false
  | Some s' => negb (String.eqb s' "")
  end.

(** The lines that the [catch] block logs for an error. *)
Definition failureLines (e : Js.Error) : list LogEntry :=
  [logEntry LevelError "Unable to load config" None;
   logEntry LevelError (message e) None]
  ++ match code e with
     | Some c =>
         if String.eqb c "ENOENT"
         then [logEntry LevelError "Did you init the config? See --help for more info."
                 None]
         else []
     | None => []
     end.

Definition readingLine (path : string) : LogEntry :=
  logEntry LevelInfo ("Reading config from: " ++ path) None.

Section Constructor.

(** [fs.readFileSync(path, 'utf8')], [yaml.safeLoad] and the sub-schemas. *)
Variable readFileSync : string -> Completion string.
Variable safeLoad : string -> Completion Yaml.
Variable schemas : Schemas.

(** The world of the constructor is the list of log lines, oldest first. *)
Definition log (l : LogLevel) (msg : string) : M (list LogEntry) unit :=
  fun w => (Normal tt, (w ++ [logEntry l msg None])%list).

(** [value.keys], the first property read of [value]: a [TypeError] when
    [value] is undefined. *)
Definition getValue (v : option Value) : Completion Value :=
  match v with
  | None => Throw (TypeError "Cannot read property 'keys' of undefined")
  | Some v' => Normal v'
  end.

(** [value.keys.bitcoinTax], the first property read of [value.keys]: a
    [TypeError] when [value.keys] is undefined. *)
Definition getKeys (k : option KeyConfig) : Completion KeyConfig :=
  match k with
  | None => Throw (TypeError "Cannot read property 'bitcoinTax' of undefined")
  | Some k' => Normal k'
  end.

Definition constructor (path : string) : M (list LogEntry) Config :=
  log LevelInfo ("Reading config from: " ++ path) ;;;
  try_catch
    (yamlString <- lift (readFileSync path) ;;
     config <- lift (safeLoad yamlString) ;;
     let r := validate schemas config in
     (match error r with
      | Some e => throw e
      | None => ret tt
      end) ;;;
     v <- lift (getValue (value r)) ;;
     k <- lift (getKeys (v_keys v)) ;;
     (if (bitcoinTax k && negb (truthy (bitcoinTaxSecret k)))
         || (bitcoinTax k && negb (truthy (bitcoinTaxKey k)))
      then throw (PlainError "Must provide bitcoin.tax secret and key when bitoinTax true")
      else ret tt) ;;;
     ret (mkInstance (v_factomd v) (v_addresses v) (v_options v) k))
    (fun e =>
       log LevelError "Unable to load config" ;;;
       log LevelError (message e) ;;;
       (if match code e with
           | Some c => String.eqb c "ENOENT"
           | None => false
           end
        then log LevelError "Did you init the config? See --help for more info."
        else ret tt) ;;;
       process_exit 1).

(** The body of the [try], as a pure function of what the file holds. *)
Definition loaded (path : string) : Completion Config :=
  match readFileSync path with
  | Normal yamlString =>
      match safeLoad yamlString with
      | Normal config =>
          let r := validate schemas config in
          match error r with
          | Some e => Throw e
          | None =>
              match value r with
              | None => Throw (TypeError "Cannot read property 'keys' of undefined")
              | Some v =>
                  match v_keys v with
                  | None =>
                      Throw (TypeError "Cannot read property 'bitcoinTax' of undefined")
                  | Some k =>
                      if (bitcoinTax k && negb (truthy (bitcoinTaxSecret k)))
                         || (bitcoinTax k && negb (truthy (bitcoinTaxKey k)))
                      then Throw (PlainError
                                    "Must provide bitcoin.tax secret and key when bitoinTax true")
                      else Normal (mkInstance (v_factomd v) (v_addresses v)
                                     (v_options v) k)
                  end
              end
          end
      | Throw e => Throw e
      | Exit c => Exit c
      end
  | Throw e => Throw e
  | Exit c => Exit c
  end.

End Constructor.

End ConfigTs.

(** ** The block handler, as the specification describes it *)

Module Classifier.

(** Modelled from the spec: a block as the ledger client returns it, and the
    handler that the event emitter runs on it (the wiring of [./factom] and
    of the entry point is not part of the sources at hand): every
    transaction of the block goes through [saveNewTransaction] for every
    configured address, in the order of the block. *)
Record Block : Type := mkBlock {
  height : Z;
  transactions : list Transaction.t
}.

Fixpoint forEach {W A} (items : list A) (f : A -> M W unit) : M W unit :=
  match items with
  | [] => ret tt
  | x :: rest => f x ;;; forEach rest f
  end.

(** Modelled from the spec: the classification of a block, transaction by
    transaction and address by address, through [saveNewTransaction]. *)
Definition classify {DB InsertResult} (table : TransactionTable DB InsertResult)
    (addresses : list AddressConfig.t) (block : Block) : M (World DB Block) unit :=
  forEach (transactions block) (fun tx =>
    forEach addresses (fun conf =>
      saveNewTransaction conf table tx ;;; ret tt)).

(** Modelled from the spec: the handler as [Factom] holds it; it acts on
    the database. *)
Definition handleDirectoryBlock {DB InsertResult}
    (table : TransactionTable DB InsertResult) (addresses : list AddressConfig.t)
    (block : Block) : M DB unit :=
  fun d =>
    let '(c, w) := classify table addresses block (mkWorld d []) in
    (c, db w).

End Classifier.

(** ** Notions of the specification *)

(** The received amount in the words of the specification: the sum, over
    the outputs of the transaction, of the amounts of those outputs whose
    address equals the configured address, in factoshis. *)
Fixpoint matchingTotal (address : string) (outputs : list TransactionAddress.t) : Z :=
  match outputs with
  | [] => 0
  | o :: rest =>
      (if string_dec (TransactionAddress.address o) address
       then TransactionAddress.amount o
       else 0)
      + matchingTotal address rest
  end.

(** An amount of factoshis in FCT, as the code computes it: the double
    [factoshis * Math.pow(10, -8)]. *)
Definition inFCT (factoshis : Z) : Q :=
  Double.toQ (Double.mul (Double.ofInteger factoshis) Double.tenToMinus8).

(** The filter of the specification: a transaction is skipped for an
    address when it is coinbase and the address does not accept coinbase, or
    it is not coinbase and the address does not accept non-coinbase. *)
Definition skippedByFilter (conf : AddressConfig.t) (tx : Transaction.t) : Prop :=
  (Transaction.totalInputs tx = 0 /\ AddressConfig.coinbase conf = false)
  \/ (Transaction.totalInputs tx <> 0 /\ AddressConfig.nonCoinbase conf = false).

(** The two log lines of [saveNewTransaction]. *)
Definition savingLine {DirectoryBlock} (row : TransactionRow.t) : Event DirectoryBlock :=
  Logged
    (logEntry LevelDebug
       ("Saving new transaction for address " ++ TransactionRow.address row
        ++ " at block " ++ numberToString (TransactionRow.height row)) None).

Definition saveFailedLine {DirectoryBlock} (e : Js.Error) : Event DirectoryBlock :=
  Logged
    (logEntry LevelError "Fatal error. Failed to save transaction to database: "
       (Some e)).

(** The log line of the [catch] of [emitNewTransactions]. *)
Definition backfillFailedLine {DirectoryBlock} (e : Js.Error) : Event DirectoryBlock :=
  Logged
    (logEntry LevelError "Fatal error. Unable to backfill transactions: " (Some e)).

(** The database after the handler ran, one after the other, on the blocks
    of the heights [hs]. *)
Definition dbAfter {DB DirectoryBlock} (handler : DirectoryBlock -> M DB unit)
    (blocks : Z -> DirectoryBlock) (hs : list Z) (d : DB) : DB :=
  fold_left (fun d' h => snd (handler (blocks h) d')) hs d.

(** The progress line of the loop, present at the multiples of 1000. *)
Definition progressLine {DirectoryBlock} (i : Z) : list (Event DirectoryBlock) :=
  if Z.rem i 1000 =? 0
  then [Logged (logEntry LevelInfo ("Scanning block height: " ++ numberToString i) None)]
  else [].

(** The ledger serves the heights [hs] from the database state [d]: the
    fetch of each height [h] returns [blocks h], and the handler returns on
    it in the state that the blocks before it left. *)
Fixpoint servedOn {DB DirectoryBlock} (factom : Factom DB DirectoryBlock)
    (blocks : Z -> DirectoryBlock) (hs : list Z) (d : DB) : Prop :=
  match hs with
  | [] => True
  | h :: rest =>
      cli_getDirectoryBlock factom h = Normal (blocks h)
      /\ fst (event_handleDirectoryBlock factom (blocks h) d) = Normal tt
      /\ servedOn factom blocks rest
           (snd (event_handleDirectoryBlock factom (blocks h) d))
  end.

(** The first and the last line of the log of a pass. *)
Definition fetchingLine {DirectoryBlock} (startHeight stopHeight : Z)
    : Event DirectoryBlock :=
  Logged
    (logEntry LevelInfo
       ("Fetching new tranactions between " ++ numberToString startHeight
        ++ " and " ++ numberToString stopHeight) None).

Definition completeLine {DirectoryBlock} : Event DirectoryBlock :=
  Logged (logEntry LevelInfo "Scan complete" None).

(** ** Sample data *)

Module Sample.

Definition addressA : string := "FA2jK2HcLnRdS94dEcU27rF3meoJfpUcZPSinpb7AwQvPRY6RL1Q".
Definition addressB : string := "FA3upjWMKHmStAHR5ZgKVK4zVHPb8U74L2wzKaaSDQEonHajiLeq".

(** An address that records coinbase receipts only, and one that records
    the others only. *)
Definition coinbaseOnly : AddressConfig.t :=
  AddressConfig.make addressA "authority node" true false "USD".
Definition nonCoinbaseOnly : AddressConfig.t :=
  AddressConfig.make addressA "wallet" false true "EUR".

(** A coinbase transaction of block 101 with two outputs to [addressA]
    (1.5 and 0.5 FCT) and one to [addressB]. *)
Definition coinbaseTx : Transaction.t :=
  Transaction.make "tx1" 1577836800123 0
    [TransactionAddress.make addressA 150000000;
     TransactionAddress.make addressB 7;
     TransactionAddress.make addressA 50000000]
    (BlockContext.make 101).

(** A coinbase transaction of block 101 with two outputs to [addressA], of
    1 and of 1.3 FCT. *)
Definition roundedTx : Transaction.t :=
  Transaction.make "tx4" 1577836800123 0
    [TransactionAddress.make addressA 100000000;
     TransactionAddress.make addressA 130000000]
    (BlockContext.make 101).

(** A transfer of block 102 that pays [addressB] only. *)
Definition transferTx : Transaction.t :=
  Transaction.make "tx2" 1577837400000 1
    [TransactionAddress.make addressB 300000000]
    (BlockContext.make 102).

Definition coinbaseRow : TransactionRow.t :=
  TransactionRow.make addressA 1577836800 "2020-01-01T00:00:00.123Z" "tx1" 101
    "FCT" "USD" 2%Q.

Definition block (i : Z) : Classifier.Block :=
  Classifier.mkBlock i
    (if i =? 101 then [coinbaseTx] else if i =? 102 then [transferTx] else []).

(** An empty store with the cursor at 100, and the same store after the
    record of [coinbaseTx] went in. *)
Definition emptyStore : Store.t := Store.make [] 100.
Definition usedStore : Store.t := Store.make [coinbaseRow] 100.

Definition world (s : Store.t) : World Store.t Classifier.Block := mkWorld s [].

Definition handler : Classifier.Block -> M Store.t unit :=
  Classifier.handleDirectoryBlock Store.table [coinbaseOnly].

Definition NotFound : Js.Error := mkError "NotFound" "Directory block not found" None.
Definition Unavailable : Js.Error :=
  mkError "UpstreamUnavailable" "connect ECONNREFUSED" (Some "ECONNREFUSED").

(** A ledger with the given tip that serves every block. *)
Definition ledger (tip : Z) : Factom Store.t Classifier.Block :=
  mkFactom (Normal (Heights.make tip)) (fun i => Normal (block i)) handler.

(** A ledger with the given tip where the block at [missing] is not found. *)
Definition ledgerWithout (tip missing : Z) : Factom Store.t Classifier.Block :=
  mkFactom (Normal (Heights.make tip))
    (fun i => if i =? missing then Throw NotFound else Normal (block i))
    handler.

(** A store whose cursor is at 104, and a ledger with tip 106 whose node
    answers every attempt for the block 105 with a connection error. *)
Definition storeAt104 : Store.t := Store.make [] 104.

Definition downAt105 (i : Z) (retryCount : nat) : AxiosRetry.Attempt Classifier.Block :=
  if i =? 105 then AxiosRetry.Transient Unavailable else AxiosRetry.Answer (block i).

Definition halfJitter (retryNumber : nat) : Q := 1 # 2.

Definition flakyLedger : Factom Store.t Classifier.Block :=
  retryingFactom halfJitter (fun _ => AxiosRetry.Answer (Heights.make 106))
    downAt105 handler.

(** A configuration file with an [addresses] section and nothing else. *)
Definition configPath : string := "/home/user/.factoidd/config.yaml".

Definition addressEntry : ConfigTs.Yaml :=
  ConfigTs.YMap
    [("address", ConfigTs.YString addressA); ("name", ConfigTs.YString "wallet");
     ("coinbase", ConfigTs.YBool true); ("nonCoinbase", ConfigTs.YBool false)].

Definition addressesOnly : ConfigTs.Yaml :=
  ConfigTs.YMap [("addresses", ConfigTs.YSeq [addressEntry])].

Definition readConfigFile (path : string) : Completion string :=
  if String.eqb path configPath then Normal "addresses: [...]"
  else Throw (mkError "Error" "ENOENT: no such file or directory" (Some "ENOENT")).

Definition loadYaml (yamlString : string) : Completion ConfigTs.Yaml :=
  Normal addressesOnly.

(** Sub-schemas that accept a sequence as [addresses]; the other three are
    not consulted for a document without these sections. *)
Definition schemas : ConfigTs.Schemas :=
  ConfigTs.mkSchemas
    (fun _ => inl "factomd must be an object")
    (fun _ => inl "keys must be an object")
    (fun y => match y with
              | ConfigTs.YSeq items => inr items
              | _ => inl "addresses must be an array"
              end)
    (fun _ => inl "options must be an object").

(** A validated configuration with bitcoin.tax switched on and no secret. *)
Definition keysWithoutSecret : ConfigTs.KeyConfig :=
  ConfigTs.mkKeys "0123456789abcdef0123456789abcdef0123456789abcdef0123456789abcdef"
    true None (Some "0123456789abcdef").

End Sample.

(** ** The prompts of inquirer *)

Module Inquirer.

(** The JavaScript values that the questions and the answers hold. *)
Inductive Value : Type :=
| VUndefined
| VBool (b : bool)
| VNumber (n : Z)
| VNaN
| VString (s : string)
| VError (msg : string)
| VObject (fields : list (string * Value)).

Definition truthy (v : Value) : bool :=
  match v with
  | VUndefined => false
  | VBool b => b
  | VNumber n => negb (n =? 0)
  | VNaN => false
  | VString s => negb (String.eqb s "")
  | VError _ => true
  | VObject _ => true
  end.

(** [a === b] on the values that the code compares: primitives. *)
Definition strictEq (a b : Value) : bool :=
  match a, b with
  | VUndefined, VUndefined => true
  | VBool x, VBool y => Bool.eqb x y
  | VNumber x, VNumber y => x =? y
  | VString x, VString y => String.eqb x y
  | _, _ => false
  end.

Fixpoint lookup (key : string) (fields : list (string * Value)) : Value :=
  match fields with
  | [] => VUndefined
  | (k, v) :: rest => if String.eqb k key then v else lookup key rest
  end.

(** [v.key] *)
Definition getProp (v : Value) (key : string) : Completion Value :=
  match v with
  | VUndefined =>
      Throw (TypeError ("Cannot read property '" ++ key ++ "' of undefined"))
  | VObject fields => Normal (lookup key fields)
  | VString s =>
      Normal (if String.eqb key "length" then VNumber (Z.of_nat (String.length s))
              else VUndefined)
  | _ => Normal VUndefined
  end.

(** [obj[key] = v]: an existing key keeps its place, a new one goes last. *)
Fixpoint setField (key : string) (v : Value) (fields : list (string * Value))
    : list (string * Value) :=
  match fields with
  | [] => [(key, v)]
  | (k, old) :: rest =>
      if String.eqb k key then (k, v) :: rest else (k, old) :: setField key v rest
  end.

Definition fieldsOf (v : Value) : list (string * Value) :=
  match v with
  | VObject fields => fields
  | _ => []
  end.

(** [_.set(obj, path, v)], which inquirer uses to store an answer under a
    name with periods. *)
Fixpoint setPath (path : list string) (v : Value) (obj : Value) : Value :=
  match path with
  | [] => v
  | key :: rest =>
      VObject (setField key (setPath rest v (lookup key (fieldsOf obj))) (fieldsOf obj))
  end.

(** [{ ...v }] *)
Definition spread (v : Value) : Value := VObject (fieldsOf v).

(** The object without one key: [const { key, ...rest } = v]. *)
Definition without (key : string) (v : Value) : Value :=
  VObject (filter (fun kv => negb (String.eqb (fst kv) key)) (fieldsOf v)).

Inductive PromptType : Type :=
| TList (choices : list Value)
| TInput
| TNumber
| TConfirm.

(** A question object, with the keys that [config.ts] uses. *)
Record Question : Type := mkQuestion {
  type : PromptType;
  name : list string;
  message : string;
  default : option Value;
  when : option (Value -> Completion Value);
  filter : option (Value -> Completion Value);
  validate : option (Value -> Completion Value)
}.

(** What a prompt reads from its line: [Some v] for a choice, a line of
    text, a number or a yes/no, [None] for the empty line (and, for a number
    prompt, for a line that is no number).  A list prompt opens on its first
    choice; an input prompt falls back on its default, or the empty string;
    a number prompt on its default, or [NaN]; a confirm prompt on its
    default, or [true].  [None] as a result: the prompt has no such input. *)
Definition entered (q : Question) (raw : option Value) : option Value :=
  match type q, raw with
  | TList choices, Some v => if existsb (strictEq v) choices then Some v else None
  | TList choices, None => hd_error choices
  | TInput, Some (VString s) =>
      if String.eqb s ""
      then Some (match default q with Some d => d | None => VString "" end)
      else Some (VString s)
  | TInput, None => Some (match default q with Some d => d | None => VString "" end)
  | TNumber, Some (VNumber n) => Some (VNumber n)
  | TNumber, None => Some (match default q with Some d => d | None => VNaN end)
  | TConfirm, Some (VBool b) => Some (VBool b)
  | TConfirm, None => Some (match default q with Some d => d | None => VBool true end)
  | _, _ => None
  end.

(** What the line holds after a refusal.  An input prompt, and a number
    prompt, which is an input prompt, write the refused value back on the
    line that the submission had emptied ([onError] of inquirer's
    [input.js]): a text stays as it is; a number stays in its decimal
    notation, which the number prompt reads back as that number as long as it
    is below the exponent notation (10^21), and as no number beyond; [NaN]
    reads back as no number.  When [validate] throws there is no value to
    write back, and the other prompts keep no line. *)
Definition refusedLine (q : Question) (v : Value) : option Value :=
  match validate q with
  | Some f =>
      match f v with
      | Normal _ =>
          match type q, v with
          | TInput, VString s => Some (VString s)
          | TInput, VNumber n => Some (VString (numberToString n))
          | TInput, VBool b => Some (VString (if b then "true" else "false"))
          | TInput, VNaN => Some (VString "NaN")
          | TNumber, VNumber n => if Z.abs n <? 10 ^ 21 then Some (VNumber n) else None
          | _, _ => None
          end
      | _ => None
      end
  | None => None
  end.

(** What a prompt hands on when the user presses return.  [Some v]: the
    line reads [v] at that moment, the user having typed it (after a refusal:
    having edited what inquirer left there).  [None]: the user presses return
    alone, and the prompt reads what the line holds: nothing on a fresh line,
    the refused value after a refusal. *)
Definition submitted (q : Question) (line raw : option Value) : option Value :=
  entered q (match raw with Some v => Some v | None => line end).

(** The value after [filter]; [None] when [filter] throws. *)
Definition filtered (q : Question) (v : Value) : option Value :=
  match filter q with
  | None => Some v
  | Some f => match f v with Normal v' => Some v' | _ => None end
  end.

(** An answer is accepted when [validate] returns [true] itself. *)
Definition valid (q : Question) (v : Value) : bool :=
  match validate q with
  | None => true
  | Some f => match f v with Normal (VBool true) => true | _ => false end
  end.

(** A promise, as far as the user script decides it: it stays pending when
    the script ends before the last answer. *)
Inductive Promise (A : Type) : Type :=
| Pending
| Resolved (a : A)
| Rejected (e : Js.Error).

Arguments Pending {A}.
Arguments Resolved {A} a.
Arguments Rejected {A} e.

(** One question: the submissions of the user are filtered, then
    validated, until one is accepted; [line] is what the line holds before
    the next submission.  The result is the accepted answer and the rest of
    the script. *)
Fixpoint askFrom (q : Question) (line : option Value) (script : list (option Value))
    : option (Value * list (option Value)) :=
  match script with
  | [] => None
  | raw :: rest =>
      match submitted q line raw with
      | None => askFrom q line rest
      | Some v =>
          match filtered q v with
          | None => askFrom q None rest
          | Some v' =>
              if valid q v' then Some (v', rest) else askFrom q (refusedLine q v') rest
          end
      end
  end.

(** A question starts on a fresh line. *)
Definition ask (q : Question) (script : list (option Value))
    : option (Value * list (option Value)) :=
  askFrom q None script.

(** [inquirer.prompt(questions)]: the questions in order, each asked when
    it has no [when] or its [when] gives a truthy value, each answer stored
    under the name of the question. *)
Fixpoint promptFrom (questions : list Question) (answers : Value)
    (script : list (option Value)) : Promise (Value * list (option Value)) :=
  match questions with
  | [] => Resolved (answers, script)
  | q :: rest =>
      match match when q with
            | None => Normal (VBool true)
            | Some f => f answers
            end with
      | Normal shouldRun =>
          if truthy shouldRun then
            match ask q script with
            | None => Pending
            | Some (v, script') => promptFrom rest (setPath (name q) v answers) script'
            end
          else promptFrom rest answers script
      | Throw e => Rejected e
      | Exit _ => Pending
      end
  end.

Definition prompt (questions : list Question) (script : list (option Value))
    : Promise (Value * list (option Value)) :=
  promptFrom questions (VObject []) script.

End Inquirer.

(** ** [config.ts]: the four wizards *)

Module Wizard.

Import Inquirer.

Definition andThen {A B} (c : Completion A) (k : A -> Completion B) : Completion B :=
  match c with
  | Normal a => k a
  | Throw e => Throw e
  | Exit code => Exit code
  end.

(** [!v] and [a || b] *)
Definition jsNot (v : Value) : Value := VBool (negb (truthy v)).
Definition jsOr (a b : Value) : Value := if truthy a then a else b.

(** A text between double quotes. *)
Definition quoted (text : string) : string :=
  String (ascii_of_nat 34) (text ++ String (ascii_of_nat 34) EmptyString).

(** [enum FactomdLocation] *)
Definition OpenNode : Value := VString "OpenNode".
Definition DefaultLocal : Value := VString "Default localhost".
Definition OwnParam : Value := VString "Input own parameters".

(** [(answers) => !answers.factomd.key] *)
Definition factomdMissing (key : string) (answers : Value) : Completion Value :=
  andThen (getProp answers "factomd") (fun factomd =>
  andThen (getProp factomd key) (fun v =>
  Normal (jsNot v))).

Definition factomdQuestions : list Question :=
  [ mkQuestion (TList [OpenNode; DefaultLocal; OwnParam]) ["factomd"]
      "Which factomd node would you like to use?" None None
      (Some (fun answer =>
         if strictEq answer OpenNode then
           Normal (VObject [("host", VString "api.factomd.net"); ("port", VNumber 443);
                            ("path", VString "/v2"); ("protocol", VString "https")])
         else if strictEq answer DefaultLocal then
           Normal (VObject [("host", VString "localhost"); ("port", VNumber 8088);
                            ("path", VString "/v2"); ("protocol", VString "http")])
         else if strictEq answer OwnParam then
           Normal (VObject [])
         else Normal VUndefined))
      None;
    mkQuestion TInput ["factomd"; "host"] "Where is your factomd node hosted?"
      (Some (VString "localhost")) (Some (factomdMissing "host")) None None;
    mkQuestion TNumber ["factomd"; "port"] "What port is your factomd API listening on?"
      (Some (VNumber 8088)) (Some (factomdMissing "port")) None None;
    mkQuestion TInput ["factomd"; "path"] "What is the path to the v2 API?"
      (Some (VString "/v2")) (Some (factomdMissing "path")) None None;
    mkQuestion TInput ["factomd"; "protocol"]
      "What protocol should be used to contact the factomd node? (http or https)"
      (Some (VString "http")) (Some (factomdMissing "protocol")) None
      (Some (fun answer =>
         Normal (jsOr (VBool (strictEq answer (VString "http")))
                   (jsOr (VBool (strictEq answer (VString "https")))
                      (VError ("Response must be either " ++ quoted "http" ++ " or "
                               ++ quoted "https"))))))
  ].

Definition createFactomdConfig (script : list (option Value)) : Promise Value :=
  match prompt factomdQuestions script with
  | Resolved (answers, _) =>
      match getProp answers "factomd" with
      | Normal factomd => Resolved (spread factomd)
      | Throw e => Rejected e
      | Exit _ => Pending
      end
  | Pending => Pending
  | Rejected e => Rejected e
  end.

Section Library.

(** [isValidPublicFctAddress] of the factom library and
    [String.prototype.toUpperCase]. *)
Variable isValidPublicFctAddress : Value -> bool.
Variable toUpperCase : string -> string.

(** [addresses.some((address) => address.name === name)] *)
Fixpoint someNameIs (addresses : list Value) (name : Value) : Completion bool :=
  match addresses with
  | [] => Normal false
  | address :: rest =>
      andThen (getProp address "name") (fun n =>
      if strictEq n name then Normal true else someNameIs rest name)
  end.

Definition addressQuestions (addresses : list Value) (addressId : string)
    : list Question :=
  [ mkQuestion TInput ["address"] (addressId ++ ": Please input public FCT address:")
      None None None
      (Some (fun address =>
         Normal (jsOr (VBool (isValidPublicFctAddress address))
                   (VError "Invalid public FCT address"))));
    mkQuestion TInput ["name"] (addressId ++ ": Please give this address a name:")
      None None None
      (Some (fun name =>
         andThen (getProp name "length") (fun len =>
         if strictEq len (VNumber 0) then Normal (VError "Name cannot be empty")
         else
           andThen (someNameIs addresses name) (fun taken =>
           if taken then Normal (VError "Name must be unique")
           else Normal (VBool true)))));
    mkQuestion TConfirm ["coinbase"]
      (addressId ++ ": Do you want to record coinbase transactions?")
      None None None None;
    mkQuestion TConfirm ["nonCoinbase"]
      (addressId ++ ": Do you want to record non-coinbase transactions?")
      None None None None;
    mkQuestion TConfirm ["newAddress"] "Do you want to input another address?"
      None None None None
  ].

(** [createAddressConfig]: one round of questions per address; the fuel
    bounds the number of rounds, [None] says that it ran out. *)
Fixpoint createAddressConfigFrom (fuel : nat) (addresses : list Value)
    (script : list (option Value)) : option (Promise (list Value)) :=
  match fuel with
  | O => None
  | S fuel' =>
      let addressId :=
        "Address " ++ numberToString (Z.of_nat (List.length addresses) + 1) in
      match prompt (addressQuestions addresses addressId) script with
      | Resolved (result, script') =>
          match getProp result "newAddress" with
          | Normal newAddress =>
              let answers := without "newAddress" result in
              if truthy newAddress
              then createAddressConfigFrom fuel' (addresses ++ [answers])%list script'
              else Some (Resolved (addresses ++ [answers])%list)
          | Throw e => Some (Rejected e)
          | Exit _ => Some Pending
          end
      | Pending => Some Pending
      | Rejected e => Some (Rejected e)
      end
  end.

(** Every round takes at least one submission, so the length of the script
    is fuel enough. *)
Definition createAddressConfig (addresses : list Value) (script : list (option Value))
    : option (Promise (list Value)) :=
  createAddressConfigFrom (S (List.length script)) addresses script.

Definition isHexDigit (c : ascii) : bool :=
  let n := nat_of_ascii c in
  ((48 <=? n) && (n <=? 57) || (65 <=? n) && (n <=? 70) || (97 <=? n) && (n <=? 102))%nat.

(** [/^[A-Fa-f0-9]{n}$/.test(key)] for a string. *)
Definition hexOfLength (n : nat) (key : Value) : bool :=
  match key with
  | VString s =>
      (String.length s =? n)%nat && forallb isHexDigit (list_ascii_of_string s)
  | _ => false
  end.

Definition keyQuestions : list Question :=
  [ mkQuestion TInput ["cryptocompare"]
      "Enter you cryptocompare API key (https://www.cryptocompare.com/cryptopian/api-keys):"
      None None None
      (Some (fun key =>
         Normal (jsOr (VBool (hexOfLength 64 key)) (VError "Expected 64 char hex key."))));
    mkQuestion TConfirm ["bitcoinTax"]
      "Do you want to record transactions on bitcoin.tax (https://bitcoin.tax/)?"
      None None None None;
    mkQuestion TInput ["bitcoinTaxKey"] "Enter your bitcoin.tax key: "
      None (Some (fun answers => getProp answers "bitcoinTax")) None
      (Some (fun key =>
         Normal (jsOr (VBool (hexOfLength 16 key)) (VError "Expected 16 char hex key."))));
    mkQuestion TInput ["bitcoinTaxSecret"] "Enter your bitcoin.tax secret: "
      None (Some (fun answers => getProp answers "bitcoinTax")) None
      (Some (fun key =>
         Normal (jsOr (VBool (hexOfLength 32 key)) (VError "Expected 32 char hex key."))))
  ].

Definition createKeyConfig (script : list (option Value)) : Promise Value :=
  match prompt keyQuestions script with
  | Resolved (answers, _) => Resolved answers
  | Pending => Pending
  | Rejected e => Rejected e
  end.

(** [height > 0] *)
Definition positive (height : Value) : bool :=
  match height with
  | VNumber n => 0 <? n
  | _ => false
  end.

Definition optionQuestions : list Question :=
  [ mkQuestion TInput ["currency"]
      "What fiat currency are you using (e.g. USD, EUR, GBP)?"
      None None
      (Some (fun answer =>
         match answer with
         | VString s => Normal (VString (toUpperCase s))
         | _ => Throw (TypeError "answer.toUpperCase is not a function")
         end))
      (Some (fun answer =>
         andThen (getProp answer "length") (fun len =>
         Normal (jsOr (VBool (strictEq len (VNumber 3)))
                   (VError "Currency symbol should be 3 characters.")))));
    mkQuestion TNumber ["startHeight"] "What block height do you wish to start from?"
      (Some (VNumber 143400)) None None
      (Some (fun height =>
         Normal (if positive height then VBool true
                 else VError "Height cannot be negative.")))
  ].

Definition createOptionConfig (script : list (option Value)) : Promise Value :=
  match prompt optionQuestions script with
  | Resolved (answers, _) => Resolved answers
  | Pending => Pending
  | Rejected e => Rejected e
  end.

End Library.

End Wizard.

(** ** [config.ts]: the application directory *)

Module Appdir.

Section FileSystem.

(** The file system behind [fs]: its state, [fs.existsSync] and
    [fs.mkdirSync]. *)
Variable FS : Type.
Variable existsSync : string -> FS -> bool.
Variable mkdirSync : string -> M FS unit.

(** The world of [createAppdirIfNotExist]: the file system and the lines
    written with [console.log], oldest first. *)
Record Host : Type := mkHost { fs : FS; console : list string }.

Definition console_log (line : string) : M Host unit :=
  fun h => (Normal tt, mkHost (fs h) (console h ++ [line])%list).

Definition onFs {A} (method : M FS A) : M Host A :=
  fun h =>
    let '(c, f) := method (fs h) in
    (c, mkHost f (console h)).

Definition createAppdirIfNotExist (appdir : string) : M Host string :=
  fun h =>
    let appdirExists := existsSync appdir (fs h) in
    ((if negb appdirExists
      then console_log ("Creating app directory at: " ++ appdir) ;;;
           onFs (mkdirSync appdir)
      else ret tt) ;;;
     ret appdir) h.

End FileSystem.

Arguments mkHost {FS} fs console.
Arguments fs {FS} h.
Arguments console {FS} h.
Arguments createAppdirIfNotExist {FS} existsSync mkdirSync appdir.

(** A file system as the set of the paths of its directories; [mkdir]
    fails on a path that exists. *)
Definition listExists (path : string) (dirs : list string) : bool :=
  existsb (String.eqb path) dirs.

Definition listMkdir (path : string) : M (list string) unit :=
  fun dirs =>
    if listExists path dirs
    then (Throw (mkError "Error" "EEXIST: file already exists" (Some "EEXIST")), dirs)
    else (Normal tt, (dirs ++ [path])%list).

End Appdir.

(** ** The configuration module of [unnamed/part_000] *)

Module LegacyConfig.

Section ConfigModule.

(** The content of [../conf/config.json] as [require] returns it (or the
    error it throws), the validated configuration, and [Joi.validate], which
    hands an error or the validated value to its callback.  A validated
    configuration is an object, so it is truthy. *)
Variable Json : Type.
Variable Validated : Type.
Variable requireConfigJson : Completion Json.
Variable joiValidate : Json -> option Js.Error * Validated.

(** The state of the module: the variable [config] ([None] for [null]) and
    the lines logged. *)
Record State : Type := mkState { config : option Validated; logs : list LogEntry }.

Definition initial : State := mkState None [].

Definition ConfigurationError (msg : string) : Js.Error :=
  mkError "ConfigurationError" msg None.

Definition validateConfig : M State Validated :=
  unvalidatedConfig <- lift requireConfigJson ;;
  let '(validationError, validatedConfig) := joiValidate unvalidatedConfig in
  match validationError with
  | Some e => throw e
  | None =>
      (fun st =>
         (Normal tt,
          mkState (Some validatedConfig)
            (logs st ++ [logEntry LevelInfo "Configuration successfully read" None])%list)) ;;;
      ret validatedConfig
  end.

Definition getConfig : M State Validated :=
  fun st =>
    match config st with
    | None => (Throw (ConfigurationError "config.json has not been validated!"), st)
    | Some c => (Normal c, st)
    end.

End ConfigModule.

Arguments mkState {Validated} config logs.
Arguments config {Validated} s.
Arguments logs {Validated} s.
Arguments initial {Validated}.
Arguments validateConfig {Json Validated} requireConfigJson joiValidate.
Arguments getConfig {Validated}.

End LegacyConfig.

(** The states of the configuration module that calls of [validateConfig]
    and [getConfig] can reach from the state in which the module is loaded. *)
Inductive reachable {Json Validated : Type} (requireConfigJson : Completion Json)
    (joiValidate : Json -> option Js.Error * Validated)
    : LegacyConfig.State Validated -> Prop :=
| reachable_initial : reachable requireConfigJson joiValidate LegacyConfig.initial
| reachable_validateConfig st c st' :
    reachable requireConfigJson joiValidate st ->
    LegacyConfig.validateConfig requireConfigJson joiValidate st = (c, st') ->
    reachable requireConfigJson joiValidate st'
| reachable_getConfig st c st' :
    reachable requireConfigJson joiValidate st ->
    LegacyConfig.getConfig st = (c, st') ->
    reachable requireConfigJson joiValidate st'.

(** The name of an address entry of the wizard. *)
Definition nameOf (address : Inquirer.Value) : Inquirer.Value :=
  Inquirer.lookup "name" (Inquirer.fieldsOf address).

(** An address entry as the wizard builds it: a valid address, a name that
    is not empty and the two switches. *)
Definition addressEntryOf (isValidPublicFctAddress : Inquirer.Value -> bool)
    (entry : Inquirer.Value) : Prop :=
  exists addr nm cb ncb,
    entry = Inquirer.VObject
              [("address", Inquirer.VString addr); ("name", Inquirer.VString nm);
               ("coinbase", Inquirer.VBool cb); ("nonCoinbase", Inquirer.VBool ncb)]
    /\ isValidPublicFctAddress (Inquirer.VString addr) = true
    /\ nm <> "".

(** ** Further sample data *)

Module SampleMore.

(** The outputs of [Sample.coinbaseTx] in another order. *)
Definition shuffledTx : Transaction.t :=
  Transaction.make "tx1" 1577836800123 0
    [TransactionAddress.make Sample.addressA 50000000;
     TransactionAddress.make Sample.addressA 150000000;
     TransactionAddress.make Sample.addressB 7]
    (BlockContext.make 101).

(** The first output of [Sample.roundedTx] alone, and the second. *)
Definition headTx : Transaction.t :=
  Transaction.make "tx4" 1577836800123 0
    [TransactionAddress.make Sample.addressA 100000000] (BlockContext.make 101).

Definition tailTx : Transaction.t :=
  Transaction.make "tx4" 1577836800123 0
    [TransactionAddress.make Sample.addressA 130000000] (BlockContext.make 101).

(** A coinbase transaction whose timestamp is no valid date. *)
Definition undatedTx : Transaction.t :=
  Transaction.make "tx3" 9000000000000000 0
    [TransactionAddress.make Sample.addressA 100000000] (BlockContext.make 102).

(** Blocks of which the one at 102 holds [undatedTx], and their ledger. *)
Definition block (i : Z) : Classifier.Block :=
  Classifier.mkBlock i (if i =? 102 then [undatedTx] else []).

Definition ledger (tip : Z) : Factom Store.t Classifier.Block :=
  mkFactom (Normal (Heights.make tip)) (fun i => Normal (block i)) Sample.handler.

(** A database whose [getMaxHeight] fails. *)
Definition lockedTable : TransactionTable Store.t unit :=
  mkTable (fun s => (Throw (mkError "Error" "SQLITE_BUSY: database is locked" None), s))
    Store.insertIncomeRecord.

(** A promise that has settled, and a database whose
    [insertUncommittedTransaction] is asynchronous: it returns a promise,
    which is rejected with [DuplicateRecord] when the record exists. *)
Inductive Settled : Type :=
| Fulfilled
| RejectedWith (e : Js.Error).

Definition asyncInsert (record : TransactionRow.t) : M Store.t Settled :=
  fun s =>
    if existsb (Store.sameKey record) (Store.records s)
    then (Normal (RejectedWith Store.DuplicateRecord), s)
    else (Normal Fulfilled,
          Store.make (Store.records s ++ [record])%list (Store.cursor s)).

Definition asyncTable : TransactionTable Store.t Settled :=
  mkTable Store.getMaxHeight asyncInsert.

(** A file whose [keys] section switches bitcoin.tax on without a secret. *)
Definition withKeys : ConfigTs.Yaml :=
  ConfigTs.YMap [("addresses", ConfigTs.YSeq [Sample.addressEntry]);
                 ("keys", ConfigTs.YMap [])].

Definition schemasWithKeys : ConfigTs.Schemas :=
  ConfigTs.mkSchemas
    (fun _ => inl "factomd must be an object")
    (fun _ => inr Sample.keysWithoutSecret)
    (fun y => match y with
              | ConfigTs.YSeq items => inr items
              | _ => inl "addresses must be an array"
              end)
    (fun _ => inl "options must be an object").

(** A legacy configuration: the JSON text and its validated form. *)
Definition legacyValidate (json : string) : option Js.Error * string :=
  if String.eqb json "" then (Some (mkError "ValidationError" "value is required" None), "")
  else (None, json ++ " (validated)").

(** Scripts for the wizards. *)
Definition ownNodeScript : list (option Inquirer.Value) :=
  [Some Wizard.OwnParam; None; Some (Inquirer.VNumber 8090);
   Some (Inquirer.VString "/api/v2"); Some (Inquirer.VString "ftp");
   Some (Inquirer.VString "https")].

Definition looksValid (address : Inquirer.Value) : bool :=
  match address with
  | Inquirer.VString s => (String.length s =? 52)%nat
  | _ => false
  end.

Definition twoAddressesScript : list (option Inquirer.Value) :=
  [Some (Inquirer.VString Sample.addressA); Some (Inquirer.VString "node"); None;
   Some (Inquirer.VBool false); Some (Inquirer.VBool true);
   Some (Inquirer.VString Sample.addressB); Some (Inquirer.VString "node");
   Some (Inquirer.VString "wallet"); Some (Inquirer.VBool false); None;
   Some (Inquirer.VBool false)].

Definition keyScript : list (option Inquirer.Value) :=
  [Some (Inquirer.VString
           "0123456789abcdef0123456789abcdef0123456789abcdef0123456789ABCDEF");
   Some (Inquirer.VBool true);
   Some (Inquirer.VString "0123456789abcdeg");
   Some (Inquirer.VString "0123456789abcdef");
   Some (Inquirer.VString "0123456789abcdef0123456789abcdef")].

Definition optionScript : list (option Inquirer.Value) :=
  [Some (Inquirer.VString "euro"); Some (Inquirer.VString "EUR");
   Some (Inquirer.VNumber 0); Some (Inquirer.VNumber 143500)].

End SampleMore.

(** ** Further notions *)

(** The events of one iteration of the loop on a height that the ledger
    serves: the progress line at a multiple of 1000, the fetch, the call of
    the handler. *)
Definition iterationEvents {DirectoryBlock} (blocks : Z -> DirectoryBlock) (h : Z)
    : list (Event DirectoryBlock) :=
  (progressLine h ++ [GetDirectoryBlockCall h; HandleDirectoryBlockCall (blocks h)])%list.

(** * Properties *)

(** ** Rounding to a double *)

Lemma iter_pos_nat {A : Type} (f : A -> A) (p : positive) (x : A) :
  iter_pos f p x = Nat.iter (Pos.to_nat p) f x.
Proof.
  revert x. induction p as [p IH|p IH|]; intro x; cbn [iter_pos].
  - rewrite !IH. rewrite Pos2Nat.inj_xI.
    replace (S (2 * Pos.to_nat p))%nat with (Pos.to_nat p + (Pos.to_nat p + 1))%nat by lia.
    rewrite !Nat.iter_add. reflexivity.
  - rewrite !IH. rewrite Pos2Nat.inj_xO.
    replace (2 * Pos.to_nat p)%nat with (Pos.to_nat p + Pos.to_nat p)%nat by lia.
    rewrite Nat.iter_add. reflexivity.
  - reflexivity.
Qed.

(** Fewer shifts to the right than the mantissa has bits leave a positive
    mantissa with that many bits less. *)
Lemma shr_iter_digits (j : nat) :
  forall m r s,
    Z.of_nat j < Zpos (digits2_pos m) ->
    exists m' r' s',
      Nat.iter j shr_1 (Build_shr_record (Zpos m) r s) = Build_shr_record (Zpos m') r' s'
      /\ Zpos (digits2_pos m') = Zpos (digits2_pos m) - Z.of_nat j.
Proof.
  induction j as [|j IH]; intros m r s Hj.
  - exists m, r, s. split; [reflexivity | simpl; lia].
  - rewrite Nat.iter_succ_r.
    destruct m as [p|p|]; simpl digits2_pos in *.
    + destruct (IH p true (r || s)%bool) as (m' & r' & s' & Hit & Hd); [lia|].
      exists m', r', s'. split; [exact Hit | lia].
    + destruct (IH p false (r || s)%bool) as (m' & r' & s' & Hit & Hd); [lia|].
      exists m', r', s'. split; [exact Hit | lia].
    + lia.
Qed.

Lemma digits2_pos_succ (p : positive) :
  digits2_pos (Pos.succ p) = digits2_pos p
  \/ digits2_pos (Pos.succ p) = Pos.succ (digits2_pos p).
Proof.
  induction p as [p IH|p IH|]; simpl; auto.
  destruct IH as [-> | ->]; auto.
Qed.

Lemma digits2_pos_shl (p d : positive) :
  Zpos (digits2_pos (Pos.iter xO p d)) = Zpos (digits2_pos p) + Zpos d.
Proof.
  induction d as [|d IH] using Pos.peano_ind.
  - simpl. lia.
  - rewrite Pos.iter_succ. cbn [digits2_pos]. lia.
Qed.

Lemma round_nearest_even_pos (m : positive) (l : location) :
  exists m', round_nearest_even (Zpos m) l = Zpos m'
             /\ (Zpos (digits2_pos m') = Zpos (digits2_pos m)
                 \/ Zpos (digits2_pos m') = Zpos (digits2_pos m) + 1).
Proof.
  assert (Hs : exists m', Zpos m + 1 = Zpos m'
             /\ (Zpos (digits2_pos m') = Zpos (digits2_pos m)
                 \/ Zpos (digits2_pos m') = Zpos (digits2_pos m) + 1)).
  { exists (Pos.succ m). split; [lia|].
    destruct (digits2_pos_succ m) as [-> | ->]; [left; reflexivity | right; lia]. }
  assert (H0 : exists m', Zpos m = Zpos m'
             /\ (Zpos (digits2_pos m') = Zpos (digits2_pos m)
                 \/ Zpos (digits2_pos m') = Zpos (digits2_pos m) + 1)).
  { exists m. auto. }
  destruct l as [|[| |]]; cbn [round_nearest_even]; auto.
  destruct (Z.even (Zpos m)); auto.
Qed.

(** The second half of [binary_round_aux]: above the subnormal range, the
    rounded mantissa stays positive. *)
Lemma binary_round_finish (sx : bool) (m : positive) (e : Z) :
  -1021 <= Zpos (digits2_pos m) + e ->
  (exists m' e',
     (let '(mrs, e'') := shr_fexp 53 1024 (Zpos m) e loc_Exact in
      match shr_m mrs with
      | Z0 => S754_zero sx
      | Zpos m0 => if e'' <=? 1024 - 53 then S754_finite sx m0 e'' else S754_infinity sx
      | Zneg _ => S754_nan
      end) = S754_finite sx m' e' /\ e <= e')
  \/ (let '(mrs, e'') := shr_fexp 53 1024 (Zpos m) e loc_Exact in
      match shr_m mrs with
      | Z0 => S754_zero sx
      | Zpos m0 => if e'' <=? 1024 - 53 then S754_finite sx m0 e'' else S754_infinity sx
      | Zneg _ => S754_nan
      end) = S754_infinity sx.
Proof.
  intro Hd.
  unfold shr_fexp, shr, fexp, emin, Zdigits2, shr_record_of_loc.
  destruct (Z.max (Zpos (digits2_pos m) + e - 53) (3 - 1024 - 53) - e) as [|k|k] eqn:Hk.
  - cbn [shr_m]. destruct (e <=? 1024 - 53); [left | right; reflexivity].
    exists m, e. split; [reflexivity | lia].
  - rewrite iter_pos_nat.
    destruct (shr_iter_digits (Pos.to_nat k) m false false) as (m' & r' & s' & Hit & Hdig).
    { rewrite positive_nat_Z. lia. }
    rewrite Hit. cbn [shr_m].
    destruct (e + Zpos k <=? 1024 - 53); [left | right; reflexivity].
    exists m', (e + Zpos k). split; [reflexivity | lia].
  - cbn [shr_m]. destruct (e <=? 1024 - 53); [left | right; reflexivity].
    exists m, e. split; [reflexivity | lia].
Qed.

(** Rounding a positive mantissa above the subnormal range gives a finite
    double of the same sign, or the infinity of that sign. *)
Lemma binary_round_aux_pos (sx : bool) (m : positive) (e : Z) :
  -1021 <= Zpos (digits2_pos m) + e ->
  (exists m' e',
     binary_round_aux Double.prec Double.emax sx (Zpos m) e loc_Exact
     = S754_finite sx m' e' /\ e <= e')
  \/ binary_round_aux Double.prec Double.emax sx (Zpos m) e loc_Exact = S754_infinity sx.
Proof.
  intro Hd.
  unfold binary_round_aux, Double.prec, Double.emax.
  assert (Hstep : exists m2 e2,
            (let '(mrs', e') := shr_fexp 53 1024 (Zpos m) e loc_Exact in
             (round_nearest_even (shr_m mrs') (loc_of_shr_record mrs'), e'))
            = (Zpos m2, e2)
            /\ e <= e2 /\ -1021 <= Zpos (digits2_pos m2) + e2).
  { unfold shr_fexp, shr, fexp, emin, Zdigits2, shr_record_of_loc.
    destruct (Z.max (Zpos (digits2_pos m) + e - 53) (3 - 1024 - 53) - e) as [|k|k] eqn:Hk.
    - exists m, e. cbn [shr_m loc_of_shr_record round_nearest_even].
      split; [reflexivity | lia].
    - rewrite iter_pos_nat.
      destruct (shr_iter_digits (Pos.to_nat k) m false false) as (m1 & r1 & s1 & Hit & Hdig).
      { rewrite positive_nat_Z. lia. }
      rewrite Hit. cbn [shr_m].
      rewrite positive_nat_Z in Hdig.
      destruct (round_nearest_even_pos m1
                  (loc_of_shr_record (Build_shr_record (Zpos m1) r1 s1)))
        as (m2 & Hr & Hd2).
      exists m2, (e + Zpos k). rewrite Hr. split; [reflexivity | lia].
    - exists m, e. cbn [shr_m loc_of_shr_record round_nearest_even].
      split; [reflexivity | lia]. }
  destruct Hstep as (m2 & e2 & Hstep & He2 & Hd2).
  destruct (shr_fexp 53 1024 (Zpos m) e loc_Exact) as [mrs' e'].
  injection Hstep as -> ->.
  destruct (binary_round_finish sx m2 e2 Hd2) as [(m' & e'' & Hfin & He)|Hfin].
  - left. exists m', e''. split; [exact Hfin | lia].
  - right. exact Hfin.
Qed.

(** The double of an integer other than 0 is finite with an exponent of -52
    at least, or infinite. *)
Lemma binary_round_integer (sx : bool) (p : positive) :
  (exists m e, binary_round Double.prec Double.emax sx p 0 = S754_finite sx m e
               /\ -52 <= e)
  \/ binary_round Double.prec Double.emax sx p 0 = S754_infinity sx.
Proof.
  unfold binary_round.
  set (t := fexp Double.prec Double.emax (Zpos (digits2_pos p) + 0)).
  assert (Ht : t = Zpos (digits2_pos p) - 53).
  { unfold t, fexp, emin, Double.prec, Double.emax. lia. }
  destruct (shl_align p 0 t) as [mz ez] eqn:Hal.
  assert (Hmz : -52 <= ez /\ -1021 <= Zpos (digits2_pos mz) + ez).
  { unfold shl_align in Hal.
    destruct (t - 0) as [|k|k] eqn:Hk; injection Hal as Hm He; subst mz ez;
      rewrite ?digits2_pos_shl; lia. }
  destruct Hmz as [Hez Hd].
  destruct (binary_round_aux_pos sx mz ez Hd) as [(m' & e' & -> & He)| ->].
  - left. exists m', e'. split; [reflexivity | lia].
  - right. reflexivity.
Qed.

Lemma toQ_finite_nonzero (s : bool) (m : positive) (e : Z) :
  ~ Qeq (Double.toQ (S754_finite s m e)) 0.
Proof.
  unfold Double.toQ. destruct e as [|k|k].
  - unfold Qeq. cbn [Qnum Qden inject_Z]. destruct s; lia.
  - unfold Qeq. cbn [Qnum Qden inject_Z].
    assert (0 < 2 ^ Zpos k) by (apply Z.pow_pos_nonneg; lia). destruct s; nia.
  - rewrite Qred_correct. unfold Qeq. cbn [Qnum Qden]. destruct s; lia.
Qed.

Lemma toQ_infinity_nonzero (s : bool) : ~ Qeq (Double.toQ (S754_infinity s)) 0.
Proof.
  unfold Double.toQ, Qeq, Double.emax. cbn [Qnum Qden inject_Z].
  assert (0 < 2 ^ 1024) by (apply Z.pow_pos_nonneg; lia). destruct s; lia.
Qed.

(** The product with [Math.pow(10, -8)] of an integer other than 0 is not 0:
    it neither underflows nor is it NaN. *)
Lemma inFCT_nonzero (n : Z) : n <> 0 -> ~ Qeq (inFCT n) 0.
Proof.
  intro Hn. unfold inFCT, Double.ofInteger, binary_normalize.
  assert (H : forall sx p,
             ~ Qeq (Double.toQ
                      (Double.mul (binary_round Double.prec Double.emax sx p 0)
                         Double.tenToMinus8)) 0).
  { intros sx p.
    destruct (binary_round_integer sx p) as [(m & e & -> & He)| ->].
    - unfold Double.mul, Double.tenToMinus8, SFmul.
      destruct (binary_round_aux_pos (xorb sx false) (m * 6044629098073146) (e + -79))
        as [(m' & e' & -> & _)| ->].
      + pose proof (Pos2Z.is_pos (digits2_pos (m * 6044629098073146))). lia.
      + apply toQ_finite_nonzero.
      + apply toQ_infinity_nonzero.
    - apply toQ_infinity_nonzero. }
  destruct n as [|p|p]; [contradiction | apply H | apply H].
Qed.

(** The product is a number: no integer gives NaN. *)
Lemma scaled_integer_is_a_number (n : Z) :
  Double.mul (Double.ofInteger n) Double.tenToMinus8 <> S754_nan.
Proof.
  assert (H : forall sx p,
             Double.mul (binary_round Double.prec Double.emax sx p 0) Double.tenToMinus8
             <> S754_nan).
  { intros sx p.
    destruct (binary_round_integer sx p) as [(m & e & -> & He)| ->].
    - unfold Double.mul, Double.tenToMinus8, SFmul.
      destruct (binary_round_aux_pos (xorb sx false) (m * 6044629098073146) (e + -79))
        as [(m' & e' & -> & _)| ->].
      + pose proof (Pos2Z.is_pos (digits2_pos (m * 6044629098073146))). lia.
      + discriminate.
      + discriminate.
    - discriminate. }
  destruct n as [|p|p]; [discriminate | apply H | apply H].
Qed.

Lemma inFCT_zero (n : Z) : Qeq_bool (inFCT n) 0 = true <-> n = 0.
Proof.
  split.
  - intro H. destruct (Z.eq_dec n 0) as [E|N]; [exact E|].
    exfalso. apply (inFCT_nonzero n N). apply Qeq_bool_iff. exact H.
  - intros ->. reflexivity.
Qed.

Lemma digits2_pos_size (p : positive) : digits2_pos p = Pos.size p.
Proof. induction p as [p IH|p IH|]; simpl; congruence. Qed.

Lemma digits2_pos_bounds (p : positive) :
  2 ^ (Zpos (digits2_pos p) - 1) <= Zpos p < 2 ^ Zpos (digits2_pos p).
Proof.
  rewrite digits2_pos_size.
  pose proof (Pos.size_gt p) as Hgt. pose proof (Pos.size_le p) as Hle.
  apply Pos2Z.pos_lt_pos in Hgt. apply Pos2Z.pos_le_pos in Hle.
  rewrite Pos2Z.inj_pow in Hgt, Hle.
  replace (Zpos (Pos.size p)) with (Z.succ (Zpos (Pos.size p) - 1)) in Hle at 1 by lia.
  rewrite Z.pow_succ_r in Hle by lia.
  change (Zpos p~0) with (2 * Zpos p) in Hle. lia.
Qed.

(** The mantissa, the round bit and the sticky bit after [j] shifts. *)
Lemma shr_iter_value (m : positive) (j : nat) :
  exists t,
    0 <= shr_m (Nat.iter j shr_1 (Build_shr_record (Zpos m) false false))
    /\ 2 * Zpos m
       = shr_m (Nat.iter j shr_1 (Build_shr_record (Zpos m) false false))
         * (2 * 2 ^ Z.of_nat j)
         + Z.b2z (shr_r (Nat.iter j shr_1 (Build_shr_record (Zpos m) false false)))
           * 2 ^ Z.of_nat j
         + t
    /\ 0 <= t < 2 ^ Z.of_nat j
    /\ (shr_s (Nat.iter j shr_1 (Build_shr_record (Zpos m) false false)) = false
        <-> t = 0).
Proof.
  induction j as [|j IH].
  - exists 0. simpl. repeat split; lia.
  - rewrite Nat2Z.inj_succ, Z.pow_succ_r by lia.
    rewrite !Nat.iter_succ.
    destruct (Nat.iter j shr_1 (Build_shr_record (Zpos m) false false)) as [q r s].
    destruct IH as (t & Hq & Hm & Ht & Hs). cbn [shr_m shr_r shr_s] in *.
    set (P := 2 ^ Z.of_nat j) in *.
    exists (Z.b2z r * P + t).
    assert (Hsticky : (r || s)%bool = false <-> Z.b2z r * P + t = 0).
    { destruct r, s; cbn [orb Z.b2z]; split; intro H; try discriminate;
        try reflexivity; try lia.
      all: try (exfalso; assert (Ht0 : t = 0) by lia; apply Hs in Ht0; discriminate).
      all: try (assert (Ht0 : t = 0) by (apply Hs; reflexivity); lia). }
    destruct q as [|[p|p|]|p]; cbn [shr_1 shr_m shr_r shr_s Z.b2z]; try lia.
    all: (split; [lia|]).
    all:  (split; [destruct r; cbn [Z.b2z] in *; lia|]);
      (split; [destruct r; cbn [Z.b2z] in *; lia | exact Hsticky]).
Qed.

(** [shr_fexp] above the subnormal range: a mantissa of more than 53 bits
    loses the bits beyond the 53rd. *)
Lemma shr_fexp_normal (m : positive) (e : Z) :
  -1021 <= Zpos (digits2_pos m) + e ->
  shr_fexp 53 1024 (Zpos m) e loc_Exact
  = if Zpos (digits2_pos m) <=? 53
    then (Build_shr_record (Zpos m) false false, e)
    else (Nat.iter (Z.to_nat (Zpos (digits2_pos m) - 53)) shr_1
            (Build_shr_record (Zpos m) false false),
          e + (Zpos (digits2_pos m) - 53)).
Proof.
  intro Hd.
  unfold shr_fexp, shr, fexp, emin, Zdigits2, shr_record_of_loc.
  set (d := Zpos (digits2_pos m)) in *.
  assert (Hn : Z.max (d + e - 53) (3 - 1024 - 53) - e = d - 53) by lia.
  rewrite Hn.
  destruct (d - 53) as [|k|k] eqn:Hk.
  - destruct (Z.leb_spec d 53); [reflexivity | lia].
  - destruct (Z.leb_spec d 53); [lia|].
    rewrite iter_pos_nat. reflexivity.
  - destruct (Z.leb_spec d 53); [reflexivity | lia].
Qed.

(** Rounding to nearest within the range of the normal doubles: the result
    is finite, and the rounded mantissa, put back at the exponent of the
    exact one, is within 2^-53 of it, relatively. *)
Lemma binary_round_aux_normal (sx : bool) (m : positive) (e : Z) :
  -1021 <= Zpos (digits2_pos m) + e <= 1023 -> e <= 970 ->
  exists m' e',
    binary_round_aux Double.prec Double.emax sx (Zpos m) e loc_Exact
    = S754_finite sx m' e'
    /\ e <= e' <= e + Z.max (Zpos (digits2_pos m) - 53) 0 + 1
    /\ 2 ^ 53 * Z.abs (Zpos m' * 2 ^ (e' - e) - Zpos m) <= Zpos m.
Proof.
  intros [Hd Hup] He.
  unfold binary_round_aux, Double.prec, Double.emax.
  rewrite (shr_fexp_normal m e Hd).
  pose proof (digits2_pos_bounds m) as Hm.
  destruct (Z.leb_spec (Zpos (digits2_pos m)) 53) as [Hle|Hgt].
  - cbn [shr_m loc_of_shr_record round_nearest_even].
    rewrite (shr_fexp_normal m e Hd).
    destruct (Z.leb_spec (Zpos (digits2_pos m)) 53) as [_|]; [|lia].
    cbn [shr_m]. destruct (Z.leb_spec e (1024 - 53)); [|lia].
    exists m, e. split; [reflexivity|].
    rewrite Z.sub_diag. simpl (2 ^ 0). split; [lia|].
    replace (Zpos m * 1 - Zpos m) with 0 by lia. simpl Z.abs. lia.
  - set (k := Zpos (digits2_pos m) - 53) in *.
    destruct (shr_iter_digits (Z.to_nat k) m false false) as (q & r & s & Hit & Hdig).
    { rewrite Z2Nat.id; lia. }
    rewrite Z2Nat.id in Hdig by lia.
    destruct (shr_iter_value m (Z.to_nat k)) as (t & _ & Hval & Ht & Hs).
    rewrite Hit in *. cbn [shr_m shr_r shr_s] in *.
    rewrite Z2Nat.id in * by lia.
    set (P := 2 ^ k) in *.
    assert (HP : 0 < P) by (apply Z.pow_pos_nonneg; lia).
    assert (Hmlow : 2 ^ 52 * P <= Zpos m).
    { unfold P. rewrite <- Z.pow_add_r by lia.
      replace (52 + k) with (Zpos (digits2_pos m) - 1) by lia. lia. }
    pose proof (digits2_pos_bounds q) as Hq.
    replace (Zpos (digits2_pos q)) with 53 in Hq by lia.
    destruct (round_nearest_even_pos q (loc_of_shr_record (Build_shr_record (Zpos q) r s)))
      as (m1 & Hr & Hd1).
    assert (Hm1 : Z.abs (2 * Zpos m - Zpos m1 * (2 * P)) <= P /\ Zpos m1 <= 2 ^ 53).
    { rewrite <- Hr.
      destruct r, s; cbn [loc_of_shr_record round_nearest_even Z.b2z] in *.
      - lia.
      - assert (t = 0) by (apply Hs; reflexivity).
        destruct (Z.even (Zpos q)); lia.
      - assert (t <> 0) by (intro E; apply Hs in E; discriminate). lia.
      - lia. }
    destruct Hm1 as [Herr Hm1].
    rewrite Hr.
    assert (Hd1' : -1021 <= Zpos (digits2_pos m1) + (e + k)) by lia.
    rewrite (shr_fexp_normal m1 (e + k) Hd1').
    destruct (Z.leb_spec (Zpos (digits2_pos m1)) 53) as [Hle1|Hgt1].
    + cbn [shr_m]. destruct (Z.leb_spec (e + k) (1024 - 53)); [|lia].
      exists m1, (e + k). split; [reflexivity|].
      replace (e + k - e) with k by lia. fold P.
      split; [lia|]. lia.
    + assert (Hm1eq : Zpos m1 = 2 ^ 53).
      { pose proof (digits2_pos_bounds m1) as Hb.
        replace (Zpos (digits2_pos m1) - 1) with 53 in Hb by lia. lia. }
      replace (Zpos (digits2_pos m1) - 53) with 1 by lia.
      assert (Hm1pos : m1 = 9007199254740992%positive).
      { apply Pos2Z.inj. rewrite Hm1eq. reflexivity. }
      subst m1. cbn [Z.to_nat Pos.to_nat Pos.iter_op Nat.add Nat.iter nat_rect shr_1 shr_m].
      destruct (Z.leb_spec (e + k + 1) (1024 - 53)); [|lia].
      exists 4503599627370496%positive, (e + k + 1). split; [reflexivity|].
      replace (e + k + 1 - e) with (Z.succ k) by lia.
      rewrite Z.pow_succ_r by lia. fold P.
      split; [lia|]. lia.
Qed.

Lemma Pos_iter_xO (p k : positive) : Zpos (Pos.iter xO p k) = Zpos p * 2 ^ Zpos k.
Proof.
  induction k as [|k IH] using Pos.peano_ind.
  - simpl. lia.
  - rewrite Pos.iter_succ, Pos2Z.inj_succ, Z.pow_succ_r by lia.
    change (Zpos (Pos.iter xO p k)~0) with (2 * Zpos (Pos.iter xO p k)). lia.
Qed.

(** The double of an integer between 0 and 2^53 is that integer. *)
Lemma ofInteger_exact (n : Z) :
  0 < n < 2 ^ 53 ->
  exists m e,
    Double.ofInteger n = S754_finite false m e
    /\ -52 <= e <= 0
    /\ Zpos (digits2_pos m) <= 53
    /\ Zpos m = n * 2 ^ (- e).
Proof.
  intros [Hpos Hlt]. destruct n as [|p|p]; try lia.
  pose proof (digits2_pos_bounds p) as Hb.
  assert (Hd : Zpos (digits2_pos p) <= 53).
  { destruct (Z.le_gt_cases (Zpos (digits2_pos p)) 53) as [H|H]; [exact H|].
    assert (2 ^ 53 <= 2 ^ (Zpos (digits2_pos p) - 1)) by (apply Z.pow_le_mono_r; lia).
    lia. }
  unfold Double.ofInteger, binary_normalize, binary_round.
  set (t := fexp Double.prec Double.emax (Zpos (digits2_pos p) + 0)).
  assert (Ht : t = Zpos (digits2_pos p) - 53).
  { unfold t, fexp, emin, Double.prec, Double.emax. lia. }
  destruct (shl_align p 0 t) as [mz ez] eqn:Hal.
  assert (Hmz : -52 <= ez <= 0 /\ Zpos (digits2_pos mz) <= 53
                /\ Zpos mz = Zpos p * 2 ^ (- ez)).
  { unfold shl_align in Hal.
    destruct (t - 0) as [|k|k] eqn:Hk; injection Hal as Hm He; subst mz ez.
    - split; [lia|]. split; [lia|]. simpl (2 ^ (- 0)). lia.
    - lia.
    - rewrite digits2_pos_shl, Pos_iter_xO.
      replace (- t) with (Zpos k) by lia. split; [lia|]. split; [lia | reflexivity]. }
  destruct Hmz as (Hez & Hdz & Hval).
  assert (Hdn : -1021 <= Zpos (digits2_pos mz) + ez).
  { pose proof (Pos2Z.is_pos (digits2_pos mz)). lia. }
  unfold binary_round_aux, Double.prec, Double.emax.
  rewrite (shr_fexp_normal mz ez Hdn).
  destruct (Z.leb_spec (Zpos (digits2_pos mz)) 53) as [_|]; [|lia].
  cbn [shr_m loc_of_shr_record round_nearest_even].
  rewrite (shr_fexp_normal mz ez Hdn).
  destruct (Z.leb_spec (Zpos (digits2_pos mz)) 53) as [_|]; [|lia].
  cbn [shr_m]. destruct (Z.leb_spec ez (1024 - 53)); [|lia].
  exists mz, ez. split; [reflexivity|]. split; [lia|]. split; [lia | exact Hval].
Qed.

Lemma digits2_pos_mul (a b : positive) :
  Zpos (digits2_pos (a * b)) <= Zpos (digits2_pos a) + Zpos (digits2_pos b).
Proof.
  pose proof (digits2_pos_bounds a) as Ha. pose proof (digits2_pos_bounds b) as Hb.
  pose proof (digits2_pos_bounds (a * b)) as Hab.
  rewrite Pos2Z.inj_mul in Hab.
  destruct (Z.le_gt_cases (Zpos (digits2_pos (a * b)))
              (Zpos (digits2_pos a) + Zpos (digits2_pos b))) as [H|H]; [exact H|].
  exfalso.
  assert (H1 : 2 ^ (Zpos (digits2_pos a) + Zpos (digits2_pos b))
               <= 2 ^ (Zpos (digits2_pos (a * b)) - 1)) by (apply Z.pow_le_mono_r; lia).
  rewrite Z.pow_add_r in H1 by lia.
  assert (Zpos a * Zpos b < 2 ^ Zpos (digits2_pos a) * 2 ^ Zpos (digits2_pos b)).
  { apply Z.mul_lt_mono_nonneg; lia. }
  lia.
Qed.

(** The accuracy of the conversion: for a total between 0 and 2^53
    factoshis, the double differs from total / 10^8 by 2^-52 of it at most. *)
Lemma inFCT_accuracy (n : Z) :
  0 <= n < 2 ^ 53 ->
  (Qabs (inFCT n - inject_Z n / 100000000)
   <= inject_Z n / 100000000 * (1 # 4503599627370496))%Q.
Proof.
  intros [Hn0 Hn].
  destruct (Z.eq_dec n 0) as [->|Hne].
  { vm_compute. discriminate. }
  destruct (ofInteger_exact n) as (m0 & e0 & Hof & He0 & Hd0 & Hval); [lia|].
  unfold inFCT. rewrite Hof.
  unfold Double.mul, Double.tenToMinus8, SFmul. cbn [xorb].
  pose proof (digits2_pos_mul m0 6044629098073146) as Hdm.
  change (Zpos (digits2_pos 6044629098073146)) with 53 in Hdm.
  destruct (binary_round_aux_normal false (m0 * 6044629098073146) (e0 + -79))
    as (m' & e' & -> & He' & Herr).
  { pose proof (Pos2Z.is_pos (digits2_pos (m0 * 6044629098073146))). lia. }
  { lia. }
  rewrite Pos2Z.inj_mul in Herr.
  destruct e' as [|k'|k']; try lia.
  unfold Double.toQ. rewrite Qred_correct.
  apply Qabs_Qle_condition.
  unfold Qle, Qminus, Qplus, Qopp, Qdiv, Qmult, Qinv, inject_Z. cbn [Qnum Qden].
  rewrite !Pos2Z.inj_mul, Pos2Z.inj_pow.
  set (a := 2 ^ (Zneg k' - (e0 + -79))) in *.
  set (b := 2 ^ Zpos k').
  assert (Ha : 0 < a) by (apply Z.pow_pos_nonneg; lia).
  assert (Hb : 0 < b) by (apply Z.pow_pos_nonneg; lia).
  assert (Hab : a * b = 2 ^ 79 * 2 ^ (- e0)).
  { unfold a, b. rewrite <- !Z.pow_add_r by lia. f_equal. lia. }
  assert (Hnba : n * b * a = Zpos m0 * 2 ^ 79).
  { replace (n * b * a) with (n * (a * b)) by ring. rewrite Hab, Hval. ring. }
  assert (K : 2 ^ 52 * Z.abs (Zpos m' * a * 100000000 - Zpos m0 * 2 ^ 79)
              <= Zpos m0 * 2 ^ 79) by lia.
  assert (G : 2 ^ 52 * Z.abs (Zpos m' * 100000000 - n * b) <= n * b).
  { apply (Z.mul_le_mono_pos_r _ _ a); [lia|].
    rewrite <- Z.mul_assoc. rewrite <- (Z.abs_eq a) at 1 by lia.
    rewrite <- Z.abs_mul.
    replace ((Zpos m' * 100000000 - n * b) * a)
      with (Zpos m' * a * 100000000 - n * b * a) by ring.
    rewrite Hnba. exact K. }
  lia.
Qed.

(** ** The received amount *)

Lemma fold_left_amounts (l : list TransactionAddress.t) (acc : Z) :
  fold_left (fun total current => total + TransactionAddress.amount current) l acc
  = acc + fold_left (fun total current => total + TransactionAddress.amount current) l 0.
Proof.
  revert acc. induction l as [|o l IH]; intro acc; simpl.
  - lia.
  - rewrite IH. rewrite (IH (TransactionAddress.amount o)). lia.
Qed.

Lemma filtered_sum_matchingTotal (address : string) (l : list TransactionAddress.t) :
  fold_left (fun total current => total + TransactionAddress.amount current)
    (filter (fun outputs => String.eqb (TransactionAddress.address outputs) address) l) 0
  = matchingTotal address l.
Proof.
  induction l as [|o l IH]; simpl; [reflexivity|].
  destruct (string_dec (TransactionAddress.address o) address) as [E|N].
  - apply String.eqb_eq in E. rewrite E. simpl.
    rewrite fold_left_amounts, IH. reflexivity.
  - apply String.eqb_neq in N. rewrite N. rewrite IH. reflexivity.
Qed.

Lemma sumFCToutputs_matchingTotal (tx : Transaction.t) (address : string) :
  sumFCToutputs tx address
  = inFCT (matchingTotal address (Transaction.factoidOutputs tx)).
Proof.
  unfold sumFCToutputs, inFCT. rewrite filtered_sum_matchingTotal. reflexivity.
Qed.

Lemma sumFCToutputs_zero (tx : Transaction.t) (address : string) :
  Qeq_bool (sumFCToutputs tx address) 0 = true
  <-> matchingTotal address (Transaction.factoidOutputs tx) = 0.
Proof.
  rewrite sumFCToutputs_matchingTotal. apply inFCT_zero.
Qed.

Lemma matchingTotal_app (address : string) (l1 l2 : list TransactionAddress.t) :
  matchingTotal address (l1 ++ l2) = matchingTotal address l1 + matchingTotal address l2.
Proof.
  induction l1 as [|o l1 IH]; simpl; [reflexivity|]. rewrite IH. lia.
Qed.

Lemma matchingTotal_none (address : string) (l : list TransactionAddress.t) :
  (forall o, In o l -> TransactionAddress.address o <> address) ->
  matchingTotal address l = 0.
Proof.
  induction l as [|o l IH]; simpl; intro H; [reflexivity|].
  destruct (string_dec (TransactionAddress.address o) address) as [E|_].
  - exfalso. apply (H o); auto.
  - rewrite IH; auto.
Qed.

(** ** [saveNewTransaction], case by case *)

Lemma newEvents_app {DB DirectoryBlock} (w w' : World DB DirectoryBlock)
    (evs : list (Event DirectoryBlock)) :
  trace w' = (trace w ++ evs)%list -> newEvents w w' = evs.
Proof.
  intro H. unfold newEvents. rewrite H.
  rewrite skipn_app, skipn_all, Nat.sub_diag. reflexivity.
Qed.

Lemma newEvents_same {DB DirectoryBlock} (w : World DB DirectoryBlock) :
  newEvents w w = [].
Proof. apply newEvents_app. rewrite app_nil_r. reflexivity. Qed.

Section SaveNewTransaction.

Context {DB DirectoryBlock InsertResult : Type}.
Variable table : TransactionTable DB InsertResult.

Implicit Types (conf : AddressConfig.t) (tx : Transaction.t).
Implicit Types (w : World DB DirectoryBlock) (row : TransactionRow.t).

Lemma filter_guard conf tx :
  ((Transaction.totalInputs tx =? 0) && negb (AddressConfig.coinbase conf)
   || negb (Transaction.totalInputs tx =? 0) && negb (AddressConfig.nonCoinbase conf))
  = true
  <-> skippedByFilter conf tx.
Proof.
  unfold skippedByFilter.
  destruct (Z.eqb_spec (Transaction.totalInputs tx) 0) as [E|N];
    destruct (AddressConfig.coinbase conf), (AddressConfig.nonCoinbase conf);
    simpl; split; intro H; try reflexivity; try discriminate; auto;
    destruct H as [[H1 H2]|[H1 H2]]; try discriminate; contradiction.
Qed.

Lemma filter_guard_false conf tx :
  ((Transaction.totalInputs tx =? 0) && negb (AddressConfig.coinbase conf)
   || negb (Transaction.totalInputs tx =? 0) && negb (AddressConfig.nonCoinbase conf))
  = false
  <-> ~ skippedByFilter conf tx.
Proof.
  rewrite <- filter_guard. split.
  - intros H. rewrite H. discriminate.
  - intro H. apply not_true_is_false. exact H.
Qed.

(** A transaction that the filter skips leaves the world as it is. *)
Lemma saveNewTransaction_skipped conf tx w :
  skippedByFilter conf tx ->
  saveNewTransaction conf table tx w = (Normal None, w).
Proof.
  intro H. apply filter_guard in H. unfold saveNewTransaction.
  rewrite H. reflexivity.
Qed.

(** A received amount of zero leaves the world as it is. *)
Lemma saveNewTransaction_no_income conf tx w :
  Qeq_bool (sumFCToutputs tx (AddressConfig.address conf)) 0 = true ->
  saveNewTransaction conf table tx w = (Normal None, w).
Proof.
  intro H. unfold saveNewTransaction.
  destruct (_ || _); [reflexivity|]. rewrite H. reflexivity.
Qed.

(** A transaction that passes both tests is formatted and handed to the
    database; what happens then depends on the insertion. *)
Lemma saveNewTransaction_income conf tx w row :
  ~ skippedByFilter conf tx ->
  Qeq_bool (sumFCToutputs tx (AddressConfig.address conf)) 0 = false ->
  formatIncomeTransaction tx conf (sumFCToutputs tx (AddressConfig.address conf))
  = Normal row ->
  saveNewTransaction conf table tx w
  = match insertUncommittedTransaction table row (db w) with
    | (Normal r, d) =>
        (Normal (Some r),
         mkWorld d (trace w ++ [savingLine row; InsertCall row])%list)
    | (Throw e, d) =>
        (Exit 1,
         mkWorld d (trace w ++ [savingLine row; InsertCall row; saveFailedLine e])%list)
    | (Exit c, d) =>
        (Exit c, mkWorld d (trace w ++ [savingLine row; InsertCall row])%list)
    end.
Proof.
  intros Hf Hz Hrow. apply filter_guard_false in Hf.
  unfold saveNewTransaction. rewrite Hf, Hz.
  unfold bind at 1, lift at 1. rewrite Hrow.
  unfold try_catch, bind, logger, emit, onDb, ret, process_exit, savingLine,
    saveFailedLine; simpl.
  destruct (insertUncommittedTransaction table row (db w)) as [[r|e|c] d]; simpl;
    rewrite <- ?app_assoc; reflexivity.
Qed.

(** A timestamp outside the range of [Date] makes [toISOString] throw
    before the [try]: the exception leaves [saveNewTransaction]. *)
Lemma saveNewTransaction_invalid_date conf tx w e :
  ~ skippedByFilter conf tx ->
  Qeq_bool (sumFCToutputs tx (AddressConfig.address conf)) 0 = false ->
  formatIncomeTransaction tx conf (sumFCToutputs tx (AddressConfig.address conf))
  = Throw e ->
  saveNewTransaction conf table tx w = (Throw e, w).
Proof.
  intros Hf Hz Hrow. apply filter_guard_false in Hf.
  unfold saveNewTransaction. rewrite Hf, Hz.
  unfold bind at 1, lift at 1. rewrite Hrow. reflexivity.
Qed.

Lemma formatIncomeTransaction_not_exit tx conf received c :
  formatIncomeTransaction tx conf received <> Exit c.
Proof.
  unfold formatIncomeTransaction, toISOString.
  destruct (maxTimeValue <? _); [discriminate|].
  destruct (civilFromDays _) as [[y m] d]. discriminate.
Qed.

(** The fields of a formatted row. *)
Lemma formatIncomeTransaction_fields tx conf received row :
  formatIncomeTransaction tx conf received = Normal row ->
  TransactionRow.address row = AddressConfig.address conf
  /\ TransactionRow.timestamp row
     = toInteger (inject_Z (Transaction.timestamp tx) / 1000)
  /\ toISOString (Transaction.timestamp tx) = Normal (TransactionRow.date row)
  /\ TransactionRow.txhash row = Transaction.id tx
  /\ TransactionRow.height row
     = BlockContext.directoryBlockHeight (Transaction.blockContext tx)
  /\ TransactionRow.symbol row = "FCT"
  /\ TransactionRow.currency row = AddressConfig.currency conf
  /\ TransactionRow.receivedFCT row = received.
Proof.
  unfold formatIncomeTransaction.
  destruct (toISOString (Transaction.timestamp tx)) as [date|e|c]; try discriminate.
  intro H. injection H as <-. simpl. repeat split; reflexivity.
Qed.

(** The events that one call adds, in every case: nothing, or the debug line
    and the insertion of one row, then the error line when the insertion
    throws. *)
Lemma saveNewTransaction_events conf tx w :
  let w' := snd (saveNewTransaction conf table tx w) in
  newEvents w w' = []
  \/ exists row,
       formatIncomeTransaction tx conf (sumFCToutputs tx (AddressConfig.address conf))
       = Normal row
       /\ ~ skippedByFilter conf tx
       /\ Qeq_bool (sumFCToutputs tx (AddressConfig.address conf)) 0 = false
       /\ (newEvents w w' = [savingLine row; InsertCall row]
           \/ exists e, newEvents w w' = [savingLine row; InsertCall row; saveFailedLine e]).
Proof.
  intro w'. subst w'.
  destruct (((Transaction.totalInputs tx =? 0) && negb (AddressConfig.coinbase conf)
   || negb (Transaction.totalInputs tx =? 0) && negb (AddressConfig.nonCoinbase conf)))
    eqn:Hf.
  - left. apply filter_guard in Hf.
    rewrite saveNewTransaction_skipped by assumption. apply newEvents_same.
  - apply filter_guard_false in Hf.
    destruct (Qeq_bool (sumFCToutputs tx (AddressConfig.address conf)) 0) eqn:Hz.
    + left. rewrite saveNewTransaction_no_income by assumption. apply newEvents_same.
    + destruct (formatIncomeTransaction tx conf
                  (sumFCToutputs tx (AddressConfig.address conf))) as [row|e|c] eqn:Hrow.
      * right. exists row. repeat split; try assumption.
        rewrite (saveNewTransaction_income conf tx w row) by assumption.
        destruct (insertUncommittedTransaction table row (db w)) as [[r|e|c] d]; simpl.
        -- left. apply newEvents_app. reflexivity.
        -- right. exists e. apply newEvents_app. reflexivity.
        -- left. apply newEvents_app. reflexivity.
      * left. rewrite (saveNewTransaction_invalid_date conf tx w e) by assumption.
        apply newEvents_same.
      * exfalso. exact (formatIncomeTransaction_not_exit _ _ _ _ Hrow).
Qed.

(** A transaction that passes both tests puts exactly one row in front of
    the database. *)
Lemma saveNewTransaction_one_row conf tx w row :
  ~ skippedByFilter conf tx ->
  ~ Qeq (sumFCToutputs tx (AddressConfig.address conf)) 0 ->
  formatIncomeTransaction tx conf (sumFCToutputs tx (AddressConfig.address conf))
  = Normal row ->
  insertedRows (newEvents w (snd (saveNewTransaction conf table tx w))) = [row].
Proof.
  intros Hf Hnz Hrow.
  assert (Hz : Qeq_bool (sumFCToutputs tx (AddressConfig.address conf)) 0 = false).
  { apply not_true_is_false. intro H. apply Hnz. apply Qeq_bool_iff. exact H. }
  rewrite (saveNewTransaction_income conf tx w row Hf Hz Hrow).
  destruct (insertUncommittedTransaction table row (db w)) as [[r|e|c] d];
    simpl; erewrite newEvents_app by reflexivity; reflexivity.
Qed.

End SaveNewTransaction.

(** ** The date and the timestamp of a record *)

Lemma append_assoc (a b c : string) : (a ++ b) ++ c = a ++ (b ++ c).
Proof. induction a as [|ch a IH]; simpl; [reflexivity|]. rewrite IH. reflexivity. Qed.

(** Rounding a time value down to the second keeps the day and the hour,
    minute and second of the day. *)
Lemma same_second_parts (t : Z) :
  let T := 1000 * (t / 1000) in
  T / msPerDay = t / msPerDay
  /\ T mod msPerDay / 3600000 = t mod msPerDay / 3600000
  /\ T mod msPerDay / 60000 mod 60 = t mod msPerDay / 60000 mod 60
  /\ T mod msPerDay / 1000 mod 60 = t mod msPerDay / 1000 mod 60
  /\ T mod msPerDay mod 1000 = 0
  /\ t mod msPerDay mod 1000 = t mod 1000.
Proof.
  intro T. subst T. unfold msPerDay.
  repeat split; Z.div_mod_to_equations; lia.
Qed.

(** The ISO string of a time value and the ISO string of the same value
    rounded down to the second differ in the milliseconds only. *)
Lemma toISOString_same_second (t : Z) (date : string) :
  toISOString t = Normal date ->
  exists seconds,
    date = seconds ++ "." ++ padDigits 3 (t mod 1000) "" ++ "Z"
    /\ toISOString (1000 * (t / 1000)) = Normal (seconds ++ ".000Z").
Proof.
  unfold toISOString.
  destruct (Z.ltb_spec maxTimeValue (Z.abs t)) as [|Hrange]; [discriminate|].
  destruct (Z.ltb_spec maxTimeValue (Z.abs (1000 * (t / 1000)))) as [Hout|_].
  { exfalso. unfold maxTimeValue in *. Z.div_mod_to_equations. lia. }
  destruct (same_second_parts t) as (Hd & Hh & Hm & Hs & Hms0 & Hms).
  cbv zeta in *. rewrite Hd, Hh, Hm, Hs, Hms0, Hms.
  destruct (civilFromDays (t / msPerDay)) as [[y m] d].
  intro H. injection H as <-.
  exists (yearToString y ++ "-" ++ padDigits 2 m "" ++ "-" ++ padDigits 2 d ""
          ++ "T" ++ padDigits 2 (t mod msPerDay / 3600000) ""
          ++ ":" ++ padDigits 2 (t mod msPerDay / 60000 mod 60) ""
          ++ ":" ++ padDigits 2 (t mod msPerDay / 1000 mod 60) "").
  split; repeat (rewrite !append_assoc; simpl); reflexivity.
Qed.

(** ** The fields of a record *)

Lemma toInteger_seconds (ms : Z) :
  toInteger (inject_Z ms / 1000) = ms / 1000.
Proof.
  unfold toInteger, Qfloor, Qdiv, Qmult, Qinv, inject_Z; simpl.
  rewrite Z.mul_1_r. reflexivity.
Qed.

Lemma formatIncomeTransaction_valid (tx : Transaction.t) (conf : AddressConfig.t)
    (received : Q) :
  Z.abs (Transaction.timestamp tx) <= maxTimeValue ->
  exists row, formatIncomeTransaction tx conf received = Normal row.
Proof.
  intro H. unfold formatIncomeTransaction, toISOString.
  destruct (Z.ltb_spec maxTimeValue (Z.abs (Transaction.timestamp tx))) as [L|_];
    [lia|].
  destruct (civilFromDays _) as [[y m] d]. eexists. reflexivity.
Qed.

(** ** The classifier: claims C2 to C5 *)

Section Classification.

Context {DB DirectoryBlock InsertResult : Type}.
Variable table : TransactionTable DB InsertResult.

Implicit Types (conf : AddressConfig.t) (tx : Transaction.t).
Implicit Types (w : World DB DirectoryBlock) (row : TransactionRow.t).

(** C2: a transaction counts as coinbase exactly when [totalInputs] is 0 (this
    is how [skippedByFilter] reads it); [saveNewTransaction] produces no record
    and changes nothing when the transaction is coinbase and the address does
    not accept coinbase, or is not coinbase and the address does not accept
    non-coinbase; a transaction that passes goes on to the amount: with a
    received amount of zero nothing is produced, otherwise exactly one row,
    carrying [sumFCToutputs], is handed to the database. *)
Theorem saveNewTransaction_classification conf tx w :
  (skippedByFilter conf tx ->
   saveNewTransaction conf table tx w = (Normal None, w))
  /\ (~ skippedByFilter conf tx ->
      let received := sumFCToutputs tx (AddressConfig.address conf) in
      let w' := snd (saveNewTransaction conf table tx w) in
      (Qeq received 0 -> saveNewTransaction conf table tx w = (Normal None, w))
      /\ (~ Qeq received 0 ->
          forall row, formatIncomeTransaction tx conf received = Normal row ->
          insertedRows (newEvents w w') = [row]
          /\ TransactionRow.receivedFCT row = received)).
Proof.
  split.
  - apply saveNewTransaction_skipped.
  - intros Hf received w'. split.
    + intro Hz. apply saveNewTransaction_no_income.
      apply Qeq_bool_iff. exact Hz.
    + intros Hnz row Hrow. split.
      * subst w'. apply saveNewTransaction_one_row; assumption.
      * apply formatIncomeTransaction_fields in Hrow. apply Hrow.
Qed.

(** C3, amended: the received amount is the sum of the amounts of exactly the
    outputs whose address equals the configured address, multiplied by
    [Math.pow(10, -8)] in double precision: the binary64 product of that sum
    and the double nearest to 10^-8, which in general is not the decimal
    fraction sum / 10^8.  A transaction with two outputs to the configured
    address (and any number of outputs to other addresses) that passes the
    filter, with a valid timestamp and a sum other than 0, yields one row,
    whose [receivedFCT] is this product for the sum of the two amounts. *)
Theorem sumFCToutputs_aggregates conf tx w :
  sumFCToutputs tx (AddressConfig.address conf)
  = inFCT (matchingTotal (AddressConfig.address conf) (Transaction.factoidOutputs tx))
  /\ forall o1 o2 l1 l2 l3,
       Transaction.factoidOutputs tx = (l1 ++ o1 :: l2 ++ o2 :: l3)%list ->
       TransactionAddress.address o1 = AddressConfig.address conf ->
       TransactionAddress.address o2 = AddressConfig.address conf ->
       (forall o, In o (l1 ++ l2 ++ l3)%list ->
                  TransactionAddress.address o <> AddressConfig.address conf) ->
       ~ skippedByFilter conf tx ->
       TransactionAddress.amount o1 + TransactionAddress.amount o2 <> 0 ->
       Z.abs (Transaction.timestamp tx) <= maxTimeValue ->
       exists row,
         insertedRows (newEvents w (snd (saveNewTransaction conf table tx w))) = [row]
         /\ TransactionRow.receivedFCT row
            = inFCT (TransactionAddress.amount o1 + TransactionAddress.amount o2).
Proof.
  split.
  - apply sumFCToutputs_matchingTotal.
  - intros o1 o2 l1 l2 l3 Hout H1 H2 Hother Hf Hnz Hts.
    assert (Htotal : matchingTotal (AddressConfig.address conf)
                       (Transaction.factoidOutputs tx)
                     = TransactionAddress.amount o1 + TransactionAddress.amount o2).
    { rewrite Hout. rewrite matchingTotal_app. simpl.
      rewrite matchingTotal_app. simpl.
      destruct (string_dec (TransactionAddress.address o1) (AddressConfig.address conf));
        [|contradiction].
      destruct (string_dec (TransactionAddress.address o2) (AddressConfig.address conf));
        [|contradiction].
      rewrite (matchingTotal_none _ l1), (matchingTotal_none _ l2),
        (matchingTotal_none _ l3); [lia| | |];
        intros o Ho; apply Hother; rewrite !in_app_iff; auto. }
    destruct (formatIncomeTransaction_valid tx conf
                (sumFCToutputs tx (AddressConfig.address conf)) Hts) as [row Hrow].
    assert (Hz : ~ Qeq (sumFCToutputs tx (AddressConfig.address conf)) 0).
    { intro H. apply Qeq_bool_iff, sumFCToutputs_zero in H. lia. }
    exists row. split; [apply saveNewTransaction_one_row; assumption|].
    apply formatIncomeTransaction_fields in Hrow.
    destruct Hrow as (_ & _ & _ & _ & _ & _ & _ & Hrec).
    rewrite Hrec, sumFCToutputs_matchingTotal, Htotal. reflexivity.
Qed.

(** C4: when the received amount is 0, and so in particular when no output of
    the transaction goes to the configured address, [saveNewTransaction]
    produces no record: it returns and leaves the world as it is. *)
Theorem saveNewTransaction_zero_receipt conf tx w :
  (Qeq (sumFCToutputs tx (AddressConfig.address conf)) 0 ->
   saveNewTransaction conf table tx w = (Normal None, w))
  /\ ((forall o, In o (Transaction.factoidOutputs tx) ->
                 TransactionAddress.address o <> AddressConfig.address conf) ->
      Qeq (sumFCToutputs tx (AddressConfig.address conf)) 0
      /\ saveNewTransaction conf table tx w = (Normal None, w)).
Proof.
  assert (H0 : Qeq (sumFCToutputs tx (AddressConfig.address conf)) 0 ->
               saveNewTransaction conf table tx w = (Normal None, w)).
  { intro Hz. apply saveNewTransaction_no_income. apply Qeq_bool_iff. exact Hz. }
  split; [exact H0|].
  intro Hnone.
  assert (Hz : Qeq (sumFCToutputs tx (AddressConfig.address conf)) 0).
  { apply Qeq_bool_iff, sumFCToutputs_zero. apply matchingTotal_none. exact Hnone. }
  split; [exact Hz | exact (H0 Hz)].
Qed.

(** C5: every row that [saveNewTransaction] hands to the database has
    [timestamp] equal to the floor of [tx.timestamp / 1000], [date] equal to
    the ISO string of the same [tx.timestamp] (so the date and the timestamp
    of the row name the same second), [height] equal to the height of the
    directory block of the transaction, [symbol] equal to FCT and the currency
    of the address configuration (and the address, the transaction id and the
    received amount of the pair). *)
Theorem saved_row_fields conf tx w row :
  In row (insertedRows (newEvents w (snd (saveNewTransaction conf table tx w)))) ->
  TransactionRow.timestamp row = Transaction.timestamp tx / 1000
  /\ 1000 * TransactionRow.timestamp row <= Transaction.timestamp tx
     < 1000 * TransactionRow.timestamp row + 1000
  /\ toISOString (Transaction.timestamp tx) = Normal (TransactionRow.date row)
  /\ (exists seconds,
        TransactionRow.date row
        = seconds ++ "." ++ padDigits 3 (Transaction.timestamp tx mod 1000) "" ++ "Z"
        /\ toISOString (1000 * TransactionRow.timestamp row)
           = Normal (seconds ++ ".000Z"))
  /\ TransactionRow.height row
     = BlockContext.directoryBlockHeight (Transaction.blockContext tx)
  /\ TransactionRow.symbol row = "FCT"
  /\ TransactionRow.currency row = AddressConfig.currency conf
  /\ TransactionRow.address row = AddressConfig.address conf
  /\ TransactionRow.txhash row = Transaction.id tx
  /\ TransactionRow.receivedFCT row = sumFCToutputs tx (AddressConfig.address conf).
Proof.
  intro Hin.
  assert (Hrow : formatIncomeTransaction tx conf
                   (sumFCToutputs tx (AddressConfig.address conf)) = Normal row).
  { destruct (saveNewTransaction_events table conf tx w) as [E|[row' [Hrow' [_ [_ E]]]]].
    - rewrite E in Hin. destruct Hin.
    - destruct E as [E|[e E]]; rewrite E in Hin; simpl in Hin;
        destruct Hin as [<-|[]]; exact Hrow'. }
  apply formatIncomeTransaction_fields in Hrow.
  destruct Hrow as (Ha & Ht & Hd & Hx & Hh & Hs & Hc & Hr).
  rewrite toInteger_seconds in Ht.
  split; [exact Ht|]. split.
  { rewrite Ht. split; [apply Z.mul_div_le; lia|].
    pose proof (Z.mul_succ_div_gt (Transaction.timestamp tx) 1000). lia. }
  split; [exact Hd|]. split.
  { rewrite Ht. apply toISOString_same_second. exact Hd. }
  repeat split; assumption.
Qed.

End Classification.

(** ** Traces and height ranges *)

Section TraceFacts.

Context {DirectoryBlock : Type}.
Implicit Types a b : list (Event DirectoryBlock).

Lemma fetchedHeights_app a b :
  fetchedHeights (a ++ b) = (fetchedHeights a ++ fetchedHeights b)%list.
Proof.
  induction a as [|ev a IH]; simpl; [reflexivity|].
  destruct ev; simpl; rewrite IH; reflexivity.
Qed.

Lemma handledBlocks_app a b :
  handledBlocks (a ++ b) = (handledBlocks a ++ handledBlocks b)%list.
Proof.
  induction a as [|ev a IH]; simpl; [reflexivity|].
  destruct ev; simpl; rewrite IH; reflexivity.
Qed.

Lemma fetchedHeights_progressLine (i : Z) :
  fetchedHeights (@progressLine DirectoryBlock i) = [].
Proof. unfold progressLine. destruct (Z.rem i 1000 =? 0); reflexivity. Qed.

Lemma handledBlocks_progressLine (i : Z) :
  handledBlocks (@progressLine DirectoryBlock i) = [].
Proof. unfold progressLine. destruct (Z.rem i 1000 =? 0); reflexivity. Qed.

End TraceFacts.

Lemma heightRange_empty (lo hi : Z) : hi < lo -> heightRange lo hi = [].
Proof.
  intro H. unfold heightRange.
  replace (Z.to_nat (hi + 1 - lo)) with O by lia. reflexivity.
Qed.

Lemma heightRange_cons (lo hi : Z) :
  lo <= hi -> heightRange lo hi = lo :: heightRange (lo + 1) hi.
Proof.
  intro H. unfold heightRange.
  replace (Z.to_nat (hi + 1 - lo)) with (S (Z.to_nat (hi + 1 - (lo + 1)))) by lia.
  simpl. f_equal; [lia|].
  rewrite <- seq_shift, map_map. apply map_ext. intro k. lia.
Qed.

Lemma heightRange_In (lo hi i : Z) : In i (heightRange lo hi) <-> lo <= i <= hi.
Proof.
  unfold heightRange. rewrite in_map_iff. split.
  - intros [k [<- Hk]]. apply in_seq in Hk. lia.
  - intro H. exists (Z.to_nat (i - lo)). split; [lia|]. apply in_seq. lia.
Qed.

Lemma heightRange_snoc (lo hi : Z) :
  lo <= hi -> heightRange lo hi = (heightRange lo (hi - 1) ++ [hi])%list.
Proof.
  intro H. unfold heightRange.
  replace (Z.to_nat (hi + 1 - lo)) with (Z.to_nat (hi - 1 + 1 - lo) + 1)%nat by lia.
  rewrite seq_app, map_app. simpl. f_equal. f_equal. lia.
Qed.

(** The heights of a range come in increasing order, one by one. *)
Lemma heightRange_increasing (lo hi : Z) (k : nat) :
  (k < List.length (heightRange lo hi))%nat ->
  nth k (heightRange lo hi) 0 = lo + Z.of_nat k.
Proof.
  unfold heightRange. rewrite length_map, length_seq. intro H.
  rewrite (nth_indep _ 0 (lo + Z.of_nat 0)) by (rewrite length_map, length_seq; exact H).
  rewrite (map_nth (fun k => lo + Z.of_nat k)), seq_nth by exact H. reflexivity.
Qed.

Lemma heightRange_length (lo hi : Z) :
  List.length (heightRange lo hi) = Z.to_nat (hi + 1 - lo).
Proof. unfold heightRange. rewrite length_map, length_seq. reflexivity. Qed.

(** ** The loop of [emitNewTransactions] *)

Section Scan.

Context {DB DirectoryBlock : Type}.
Variable factom : Factom DB DirectoryBlock.
Variable blocks : Z -> DirectoryBlock.

Implicit Types (w : World DB DirectoryBlock) (i stop : Z).

Lemma world_eta w : mkWorld (db w) (trace w ++ [])%list = w.
Proof. destruct w; simpl. rewrite app_nil_r. reflexivity. Qed.

(** One iteration on a height that the ledger serves. *)
Lemma scanIteration_served i w :
  cli_getDirectoryBlock factom i = Normal (blocks i) ->
  fst (event_handleDirectoryBlock factom (blocks i) (db w)) = Normal tt ->
  scanIteration factom i w
  = (Normal tt,
     mkWorld (snd (event_handleDirectoryBlock factom (blocks i) (db w)))
       (trace w ++ progressLine i
        ++ [GetDirectoryBlockCall i; HandleDirectoryBlockCall (blocks i)])%list).
Proof.
  intros Hfetch Hhandle.
  unfold scanIteration, progressLine, bind, logger, emit, lift, onDb, ret.
  destruct (Z.rem i 1000 =? 0); simpl; rewrite Hfetch; simpl;
    destruct (event_handleDirectoryBlock factom (blocks i) (db w)) as [c d];
    simpl in *; subst c;
    rewrite <- ?app_assoc; reflexivity.
Qed.

(** One iteration on a height whose fetch throws: the handler is not
    called, the database is not touched. *)
Lemma scanIteration_fetch_throws i w e :
  cli_getDirectoryBlock factom i = Throw e ->
  scanIteration factom i w
  = (Throw e,
     mkWorld (db w) (trace w ++ progressLine i ++ [GetDirectoryBlockCall i])%list).
Proof.
  intro Hfetch.
  unfold scanIteration, progressLine, bind, logger, emit, lift, onDb, ret.
  destruct (Z.rem i 1000 =? 0); simpl; rewrite Hfetch; simpl;
    rewrite <- ?app_assoc; reflexivity.
Qed.

(** The loop is over once [i] has passed [stopHeight], whatever the fuel. *)
Lemma scanLoop_done fuel i stop w :
  stop < i -> scanLoop fuel factom i stop w = Some (Normal tt, w).
Proof.
  intro H. destruct fuel; simpl;
    destruct (Z.leb_spec i stop); try lia; reflexivity.
Qed.

(** [n] iterations on heights that the ledger serves. *)
Lemma scanLoop_prefix (n : nat) :
  forall fuel i stop w,
    (n <= fuel)%nat ->
    ((0 < n)%nat -> i + Z.of_nat n - 1 <= stop) ->
    servedOn factom blocks (heightRange i (i + Z.of_nat n - 1)) (db w) ->
    exists evs,
      scanLoop fuel factom i stop w
      = scanLoop (fuel - n) factom (i + Z.of_nat n) stop
          (mkWorld
             (dbAfter (event_handleDirectoryBlock factom) blocks
                (heightRange i (i + Z.of_nat n - 1)) (db w))
             (trace w ++ evs)%list)
      /\ fetchedHeights evs = heightRange i (i + Z.of_nat n - 1)
      /\ handledBlocks evs = map blocks (heightRange i (i + Z.of_nat n - 1)).
Proof.
  induction n as [|n IH]; intros fuel i stop w Hfuel Hstop Hserved.
  - exists []. rewrite heightRange_empty by lia. simpl.
    rewrite Nat.sub_0_r, Z.add_0_r. unfold dbAfter; simpl.
    rewrite world_eta. auto.
  - destruct fuel as [|fuel]; [lia|].
    replace (i + Z.of_nat (S n) - 1) with (i + 1 + Z.of_nat n - 1) in * by lia.
    rewrite (heightRange_cons i) in Hserved by lia.
    destruct Hserved as [Hfetch [Hhandle Hrest]].
    specialize (IH fuel (i + 1) stop
                  (mkWorld (snd (event_handleDirectoryBlock factom (blocks i) (db w)))
                     (trace w ++ progressLine i
                      ++ [GetDirectoryBlockCall i;
                          HandleDirectoryBlockCall (blocks i)])%list)).
    destruct IH as [evs [Heq [Hf Hh]]]; [lia | lia | exact Hrest |].
    exists (progressLine i
            ++ [GetDirectoryBlockCall i; HandleDirectoryBlockCall (blocks i)]
            ++ evs)%list.
    replace (i + Z.of_nat (S n)) with (i + 1 + Z.of_nat n) by lia.
    rewrite (heightRange_cons i) by lia.
    split; [|split].
    + simpl scanLoop at 1. destruct (Z.leb_spec i stop); [|lia].
      unfold bindF at 1, liftF at 1. rewrite scanIteration_served by assumption.
      rewrite Heq. simpl. rewrite <- !app_assoc. reflexivity.
    + rewrite fetchedHeights_app, fetchedHeights_progressLine. simpl.
      rewrite Hf. reflexivity.
    + rewrite handledBlocks_app, handledBlocks_progressLine. simpl.
      rewrite Hh. reflexivity.
Qed.

End Scan.

(** ** [emitNewTransactions], case by case *)

Section EmitNewTransactions.

Context {DB DirectoryBlock InsertResult : Type}.
Variable table : TransactionTable DB InsertResult.
Variable factom : Factom DB DirectoryBlock.
Variable blocks : Z -> DirectoryBlock.

Implicit Types (w : World DB DirectoryBlock) (m t h configStartHeight : Z).

Lemma startHeight_max m configStartHeight :
  (if m >? configStartHeight then m else configStartHeight)
  = Z.max m configStartHeight.
Proof. destruct (Z.gtb_spec m configStartHeight); lia. Qed.

(** The pass up to the loop, when both reads succeed. *)
Lemma emitNewTransactions_unfold configStartHeight w m d0 heights :
  getMaxHeight table (db w) = (Normal m, d0) ->
  cli_getHeights factom = Normal heights ->
  let startHeight := Z.max m configStartHeight in
  let stopHeight := Heights.directoryBlockHeight heights in
  emitNewTransactions table configStartHeight factom w
  = try_catchF
      (scanLoop (Z.to_nat (stopHeight - startHeight)) factom (startHeight + 1)
         stopHeight ;;~
       liftF (logger LevelInfo "Scan complete" None))
      (fun e =>
         liftF (logger LevelError "Fatal error. Unable to backfill transactions: "
                  (Some e) ;;;
                process_exit 1))
      (mkWorld d0
         (trace w ++ [GetMaxHeightCall; GetHeightsCall;
                      fetchingLine startHeight stopHeight])%list).
Proof.
  intros Hmax Hheights startHeight stopHeight.
  unfold emitNewTransactions, try_catchF, bindF at 1, liftF at 1, onDb.
  rewrite Hmax. unfold bindF at 1, liftF at 1, bind, emit, lift. simpl.
  rewrite Hheights. rewrite startHeight_max.
  unfold bindF at 1, liftF at 1, logger, emit, fetchingLine. simpl.
  rewrite <- !app_assoc. reflexivity.
Qed.

(** A pass in which every call succeeds. *)
Lemma emitNewTransactions_complete configStartHeight w m d0 heights :
  getMaxHeight table (db w) = (Normal m, d0) ->
  cli_getHeights factom = Normal heights ->
  let startHeight := Z.max m configStartHeight in
  let stopHeight := Heights.directoryBlockHeight heights in
  servedOn factom blocks (heightRange (startHeight + 1) stopHeight) d0 ->
  exists evs,
    emitNewTransactions table configStartHeight factom w
    = Some (Normal tt,
            mkWorld
              (dbAfter (event_handleDirectoryBlock factom) blocks
                 (heightRange (startHeight + 1) stopHeight) d0)
              (trace w ++ evs)%list)
    /\ fetchedHeights evs = heightRange (startHeight + 1) stopHeight
    /\ handledBlocks evs = map blocks (heightRange (startHeight + 1) stopHeight)
    /\ last evs GetMaxHeightCall = completeLine.
Proof.
  intros Hmax Hheights startHeight stopHeight Hserved.
  rewrite (emitNewTransactions_unfold configStartHeight w m d0 heights Hmax Hheights).
  fold startHeight stopHeight.
  set (n := Z.to_nat (stopHeight - startHeight)).
  set (w1 := mkWorld d0 _).
  assert (Hrange : heightRange (startHeight + 1) (startHeight + 1 + Z.of_nat n - 1)
                   = heightRange (startHeight + 1) stopHeight).
  { destruct (Z.le_gt_cases (startHeight + 1) stopHeight).
    - f_equal. lia.
    - rewrite !heightRange_empty by lia. reflexivity. }
  destruct (scanLoop_prefix factom blocks n n (startHeight + 1) stopHeight w1)
    as [evs [Heq [Hf Hh]]]; [lia | lia | rewrite Hrange; exact Hserved |].
  rewrite Hrange in *.
  exists ([GetMaxHeightCall; GetHeightsCall; fetchingLine startHeight stopHeight]
          ++ evs ++ [completeLine])%list.
  split; [|split; [|split]].
  - unfold try_catchF, bindF. rewrite Heq.
    rewrite scanLoop_done by lia.
    unfold liftF, logger, emit, completeLine. simpl.
    rewrite <- !app_assoc. reflexivity.
  - simpl. rewrite fetchedHeights_app. simpl. rewrite app_nil_r. exact Hf.
  - simpl. rewrite handledBlocks_app. simpl. rewrite app_nil_r. exact Hh.
  - rewrite app_assoc. apply last_last.
Qed.

(** A pass in which the fetch of the height [h] throws, after the heights
    before it were served. *)
Lemma emitNewTransactions_fetch_throws configStartHeight w m d0 heights h e :
  getMaxHeight table (db w) = (Normal m, d0) ->
  cli_getHeights factom = Normal heights ->
  let startHeight := Z.max m configStartHeight in
  let stopHeight := Heights.directoryBlockHeight heights in
  startHeight < h <= stopHeight ->
  servedOn factom blocks (heightRange (startHeight + 1) (h - 1)) d0 ->
  cli_getDirectoryBlock factom h = Throw e ->
  exists evs,
    emitNewTransactions table configStartHeight factom w
    = Some (Exit 1,
            mkWorld
              (dbAfter (event_handleDirectoryBlock factom) blocks
                 (heightRange (startHeight + 1) (h - 1)) d0)
              (trace w ++ evs)%list)
    /\ fetchedHeights evs = heightRange (startHeight + 1) h
    /\ handledBlocks evs = map blocks (heightRange (startHeight + 1) (h - 1))
    /\ last evs GetMaxHeightCall = backfillFailedLine e.
Proof.
  intros Hmax Hheights startHeight stopHeight Hh Hserved Hthrow.
  rewrite (emitNewTransactions_unfold configStartHeight w m d0 heights Hmax Hheights).
  fold startHeight stopHeight.
  set (w1 := mkWorld d0 _).
  set (n := Z.to_nat (h - 1 - startHeight)).
  destruct (scanLoop_prefix factom blocks n (Z.to_nat (stopHeight - startHeight))
              (startHeight + 1) stopHeight w1)
    as [evs [Heq [Hf Hb]]]; [lia | lia | |].
  { replace (startHeight + 1 + Z.of_nat n - 1) with (h - 1) by lia. exact Hserved. }
  replace (startHeight + 1 + Z.of_nat n - 1) with (h - 1) in * by lia.
  replace (startHeight + 1 + Z.of_nat n) with h in * by lia.
  destruct (Z.to_nat (stopHeight - startHeight) - n)%nat as [|fuel] eqn:Hfuel; [lia|].
  exists ([GetMaxHeightCall; GetHeightsCall; fetchingLine startHeight stopHeight]
          ++ evs ++ progressLine h
          ++ [GetDirectoryBlockCall h; backfillFailedLine e])%list.
  split; [|split; [|split]].
  - unfold try_catchF, bindF at 1. rewrite Heq.
    simpl scanLoop. destruct (Z.leb_spec h stopHeight); [|lia].
    unfold bindF at 1, liftF at 1.
    rewrite (scanIteration_fetch_throws factom h _ e Hthrow).
    unfold liftF, bind, logger, emit, process_exit, backfillFailedLine. simpl.
    rewrite <- !app_assoc. reflexivity.
  - simpl. rewrite !fetchedHeights_app, fetchedHeights_progressLine. simpl.
    rewrite Hf. rewrite (heightRange_snoc _ h) by lia. reflexivity.
  - simpl. rewrite !handledBlocks_app, handledBlocks_progressLine. simpl.
    rewrite app_nil_r. exact Hb.
  - rewrite !app_assoc.
    change [GetDirectoryBlockCall h; backfillFailedLine e]
      with ([@GetDirectoryBlockCall DirectoryBlock h] ++ [backfillFailedLine e])%list.
    rewrite app_assoc. apply last_last.
Qed.

(** A pass in which the fetch of the tip throws. *)
Lemma emitNewTransactions_tip_throws configStartHeight w m d0 e :
  getMaxHeight table (db w) = (Normal m, d0) ->
  cli_getHeights factom = Throw e ->
  emitNewTransactions table configStartHeight factom w
  = Some (Exit 1,
          mkWorld d0
            (trace w ++ [GetMaxHeightCall; GetHeightsCall; backfillFailedLine e])%list).
Proof.
  intros Hmax Hheights.
  unfold emitNewTransactions, try_catchF, bindF at 1, liftF at 1, onDb.
  rewrite Hmax. unfold bindF at 1, liftF at 1, bind, emit, lift. simpl.
  rewrite Hheights.
  unfold liftF, logger, emit, process_exit, backfillFailedLine. simpl.
  rewrite <- !app_assoc. reflexivity.
Qed.

End EmitNewTransactions.

(** ** Every pass ends, and no exception leaves it *)

Section Totality.

Context {DB DirectoryBlock InsertResult : Type}.
Variable table : TransactionTable DB InsertResult.
Variable factom : Factom DB DirectoryBlock.

Implicit Types (w : World DB DirectoryBlock) (i stop : Z).

(** One iteration asks for the height [i] and for no other. *)
Lemma scanIteration_trace i w :
  exists evs,
    trace (snd (scanIteration factom i w)) = (trace w ++ evs)%list
    /\ fetchedHeights evs = [i].
Proof.
  unfold scanIteration, bind, logger, emit, lift, onDb, ret.
  destruct (Z.rem i 1000 =? 0); simpl;
    destruct (cli_getDirectoryBlock factom i) as [b|e|c]; simpl;
    try destruct (event_handleDirectoryBlock factom b (db w)) as [[[]|e|c] d]; simpl;
    rewrite <- ?app_assoc; eexists; (split; [reflexivity|reflexivity]).
Qed.

(** With fuel for every height that is left, the loop ends; the heights it
    asked for are the first ones of the range, all of them when it ends
    normally. *)
Lemma scanLoop_total (fuel : nat) :
  forall i stop w,
    (Z.to_nat (stop + 1 - i) <= fuel)%nat ->
    exists c w' evs n,
      scanLoop fuel factom i stop w = Some (c, w')
      /\ trace w' = (trace w ++ evs)%list
      /\ fetchedHeights evs = firstn n (heightRange i stop)
      /\ (c = Normal tt -> fetchedHeights evs = heightRange i stop).
Proof.
  induction fuel as [|fuel IH]; intros i stop w Hfuel.
  - exists (Normal tt), w, [], O.
    rewrite scanLoop_done by lia. rewrite app_nil_r.
    rewrite heightRange_empty by lia. auto.
  - destruct (Z.le_gt_cases i stop) as [Hle|Hgt].
    + simpl scanLoop. destruct (Z.leb_spec i stop); [|lia].
      unfold bindF at 1, liftF at 1.
      destruct (scanIteration_trace i w) as [evs1 [Ht1 Hf1]].
      destruct (scanIteration factom i w) as [[[]|e|c] w1] eqn:Hit; simpl in Ht1.
      * destruct (IH (i + 1) stop w1 ltac:(lia)) as (c & w' & evs & n & Hrun & Ht & Hf & Hn).
        exists c, w', (evs1 ++ evs)%list, (S n).
        rewrite (heightRange_cons i stop) by lia.
        split; [exact Hrun|]. split; [rewrite Ht, Ht1, app_assoc; reflexivity|].
        rewrite fetchedHeights_app, Hf1. simpl. split.
        -- rewrite Hf. reflexivity.
        -- intro Hc. rewrite (Hn Hc). reflexivity.
      * exists (Throw e), w1, evs1, 1%nat.
        rewrite (heightRange_cons i stop) by lia.
        split; [reflexivity|]. split; [exact Ht1|]. split; [exact Hf1|]. discriminate.
      * exists (Exit c), w1, evs1, 1%nat.
        rewrite (heightRange_cons i stop) by lia.
        split; [reflexivity|]. split; [exact Ht1|]. split; [exact Hf1|]. discriminate.
    + exists (Normal tt), w, [], O.
      rewrite scanLoop_done by lia. rewrite app_nil_r.
      rewrite heightRange_empty by lia. auto.
Qed.

(** [emitNewTransactions] always ends, and never with an exception: whatever
    the database, the ledger and the handler do, it completes or the process
    exits. *)
Lemma emitNewTransactions_total (configStartHeight : Z) w :
  exists c w',
    emitNewTransactions table configStartHeight factom w = Some (c, w')
    /\ forall e, c <> Throw e.
Proof.
  unfold emitNewTransactions, try_catchF.
  unfold bindF at 1, liftF at 1, onDb.
  destruct (getMaxHeight table (db w)) as [[m|e|c] d0].
  - unfold bindF at 1, liftF at 1, bind, emit, lift. simpl.
    destruct (cli_getHeights factom) as [heights|e|c].
    + unfold bindF at 1, liftF at 1, logger, emit. simpl.
      set (startHeight := if m >? configStartHeight then m else configStartHeight).
      set (w1 := mkWorld d0 _).
      destruct (scanLoop_total
                  (Z.to_nat (Heights.directoryBlockHeight heights - startHeight))
                  (startHeight + 1) (Heights.directoryBlockHeight heights) w1
                  ltac:(lia))
        as (c & w' & evs & n & Hrun & _).
      unfold bindF. rewrite Hrun.
      destruct c as [[]|e|c]; simpl; eexists; eexists;
        (split; [reflexivity | discriminate]).
    + simpl. eexists; eexists. split; [reflexivity | discriminate].
    + simpl. eexists; eexists. split; [reflexivity | discriminate].
  - simpl. eexists; eexists. split; [reflexivity | discriminate].
  - simpl. eexists; eexists. split; [reflexivity | discriminate].
Qed.

End Totality.

(** ** The retry policy *)

Section Retry.

Import AxiosRetry.

Context {A : Type}.
Variable cfg : IAxiosRetryConfig.
Variable attempt : nat -> Attempt A.

(** The delays waited are those of the retry counts that follow the first
    attempt, in order, and there are at most [budget] of them. *)
Lemma send_delays (budget retryCount : nat) :
  exists k, (k <= budget)%nat
    /\ snd (send cfg attempt budget retryCount)
       = map (retryDelay cfg) (seq (S retryCount) k).
Proof.
  revert retryCount. induction budget as [|budget IH]; intro retryCount; simpl.
  - exists O. split; [lia|]. destruct (attempt retryCount); reflexivity.
  - destruct (attempt retryCount).
    + exists O. split; [lia|reflexivity].
    + destruct (IH (S retryCount)) as [k [Hk Hd]].
      exists (S k). split; [lia|].
      destruct (send cfg attempt budget (S retryCount)) as [r delays].
      simpl in *. rewrite Hd. reflexivity.
    + exists O. split; [lia|reflexivity].
Qed.

(** A request makes at most [retries + 1] attempts. *)
Lemma request_attempts : (attemptsMade (request cfg attempt) <= S (retries cfg))%nat.
Proof.
  unfold attemptsMade, request.
  destruct (send_delays (retries cfg) 0) as [k [Hk Hd]].
  rewrite Hd, length_map, length_seq. lia.
Qed.

(** When every attempt within the budget meets a transient error, the
    request throws the error of the last attempt, after [budget] retries. *)
Lemma send_exhausted (errors : nat -> Js.Error) (budget retryCount : nat) :
  (forall k, (k <= budget)%nat ->
             attempt (retryCount + k)%nat = Transient (errors (retryCount + k)%nat)) ->
  fst (send cfg attempt budget retryCount) = Throw (errors (retryCount + budget)%nat)
  /\ List.length (snd (send cfg attempt budget retryCount)) = budget.
Proof.
  revert retryCount. induction budget as [|budget IH]; intros retryCount H; simpl.
  - pose proof (H O ltac:(lia)) as H0. rewrite Nat.add_0_r in *. rewrite H0. auto.
  - pose proof (H O ltac:(lia)) as H0. rewrite Nat.add_0_r in H0. rewrite H0.
    destruct (IH (S retryCount)) as [Hr Hl].
    { intros k Hk. replace (S retryCount + k)%nat with (retryCount + S k)%nat by lia.
      apply H. lia. }
    destruct (send cfg attempt budget (S retryCount)) as [r delays]. simpl in *.
    split; [|lia]. rewrite Hr. f_equal. f_equal. lia.
Qed.

(** A request whose first attempt is answered returns the answer at once. *)
Lemma request_answered (a : A) :
  attempt O = Answer a -> request cfg attempt = (Normal a, []).
Proof.
  intro H. unfold request. destruct (retries cfg); simpl; rewrite H; reflexivity.
Qed.

End Retry.

(** The base delay doubles from one retry to the next, and with the random
    share the delay of a retry stays below that of the next. *)
Lemma exponentialDelay_increasing (r1 r2 : Q) (retryNumber : nat) :
  (0 <= r1)%Q -> (r1 < 1)%Q -> (0 <= r2)%Q ->
  (AxiosRetry.exponentialDelay r1 retryNumber
   < AxiosRetry.exponentialDelay r2 (S retryNumber))%Q.
Proof.
  intros H1 H1' H2. unfold AxiosRetry.exponentialDelay.
  assert (Hpow : (inject_Z (2 ^ Z.of_nat (S retryNumber))
                  == 2 * inject_Z (2 ^ Z.of_nat retryNumber))%Q).
  { rewrite Nat2Z.inj_succ, Z.pow_succ_r by lia.
    rewrite inject_Z_mult. reflexivity. }
  cbv zeta. rewrite Hpow.
  assert (Hpos : (0 < inject_Z (2 ^ Z.of_nat retryNumber))%Q).
  { rewrite <- (Zlt_Qlt 0). apply Z.pow_pos_nonneg; lia. }
  set (p := inject_Z (2 ^ Z.of_nat retryNumber)) in *.
  nra.
Qed.

Lemma exponentialDelay_base (retryNumber : nat) :
  (AxiosRetry.exponentialDelay 0 retryNumber
   == inject_Z (2 ^ Z.of_nat retryNumber * 100))%Q.
Proof.
  unfold AxiosRetry.exponentialDelay. cbv zeta.
  rewrite inject_Z_mult. change (inject_Z 100) with 100%Q. ring.
Qed.

Lemma servedOn_ext {DB DirectoryBlock} (f1 f2 : Factom DB DirectoryBlock)
    (blocks : Z -> DirectoryBlock) (hs : list Z) :
  (forall i, cli_getDirectoryBlock f1 i = cli_getDirectoryBlock f2 i) ->
  (forall b d, event_handleDirectoryBlock f1 b d = event_handleDirectoryBlock f2 b d) ->
  forall d, servedOn f1 blocks hs d -> servedOn f2 blocks hs d.
Proof.
  intros Hc Hh. induction hs as [|h hs IH]; intros d H; simpl in *; [exact I|].
  destruct H as [H1 [H2 H3]]. rewrite <- Hc, <- Hh. auto.
Qed.

(** ** The scan pass: claims C1, C7 and C8 *)

(** C1: with [m] the maximum height of the database, [s] the start height of
    the configuration and [t] the tip, a pass of [emitNewTransactions] in
    which the calls succeed fetches the blocks of the heights [max m s + 1] to
    [t] and no other, in increasing order, hands each to the handler in the
    same order, and completes; when [max m s + 1 > t] it fetches and handles
    nothing, leaves the database as it is, and completes. *)
Theorem emitNewTransactions_scans_missing_heights
    {DB DirectoryBlock InsertResult : Type}
    (table : TransactionTable DB InsertResult) (factom : Factom DB DirectoryBlock)
    (blocks : Z -> DirectoryBlock) (s : Z) (w : World DB DirectoryBlock)
    (m : Z) (d0 : DB) (heights : Heights.t) :
  getMaxHeight table (db w) = (Normal m, d0) ->
  cli_getHeights factom = Normal heights ->
  let t := Heights.directoryBlockHeight heights in
  let first := Z.max m s + 1 in
  servedOn factom blocks (heightRange first t) d0 ->
  exists evs,
    emitNewTransactions table s factom w
    = Some (Normal tt,
            mkWorld
              (dbAfter (event_handleDirectoryBlock factom) blocks (heightRange first t) d0)
              (trace w ++ evs)%list)
    /\ fetchedHeights evs = heightRange first t
    /\ handledBlocks evs = map blocks (heightRange first t)
    /\ (forall i, In i (heightRange first t) <-> first <= i <= t)
    /\ (forall k, (k < List.length (heightRange first t))%nat ->
                  nth k (heightRange first t) 0 = first + Z.of_nat k)
    /\ (t < first ->
        fetchedHeights evs = [] /\ handledBlocks evs = []
        /\ dbAfter (event_handleDirectoryBlock factom) blocks (heightRange first t) d0
           = d0).
Proof.
  intros Hmax Hheights t first Hserved.
  destruct (emitNewTransactions_complete table factom blocks s w m d0 heights
              Hmax Hheights Hserved) as [evs [Hrun [Hf [Hh _]]]].
  exists evs. fold t first in Hrun, Hf, Hh.
  split; [exact Hrun|]. split; [exact Hf|]. split; [exact Hh|].
  split; [intro i; apply heightRange_In|].
  split; [intro k; apply heightRange_increasing|].
  intro Hempty. rewrite Hf, Hh, heightRange_empty by exact Hempty. auto.
Qed.

(** C7, amended: when the fetch of a block throws during the scan, with
    NotFound or with any other error, the pass stops there: the heights before
    it were fetched and handled, no height after it is fetched, the error is
    logged as fatal and the process exits with code 1. *)
Theorem block_fetch_failure_is_fatal
    {DB DirectoryBlock InsertResult : Type}
    (table : TransactionTable DB InsertResult) (factom : Factom DB DirectoryBlock)
    (blocks : Z -> DirectoryBlock) (s : Z) (w : World DB DirectoryBlock)
    (m : Z) (d0 : DB) (heights : Heights.t) (h : Z) (e : Js.Error) :
  getMaxHeight table (db w) = (Normal m, d0) ->
  cli_getHeights factom = Normal heights ->
  Z.max m s < h <= Heights.directoryBlockHeight heights ->
  servedOn factom blocks (heightRange (Z.max m s + 1) (h - 1)) d0 ->
  cli_getDirectoryBlock factom h = Throw e ->
  exists evs,
    emitNewTransactions table s factom w
    = Some (Exit 1,
            mkWorld
              (dbAfter (event_handleDirectoryBlock factom) blocks
                 (heightRange (Z.max m s + 1) (h - 1)) d0)
              (trace w ++ evs)%list)
    /\ fetchedHeights evs = heightRange (Z.max m s + 1) h
    /\ handledBlocks evs = map blocks (heightRange (Z.max m s + 1) (h - 1))
    /\ last evs GetMaxHeightCall = backfillFailedLine e.
Proof.
  intros Hmax Hheights Hh Hserved Hthrow.
  exact (emitNewTransactions_fetch_throws table factom blocks s w m d0 heights h e
           Hmax Hheights Hh Hserved Hthrow).
Qed.

(** C8: under the retry policy of line 12 a request is retried a fixed
    number of times, 2, so it makes at most 3 attempts, and the delay before a
    retry grows exponentially with the retry count (at least [2^n * 100] ms,
    less than the delay of the next retry).  When the three attempts for the
    block of a height [h] all meet a transient error, the pass stops, logs
    the last error as fatal and exits with code 1; the database is then the
    one that a complete pass up to [h - 1] leaves, so the cursor read from it
    has not moved for [h].  When the three attempts for the tip all fail, the
    pass exits with code 1 before any block is fetched. *)
Theorem retry_exhaustion_is_fatal
    {DB DirectoryBlock InsertResult : Type}
    (table : TransactionTable DB InsertResult) (random : nat -> Q)
    (tip : nat -> AxiosRetry.Attempt Heights.t)
    (node : Z -> nat -> AxiosRetry.Attempt DirectoryBlock)
    (handler : DirectoryBlock -> M DB unit) (blocks : Z -> DirectoryBlock)
    (errors : nat -> Js.Error) (s : Z) (w : World DB DirectoryBlock)
    (m : Z) (d0 : DB) (heights : Heights.t) (h : Z) :
  let cfg := AxiosRetry.config random in
  let factom := retryingFactom random tip node handler in
  let first := Z.max m s + 1 in
  (forall n, (0 <= random n)%Q /\ (random n < 1)%Q) ->
  getMaxHeight table (db w) = (Normal m, d0) ->
  cli_getHeights factom = Normal heights ->
  first <= h <= Heights.directoryBlockHeight heights ->
  servedOn factom blocks (heightRange first (h - 1)) d0 ->
  (forall k, (k <= 2)%nat -> node h k = AxiosRetry.Transient (errors k)) ->
  (AxiosRetry.retries cfg = 2%nat
   /\ (forall A (attempt : nat -> AxiosRetry.Attempt A),
         (AxiosRetry.attemptsMade (AxiosRetry.request cfg attempt) <= 3)%nat)
   /\ (forall n, (inject_Z (2 ^ Z.of_nat n * 100) <= AxiosRetry.retryDelay cfg n)%Q
                 /\ (AxiosRetry.retryDelay cfg n < AxiosRetry.retryDelay cfg (S n))%Q))
  /\ (AxiosRetry.attemptsMade (AxiosRetry.request cfg (node h)) = 3%nat
      /\ cli_getDirectoryBlock factom h = Throw (errors 2%nat)
      /\ exists evs,
           emitNewTransactions table s factom w
           = Some (Exit 1,
                   mkWorld (dbAfter handler blocks (heightRange first (h - 1)) d0)
                     (trace w ++ evs)%list)
           /\ fetchedHeights evs = heightRange first h
           /\ handledBlocks evs = map blocks (heightRange first (h - 1))
           /\ last evs GetMaxHeightCall = backfillFailedLine (errors 2%nat))
  /\ (exists evs,
        emitNewTransactions table s
          (retryingFactom random (fun _ => AxiosRetry.Answer (Heights.make (h - 1)))
             node handler) w
        = Some (Normal tt,
                mkWorld (dbAfter handler blocks (heightRange first (h - 1)) d0)
                  (trace w ++ evs)%list))
  /\ (forall tip' : nat -> AxiosRetry.Attempt Heights.t,
        (forall k, (k <= 2)%nat -> tip' k = AxiosRetry.Transient (errors k)) ->
        emitNewTransactions table s (retryingFactom random tip' node handler) w
        = Some (Exit 1,
                mkWorld d0
                  (trace w ++ [GetMaxHeightCall; GetHeightsCall;
                               backfillFailedLine (errors 2%nat)])%list)).
Proof.
  intros cfg factom first Hrandom Hmax Hheights Hh Hserved Hdown.
  assert (Hblock : forall A (attempt : nat -> AxiosRetry.Attempt A),
             (forall k, (k <= 2)%nat -> attempt k = AxiosRetry.Transient (errors k)) ->
             fst (AxiosRetry.request cfg attempt) = Throw (errors 2%nat)
             /\ AxiosRetry.attemptsMade (AxiosRetry.request cfg attempt) = 3%nat).
  { intros A attempt Hall.
    destruct (send_exhausted cfg attempt errors 2 0) as [Hr Hl].
    { intros k Hk. simpl. apply Hall. exact Hk. }
    unfold AxiosRetry.attemptsMade, AxiosRetry.request. simpl AxiosRetry.retries.
    rewrite Hl. split; [exact Hr | reflexivity]. }
  split; [|split; [|split]].
  - split; [reflexivity|]. split.
    + intros A attempt. exact (request_attempts cfg attempt).
    + intro n. simpl. split.
      * destruct (Hrandom n) as [H0 _].
        rewrite <- exponentialDelay_base. unfold AxiosRetry.exponentialDelay.
        cbv zeta.
        assert (Hpos : (0 < inject_Z (2 ^ Z.of_nat n))%Q).
        { rewrite <- (Zlt_Qlt 0). apply Z.pow_pos_nonneg; lia. }
        set (p := inject_Z (2 ^ Z.of_nat n)) in *. nra.
      * destruct (Hrandom n) as [H0 H1]. destruct (Hrandom (S n)) as [H0' _].
        apply exponentialDelay_increasing; assumption.
  - destruct (Hblock _ (node h) Hdown) as [Hthrow Hthree].
    split; [exact Hthree|]. split; [exact Hthrow|].
    apply (emitNewTransactions_fetch_throws table factom blocks s w m d0 heights h
             (errors 2%nat) Hmax Hheights); [fold first; lia | exact Hserved | exact Hthrow].
  - destruct (emitNewTransactions_complete table
                (retryingFactom random
                   (fun _ => AxiosRetry.Answer (Heights.make (h - 1))) node handler)
                blocks s w m d0 (Heights.make (h - 1)) Hmax)
      as [evs [Hrun _]].
    + reflexivity.
    + simpl. revert Hserved. apply servedOn_ext; reflexivity.
    + exists evs. exact Hrun.
  - intros tip' Htip.
    destruct (Hblock _ tip' Htip) as [Hthrow _].
    apply (emitNewTransactions_tip_throws table
             (retryingFactom random tip' node handler) s w m d0 (errors 2%nat) Hmax).
    exact Hthrow.
Qed.

(** ** The claims that fail as stated *)

(** C3 as stated fails: two outputs of 1 FCT and of 1.3 FCT to the address
    give one row, and its [receivedFCT] is the double 2.3000000000000003,
    which is 5179139571476071 / 2^51, not the scaled sum 2.3. *)
Lemma scaled_sum_is_rounded :
  exists row,
    insertedRows
      (newEvents (Sample.world Sample.emptyStore)
         (snd (saveNewTransaction Sample.coinbaseOnly Store.table Sample.roundedTx
                 (Sample.world Sample.emptyStore))))
    = [row]
    /\ TransactionRow.receivedFCT row = (5179139571476071 # 2251799813685248)%Q
    /\ ~ Qeq (TransactionRow.receivedFCT row)
           (inject_Z (100000000 + 130000000) / 100000000).
Proof.
  eexists. split; [reflexivity|]. split; [reflexivity|].
  intro H. vm_compute in H. discriminate H.
Qed.

(** C7 as stated fails: the ledger has tip 103 and does not find the block
    102; the pass from the cursor 100 ends the process with exit code 1. *)
Lemma not_found_ends_the_process :
  cli_getDirectoryBlock (Sample.ledgerWithout 103 102) 102 = Throw Sample.NotFound
  /\ option_map fst
       (emitNewTransactions Store.table 50 (Sample.ledgerWithout 103 102)
          (Sample.world Sample.emptyStore))
     = Some (Exit 1).
Proof. split; reflexivity. Qed.

(** ** The claims on the sample data *)

Lemma sample_coinbase_passes :
  ~ skippedByFilter Sample.coinbaseOnly Sample.coinbaseTx.
Proof. intros [[_ H]|[H _]]; [discriminate H | apply H; reflexivity]. Defined.

Lemma sample_coinbase_income :
  ~ Qeq (sumFCToutputs Sample.coinbaseTx (AddressConfig.address Sample.coinbaseOnly)) 0.
Proof. intro H. vm_compute in H. discriminate H. Defined.

(** The scenario of the specification: cursor 100, start height 50, tip 103;
    the pass fetches 101, 102 and 103. *)
Lemma emitNewTransactions_scans_missing_heights_witness :
  exists evs,
    fetchedHeights evs = [101; 102; 103]
    /\ handledBlocks evs = [Sample.block 101; Sample.block 102; Sample.block 103]
    /\ emitNewTransactions Store.table 50 (Sample.ledger 103)
         (Sample.world Sample.emptyStore)
       = Some (Normal tt,
               mkWorld
                 (dbAfter Sample.handler Sample.block [101; 102; 103] Sample.emptyStore)
                 evs).
Proof.
  destruct (emitNewTransactions_scans_missing_heights Store.table (Sample.ledger 103)
              Sample.block 50 (Sample.world Sample.emptyStore) 100 Sample.emptyStore
              (Heights.make 103) eq_refl eq_refl)
    as [evs [Hrun [Hf [Hh _]]]].
  - vm_compute. repeat split.
  - exists evs. split; [exact Hf|]. split; [exact Hh|]. exact Hrun.
Defined.

(** A coinbase transaction is skipped for an address that records the other
    transactions only, and recorded once for an address that records
    coinbase. *)
Lemma saveNewTransaction_classification_witness :
  saveNewTransaction Sample.nonCoinbaseOnly Store.table Sample.coinbaseTx
    (Sample.world Sample.emptyStore)
  = (Normal None, Sample.world Sample.emptyStore)
  /\ insertedRows
       (newEvents (Sample.world Sample.emptyStore)
          (snd (saveNewTransaction Sample.coinbaseOnly Store.table Sample.coinbaseTx
                  (Sample.world Sample.emptyStore))))
     = [Sample.coinbaseRow].
Proof.
  split.
  - apply (proj1 (saveNewTransaction_classification Store.table Sample.nonCoinbaseOnly
                    Sample.coinbaseTx (Sample.world Sample.emptyStore))).
    left. split; reflexivity.
  - apply (proj2 (saveNewTransaction_classification Store.table Sample.coinbaseOnly
                    Sample.coinbaseTx (Sample.world Sample.emptyStore))
             sample_coinbase_passes).
    + exact sample_coinbase_income.
    + reflexivity.
Defined.

(** 1 FCT and 1.3 FCT to the same address give one row, which holds the
    double product for 2.3 FCT. *)
Lemma sumFCToutputs_aggregates_witness :
  exists row,
    insertedRows
      (newEvents (Sample.world Sample.emptyStore)
         (snd (saveNewTransaction Sample.coinbaseOnly Store.table Sample.roundedTx
                 (Sample.world Sample.emptyStore))))
    = [row]
    /\ TransactionRow.receivedFCT row = inFCT (100000000 + 130000000).
Proof.
  apply (proj2 (sumFCToutputs_aggregates Store.table Sample.coinbaseOnly
                  Sample.roundedTx (Sample.world Sample.emptyStore))
           (TransactionAddress.make Sample.addressA 100000000)
           (TransactionAddress.make Sample.addressA 130000000)
           [] [] []).
  - reflexivity.
  - reflexivity.
  - reflexivity.
  - intros o [].
  - intros [[_ H]|[H _]]; [discriminate H | apply H; reflexivity].
  - vm_compute. discriminate.
  - vm_compute. discriminate.
Defined.

(** A transfer that pays another address produces nothing. *)
Lemma saveNewTransaction_zero_receipt_witness :
  Qeq (sumFCToutputs Sample.transferTx (AddressConfig.address Sample.nonCoinbaseOnly)) 0
  /\ saveNewTransaction Sample.nonCoinbaseOnly Store.table Sample.transferTx
       (Sample.world Sample.emptyStore)
     = (Normal None, Sample.world Sample.emptyStore).
Proof.
  apply (proj2 (saveNewTransaction_zero_receipt Store.table Sample.nonCoinbaseOnly
                  Sample.transferTx (Sample.world Sample.emptyStore))).
  intros o [<-|[]]. vm_compute. discriminate.
Defined.

(** The row of the sample coinbase transaction. *)
Lemma saved_row_fields_witness :
  TransactionRow.timestamp Sample.coinbaseRow = 1577836800
  /\ toISOString 1577836800123 = Normal "2020-01-01T00:00:00.123Z"
  /\ TransactionRow.height Sample.coinbaseRow = 101
  /\ TransactionRow.symbol Sample.coinbaseRow = "FCT"
  /\ TransactionRow.currency Sample.coinbaseRow = "USD".
Proof.
  destruct (saved_row_fields Store.table Sample.coinbaseOnly Sample.coinbaseTx
              (Sample.world Sample.emptyStore) Sample.coinbaseRow)
    as (Ht & _ & Hd & _ & Hh & Hs & Hc & _).
  - vm_compute. left. reflexivity.
  - repeat split; assumption.
Defined.

(** Tip 103, block 102 not found: 101 is handled, 102 is asked for, 103 is
    not, and the process ends. *)
Lemma block_fetch_failure_is_fatal_witness :
  exists evs,
    fetchedHeights evs = [101; 102]
    /\ handledBlocks evs = [Sample.block 101]
    /\ last evs GetMaxHeightCall = backfillFailedLine Sample.NotFound
    /\ option_map fst
         (emitNewTransactions Store.table 50 (Sample.ledgerWithout 103 102)
            (Sample.world Sample.emptyStore))
       = Some (Exit 1).
Proof.
  destruct (block_fetch_failure_is_fatal Store.table (Sample.ledgerWithout 103 102)
              Sample.block 50 (Sample.world Sample.emptyStore) 100 Sample.emptyStore
              (Heights.make 103) 102 Sample.NotFound eq_refl eq_refl)
    as [evs [Hrun [Hf [Hh Hl]]]].
  - simpl. lia.
  - vm_compute. repeat split.
  - reflexivity.
  - exists evs. split; [exact Hf|]. split; [exact Hh|]. split; [exact Hl|].
    rewrite Hrun. reflexivity.
Defined.

(** The scenario of the specification: the cursor is at 104 and the three
    attempts for the block 105 fail; the process ends and the store is the
    one the pass started from. *)
Lemma retry_exhaustion_is_fatal_witness :
  AxiosRetry.attemptsMade
    (AxiosRetry.request (AxiosRetry.config Sample.halfJitter) (Sample.downAt105 105))
  = 3%nat
  /\ exists evs,
       emitNewTransactions Store.table 50 Sample.flakyLedger
         (Sample.world Sample.storeAt104)
       = Some (Exit 1, mkWorld Sample.storeAt104 evs)
       /\ fetchedHeights evs = [105]
       /\ handledBlocks evs = [].
Proof.
  destruct (retry_exhaustion_is_fatal Store.table Sample.halfJitter
              (fun _ => AxiosRetry.Answer (Heights.make 106)) Sample.downAt105
              Sample.handler Sample.block (fun _ => Sample.Unavailable) 50
              (Sample.world Sample.storeAt104) 104 Sample.storeAt104
              (Heights.make 106) 105)
    as [_ [[Hthree [_ [evs [Hrun [Hf [Hh _]]]]]] _]].
  - intro n. split; vm_compute; [discriminate | reflexivity].
  - reflexivity.
  - reflexivity.
  - simpl. lia.
  - exact I.
  - intros k _. reflexivity.
  - split; [exact Hthree|]. exists evs.
    split; [exact Hrun|]. split; [exact Hf | exact Hh].
Defined.

(** ** The constructor of [Config]: claim C10 *)

Section ConfigConstructor.

Import ConfigTs.

Variable readFileSync : string -> Completion string.
Variable safeLoad : string -> Completion Yaml.
Variable schemas : Schemas.

Implicit Types (path : string) (w : list LogEntry).

(** What the [catch] block does with an error. *)
Lemma catch_exits (e : Js.Error) w :
  (log LevelError "Unable to load config" ;;;
   log LevelError (message e) ;;;
   (if match code e with
       | Some c => String.eqb c "ENOENT"
       | None => false
       end
    then log LevelError "Did you init the config? See --help for more info."
    else ret tt) ;;;
   @process_exit _ Config 1) w
  = (Exit 1, (w ++ failureLines e)%list).
Proof.
  unfold failureLines, bind, log, ret, process_exit.
  destruct (code e) as [c|]; [destruct (String.eqb c "ENOENT")|]; simpl;
    rewrite <- ?app_assoc; reflexivity.
Qed.

(** The constructor logs the path, then returns the instance, or logs the
    error and exits with code 1. *)
Lemma constructor_loaded path w :
  constructor readFileSync safeLoad schemas path w
  = match loaded readFileSync safeLoad schemas path with
    | Normal c => (Normal c, (w ++ [readingLine path])%list)
    | Throw e => (Exit 1, (w ++ [readingLine path] ++ failureLines e)%list)
    | Exit c => (Exit c, (w ++ [readingLine path])%list)
    end.
Proof.
  unfold constructor, loaded.
  unfold bind at 1, log at 1. unfold try_catch.
  unfold bind at 1, lift at 1.
  destruct (readFileSync path) as [yamlString|e|c];
    [|rewrite catch_exits, <- app_assoc; reflexivity | reflexivity].
  unfold bind at 1, lift at 1.
  destruct (safeLoad yamlString) as [config|e|c];
    [|rewrite catch_exits, <- app_assoc; reflexivity | reflexivity].
  cbv zeta. unfold bind at 1.
  destruct (error (validate schemas config)) as [e|].
  { unfold throw. rewrite catch_exits, <- app_assoc. reflexivity. }
  unfold ret at 1. unfold bind at 1, lift at 1, getValue.
  destruct (value (validate schemas config)) as [v|];
    [|rewrite catch_exits, <- app_assoc; reflexivity].
  unfold bind at 1, lift at 1, getKeys.
  destruct (v_keys v) as [k|];
    [|rewrite catch_exits, <- app_assoc; reflexivity].
  unfold bind at 1.
  destruct ((bitcoinTax k && negb (truthy (bitcoinTaxSecret k)))
            || (bitcoinTax k && negb (truthy (bitcoinTaxKey k)))).
  - unfold throw. rewrite catch_exits, <- app_assoc. reflexivity.
  - reflexivity.
Qed.

(** No exception leaves the constructor: it returns an instance or ends the
    process with exit code 1 (the library calls themselves do not end the
    process). *)
Lemma constructor_never_throws path w :
  (forall p c, readFileSync p <> Exit c) ->
  (forall y c, safeLoad y <> Exit c) ->
  (exists c w', constructor readFileSync safeLoad schemas path w = (Normal c, w'))
  \/ (exists w', constructor readFileSync safeLoad schemas path w = (Exit 1, w')).
Proof.
  intros Hread Hload. rewrite constructor_loaded.
  destruct (loaded readFileSync safeLoad schemas path) as [c|e|c] eqn:H.
  - left. eauto.
  - right. eauto.
  - exfalso. unfold loaded in H.
    destruct (readFileSync path) as [yamlString|e|c'] eqn:Hr; try discriminate.
    + destruct (safeLoad yamlString) as [config|e|c'] eqn:Hl; try discriminate.
      * cbv zeta in H. destruct (error _); try discriminate.
        destruct (value _) as [v|]; try discriminate.
        destruct (v_keys v) as [k|]; try discriminate.
        destruct (_ || _); discriminate.
      * exact (Hload _ _ Hl).
    + exact (Hread _ _ Hr).
Qed.

(** The four failures that the constructor is written for end the process
    with exit code 1 after the error is logged. *)
Lemma constructor_unreadable path w e :
  readFileSync path = Throw e ->
  constructor readFileSync safeLoad schemas path w
  = (Exit 1, (w ++ [readingLine path] ++ failureLines e)%list).
Proof. intro H. rewrite constructor_loaded. unfold loaded. rewrite H. reflexivity. Qed.

Lemma constructor_bad_yaml path w yamlString e :
  readFileSync path = Normal yamlString ->
  safeLoad yamlString = Throw e ->
  constructor readFileSync safeLoad schemas path w
  = (Exit 1, (w ++ [readingLine path] ++ failureLines e)%list).
Proof.
  intros H1 H2. rewrite constructor_loaded. unfold loaded. rewrite H1, H2. reflexivity.
Qed.

Lemma constructor_invalid path w yamlString config e :
  readFileSync path = Normal yamlString ->
  safeLoad yamlString = Normal config ->
  error (validate schemas config) = Some e ->
  constructor readFileSync safeLoad schemas path w
  = (Exit 1, (w ++ [readingLine path] ++ failureLines e)%list).
Proof.
  intros H1 H2 H3. rewrite constructor_loaded. unfold loaded.
  rewrite H1, H2. cbv zeta. rewrite H3. reflexivity.
Qed.

Lemma constructor_bitcoinTax_incomplete path w yamlString config v k :
  readFileSync path = Normal yamlString ->
  safeLoad yamlString = Normal config ->
  validate schemas config = mkResult (Some v) None ->
  v_keys v = Some k ->
  bitcoinTax k = true ->
  truthy (bitcoinTaxSecret k) = false \/ truthy (bitcoinTaxKey k) = false ->
  constructor readFileSync safeLoad schemas path w
  = (Exit 1,
     (w ++ [readingLine path]
      ++ failureLines
           (PlainError "Must provide bitcoin.tax secret and key when bitoinTax true"))%list).
Proof.
  intros H1 H2 H3 H4 H5 H6. rewrite constructor_loaded. unfold loaded.
  rewrite H1, H2. cbv zeta. rewrite H3. simpl. rewrite H4, H5.
  destruct H6 as [H6|H6]; rewrite H6; simpl; rewrite ?orb_true_r; reflexivity.
Qed.

(** With a [keys] section, and bitcoin.tax off or complete, the instance
    carries the validated values. *)
Lemma constructor_succeeds path w yamlString config v k :
  readFileSync path = Normal yamlString ->
  safeLoad yamlString = Normal config ->
  validate schemas config = mkResult (Some v) None ->
  v_keys v = Some k ->
  bitcoinTax k = false
  \/ (truthy (bitcoinTaxSecret k) = true /\ truthy (bitcoinTaxKey k) = true) ->
  constructor readFileSync safeLoad schemas path w
  = (Normal (mkInstance (v_factomd v) (v_addresses v) (v_options v) k),
     (w ++ [readingLine path])%list).
Proof.
  intros H1 H2 H3 H4 H5. rewrite constructor_loaded. unfold loaded.
  rewrite H1, H2. cbv zeta. rewrite H3. simpl. rewrite H4.
  destruct H5 as [H5|[H5 H6]]; [rewrite H5 | rewrite H5, H6, !andb_false_r];
    reflexivity.
Qed.

(** A document that passes the validation without a [keys] section ends
    the process all the same, on the [TypeError] of [value.keys.bitcoinTax]. *)
Lemma constructor_without_keys path w yamlString config v :
  readFileSync path = Normal yamlString ->
  safeLoad yamlString = Normal config ->
  validate schemas config = mkResult (Some v) None ->
  v_keys v = None ->
  constructor readFileSync safeLoad schemas path w
  = (Exit 1,
     (w ++ [readingLine path]
      ++ failureLines (TypeError "Cannot read property 'bitcoinTax' of undefined"))%list).
Proof.
  intros H1 H2 H3 H4. rewrite constructor_loaded. unfold loaded.
  rewrite H1, H2. cbv zeta. rewrite H3. simpl. rewrite H4. reflexivity.
Qed.

(** The validation accepts a mapping without [keys] as soon as its
    [addresses] are accepted and it has no other section. *)
Lemma validate_without_keys (addresses : Yaml) (items : list Yaml) :
  addresses <> YUndefined ->
  addressesSchema schemas addresses = inr items ->
  validate schemas (YMap [("addresses", addresses)])
  = mkResult (Some (mkValue defaultFactomd None items defaultOptions)) None.
Proof.
  intros Hdef Hok. unfold validate. simpl.
  destruct addresses; try (rewrite Hok; reflexivity). contradiction.
Qed.

End ConfigConstructor.

(** C10 fails on the code for a file that holds an [addresses] section and
    no [keys] section: the file is read, the YAML loads, the validation
    reports no error and bitcoin.tax is not switched on, yet the constructor
    builds no instance; it logs a [TypeError] and ends the process with exit
    code 1. *)
Theorem config_without_keys_exits :
  Sample.readConfigFile Sample.configPath = Normal "addresses: [...]"
  /\ Sample.loadYaml "addresses: [...]" = Normal Sample.addressesOnly
  /\ ConfigTs.validate Sample.schemas Sample.addressesOnly
     = ConfigTs.mkResult
         (Some (ConfigTs.mkValue ConfigTs.defaultFactomd None [Sample.addressEntry]
                  ConfigTs.defaultOptions))
         None
  /\ ConfigTs.constructor Sample.readConfigFile Sample.loadYaml Sample.schemas
       Sample.configPath []
     = (Exit 1,
        [logEntry LevelInfo "Reading config from: /home/user/.factoidd/config.yaml" None;
         logEntry LevelError "Unable to load config" None;
         logEntry LevelError "Cannot read property 'bitcoinTax' of undefined" None]).
Proof. repeat split. Qed.

(** * Further properties of [transaction.ts] *)

(** ** The received amount *)

Lemma matchingTotal_perm (address : string) (l1 l2 : list TransactionAddress.t) :
  Permutation l1 l2 -> matchingTotal address l1 = matchingTotal address l2.
Proof.
  induction 1 as [|o l l' _ IH|a b l|l l' l'' _ IH1 _ IH2]; simpl.
  - reflexivity.
  - rewrite IH. reflexivity.
  - lia.
  - rewrite IH1. exact IH2.
Qed.

Lemma matchingTotal_nonneg (address : string) (l : list TransactionAddress.t) :
  (forall o, In o l -> 0 <= TransactionAddress.amount o) ->
  0 <= matchingTotal address l.
Proof.
  induction l as [|o l IH]; simpl; intro H; [lia|].
  assert (0 <= matchingTotal address l) by (apply IH; auto).
  assert (0 <= TransactionAddress.amount o) by (apply H; auto).
  destruct (string_dec _ _); lia.
Qed.

Lemma matchingTotal_positive (address : string) (l : list TransactionAddress.t) :
  (forall o, In o l -> 0 <= TransactionAddress.amount o) ->
  (matchingTotal address l <> 0
   <-> exists o, In o l /\ TransactionAddress.address o = address
                 /\ 0 < TransactionAddress.amount o).
Proof.
  induction l as [|o l IH]; simpl; intro H.
  - split; [lia | intros [o [[] _]]].
  - assert (Hl : forall o', In o' l -> 0 <= TransactionAddress.amount o') by auto.
    assert (Ho : 0 <= TransactionAddress.amount o) by auto.
    pose proof (matchingTotal_nonneg address l Hl) as Hn.
    specialize (IH Hl).
    destruct (string_dec (TransactionAddress.address o) address) as [E|N].
    + split.
      * intro Hne. destruct (Z.eq_dec (TransactionAddress.amount o) 0) as [Z0|Z1].
        -- destruct (proj1 IH ltac:(lia)) as [o' [Hin Ho']]. exists o'. auto.
        -- exists o. split; [auto|]. split; [exact E | lia].
      * intros [o' [[<-|Hin] [Ha Hp]]]; [lia|].
        assert (matchingTotal address l <> 0) by (apply IH; eauto). lia.
    + split.
      * intro Hne. destruct (proj1 IH ltac:(lia)) as [o' [Hin Ho']]. exists o'. auto.
      * intros [o' [[<-|Hin] [Ha Hp]]]; [contradiction|].
        assert (matchingTotal address l <> 0) by (apply IH; eauto). lia.
Qed.

(** X1: the received amount does not depend on the order of the outputs of
    the transaction: two transactions whose outputs are a permutation of one
    another give the same [sumFCToutputs] for every address. *)
Theorem sumFCToutputs_order_independent (tx1 tx2 : Transaction.t) (address : string) :
  Permutation (Transaction.factoidOutputs tx1) (Transaction.factoidOutputs tx2) ->
  sumFCToutputs tx1 address = sumFCToutputs tx2 address.
Proof.
  intro H. rewrite !sumFCToutputs_matchingTotal.
  rewrite (matchingTotal_perm address _ _ H). reflexivity.
Qed.

(** X2: the accuracy of the received amount.  When no amount is negative and
    the amounts of the outputs to the address total less than 2^53 factoshis,
    [sumFCToutputs] differs from the decimal fraction total / 10^8 by 2^-52
    of that fraction at most: this is what the rounding of
    [Math.pow(10, -8)] and the rounding of the product leave of the exact
    scaling.  The received amount is therefore additive up to rounding only:
    when the outputs are those of a first transaction followed by those of a
    second, [sumFCToutputs] differs from the sum of theirs by 2^-51 of that
    fraction at most. *)
Theorem sumFCToutputs_accuracy (tx : Transaction.t) (address : string) :
  (forall o, In o (Transaction.factoidOutputs tx) -> 0 <= TransactionAddress.amount o) ->
  matchingTotal address (Transaction.factoidOutputs tx) < 2 ^ 53 ->
  (Qabs (sumFCToutputs tx address
         - inject_Z (matchingTotal address (Transaction.factoidOutputs tx)) / 100000000)
   <= inject_Z (matchingTotal address (Transaction.factoidOutputs tx)) / 100000000
      * (1 # 4503599627370496))%Q
  /\ forall tx1 tx2 : Transaction.t,
       Transaction.factoidOutputs tx
       = (Transaction.factoidOutputs tx1 ++ Transaction.factoidOutputs tx2)%list ->
       (Qabs (sumFCToutputs tx address
              - (sumFCToutputs tx1 address + sumFCToutputs tx2 address))
        <= inject_Z (matchingTotal address (Transaction.factoidOutputs tx)) / 100000000
           * (1 # 2251799813685248))%Q.
Proof.
  intros Hnonneg Hlt.
  assert (Hacc : forall l,
            (forall o, In o l -> 0 <= TransactionAddress.amount o) ->
            matchingTotal address l < 2 ^ 53 ->
            (Qabs (inFCT (matchingTotal address l)
                   - inject_Z (matchingTotal address l) / 100000000)
             <= inject_Z (matchingTotal address l) / 100000000
                * (1 # 4503599627370496))%Q).
  { intros l Hl Hlt'. apply inFCT_accuracy. split; [|exact Hlt'].
    apply matchingTotal_nonneg. exact Hl. }
  split.
  - rewrite sumFCToutputs_matchingTotal. apply Hacc; assumption.
  - intros tx1 tx2 Hout.
    rewrite !sumFCToutputs_matchingTotal.
    assert (H1 : forall o, In o (Transaction.factoidOutputs tx1) ->
                           0 <= TransactionAddress.amount o).
    { intros o Ho. apply Hnonneg. rewrite Hout. apply in_or_app. auto. }
    assert (H2 : forall o, In o (Transaction.factoidOutputs tx2) ->
                           0 <= TransactionAddress.amount o).
    { intros o Ho. apply Hnonneg. rewrite Hout. apply in_or_app. auto. }
    pose proof (matchingTotal_nonneg address _ H1) as Hn1.
    pose proof (matchingTotal_nonneg address _ H2) as Hn2.
    pose proof (Hacc _ Hnonneg Hlt) as A.
    rewrite Hout, matchingTotal_app in *.
    pose proof (Hacc _ H1 ltac:(lia)) as A1.
    pose proof (Hacc _ H2 ltac:(lia)) as A2.
    set (n1 := matchingTotal address (Transaction.factoidOutputs tx1)) in *.
    set (n2 := matchingTotal address (Transaction.factoidOutputs tx2)) in *.
    rewrite inject_Z_plus in *.
    assert (Q1 : (0 <= inject_Z n1)%Q) by (unfold Qle; simpl; lia).
    assert (Q2 : (0 <= inject_Z n2)%Q) by (unfold Qle; simpl; lia).
    set (q1 := inject_Z n1) in *. set (q2 := inject_Z n2) in *.
    set (s := inFCT (n1 + n2)) in *. set (s1 := inFCT n1) in *. set (s2 := inFCT n2) in *.
    apply Qabs_Qle_condition in A, A1, A2. apply Qabs_Qle_condition.
    unfold Qdiv in *.
    change (/ 100000000)%Q with (1 # 100000000)%Q in *.
    split; lra.
Qed.

Section FurtherSaveNewTransaction.

Context {DB DirectoryBlock InsertResult : Type}.
Variable table : TransactionTable DB InsertResult.

Implicit Types (conf : AddressConfig.t) (tx : Transaction.t).
Implicit Types (w : World DB DirectoryBlock).

(** X3: for a transaction whose amounts are not negative and whose
    timestamp is a valid date, [saveNewTransaction] hands a row to the
    database exactly when the filter lets the transaction pass and some
    output pays a positive amount to the configured address. *)
Theorem saveNewTransaction_records_iff conf tx w :
  (forall o, In o (Transaction.factoidOutputs tx) -> 0 <= TransactionAddress.amount o) ->
  Z.abs (Transaction.timestamp tx) <= maxTimeValue ->
  (insertedRows (newEvents w (snd (saveNewTransaction conf table tx w))) <> []
   <-> ~ skippedByFilter conf tx
       /\ exists o, In o (Transaction.factoidOutputs tx)
                    /\ TransactionAddress.address o = AddressConfig.address conf
                    /\ 0 < TransactionAddress.amount o).
Proof.
  intros Hnonneg Hts.
  rewrite <- (matchingTotal_positive (AddressConfig.address conf) _ Hnonneg).
  split.
  - intro Hrows.
    destruct (saveNewTransaction_events table conf tx w)
      as [E|[row [_ [Hf [Hz _]]]]].
    + rewrite E in Hrows. contradiction Hrows. reflexivity.
    + split; [exact Hf|]. intro H0.
      apply sumFCToutputs_zero in H0. rewrite H0 in Hz. discriminate.
  - intros [Hf Hne].
    destruct (formatIncomeTransaction_valid tx conf
                (sumFCToutputs tx (AddressConfig.address conf)) Hts) as [row Hrow].
    rewrite (saveNewTransaction_one_row table conf tx w row Hf); [discriminate | | exact Hrow].
    intro H0. apply Hne. apply sumFCToutputs_zero. apply Qeq_bool_iff. exact H0.
Qed.

(** X4: the row is built before the [try]: for a transaction that passes
    both tests and whose timestamp lies outside the range of [Date], the
    [RangeError] of [toISOString] leaves [saveNewTransaction]; nothing is
    logged, nothing is handed to the database and the process does not exit. *)
Theorem saveNewTransaction_invalid_timestamp_throws conf tx w :
  ~ skippedByFilter conf tx ->
  ~ Qeq (sumFCToutputs tx (AddressConfig.address conf)) 0 ->
  maxTimeValue < Z.abs (Transaction.timestamp tx) ->
  saveNewTransaction conf table tx w = (Throw (RangeError "Invalid time value"), w).
Proof.
  intros Hf Hnz Hts.
  apply saveNewTransaction_invalid_date; [exact Hf| |].
  - apply not_true_is_false. intro H. apply Hnz. apply Qeq_bool_iff. exact H.
  - unfold formatIncomeTransaction, toISOString.
    destruct (Z.ltb_spec maxTimeValue (Z.abs (Transaction.timestamp tx))); [reflexivity|lia].
Qed.

(** X22: what [saveNewTransaction] does with the outcome of the insertion,
    for a transaction that passes both tests.  When
    [insertUncommittedTransaction] throws, the [catch] logs the error as
    fatal and the process ends with exit code 1, whatever the error is.  When
    it returns, what it returns is handed back as it is, without [await]: a
    promise that is rejected is handed back like any other value, nothing
    is logged beyond the debug line and the process does not end. *)
Theorem saveNewTransaction_insertion_outcomes conf tx w row :
  ~ skippedByFilter conf tx ->
  ~ Qeq (sumFCToutputs tx (AddressConfig.address conf)) 0 ->
  formatIncomeTransaction tx conf (sumFCToutputs tx (AddressConfig.address conf))
  = Normal row ->
  (forall e d,
     insertUncommittedTransaction table row (db w) = (Throw e, d) ->
     saveNewTransaction conf table tx w
     = (Exit 1,
        mkWorld d (trace w ++ [savingLine row; InsertCall row; saveFailedLine e])%list))
  /\ (forall r d,
        insertUncommittedTransaction table row (db w) = (Normal r, d) ->
        saveNewTransaction conf table tx w
        = (Normal (Some r),
           mkWorld d (trace w ++ [savingLine row; InsertCall row])%list)).
Proof.
  intros Hf Hnz Hrow.
  assert (Hz : Qeq_bool (sumFCToutputs tx (AddressConfig.address conf)) 0 = false).
  { apply not_true_is_false. intro H. apply Hnz. apply Qeq_bool_iff. exact H. }
  split; intros x d Hins;
    rewrite (saveNewTransaction_income table conf tx w row Hf Hz Hrow);
    rewrite Hins; reflexivity.
Qed.

End FurtherSaveNewTransaction.

(** ** The trace of a pass *)

Section FurtherScan.

Context {DB DirectoryBlock InsertResult : Type}.
Variable table : TransactionTable DB InsertResult.
Variable factom : Factom DB DirectoryBlock.
Variable blocks : Z -> DirectoryBlock.

Implicit Types (w : World DB DirectoryBlock) (i stop m h configStartHeight : Z).

(** [n] iterations on heights that the ledger serves, with the events they
    leave. *)
Lemma scanLoop_prefix_events (n : nat) :
  forall fuel i stop w,
    (n <= fuel)%nat ->
    ((0 < n)%nat -> i + Z.of_nat n - 1 <= stop) ->
    servedOn factom blocks (heightRange i (i + Z.of_nat n - 1)) (db w) ->
    scanLoop fuel factom i stop w
    = scanLoop (fuel - n) factom (i + Z.of_nat n) stop
        (mkWorld
           (dbAfter (event_handleDirectoryBlock factom) blocks
              (heightRange i (i + Z.of_nat n - 1)) (db w))
           (trace w
            ++ flat_map (iterationEvents blocks) (heightRange i (i + Z.of_nat n - 1)))%list).
Proof.
  induction n as [|n IH]; intros fuel i stop w Hfuel Hstop Hserved.
  - rewrite heightRange_empty by lia. simpl.
    rewrite Nat.sub_0_r, Z.add_0_r. unfold dbAfter; simpl.
    rewrite world_eta. reflexivity.
  - destruct fuel as [|fuel]; [lia|].
    replace (i + Z.of_nat (S n) - 1) with (i + 1 + Z.of_nat n - 1) in * by lia.
    replace (i + Z.of_nat (S n)) with (i + 1 + Z.of_nat n) by lia.
    rewrite (heightRange_cons i) in * by lia.
    destruct Hserved as [Hfetch [Hhandle Hrest]].
    simpl scanLoop at 1. destruct (Z.leb_spec i stop); [|lia].
    unfold bindF at 1, liftF at 1.
    rewrite (scanIteration_served factom blocks i w Hfetch Hhandle).
    rewrite IH by (simpl; try lia; exact Hrest).
    simpl. unfold iterationEvents at 2. rewrite <- !app_assoc. reflexivity.
Qed.

(** One iteration on a height whose block makes the handler throw. *)
Lemma scanIteration_handler_throws i w e d :
  cli_getDirectoryBlock factom i = Normal (blocks i) ->
  event_handleDirectoryBlock factom (blocks i) (db w) = (Throw e, d) ->
  scanIteration factom i w
  = (Throw e, mkWorld d (trace w ++ iterationEvents blocks i)%list).
Proof.
  intros Hfetch Hhandle.
  unfold scanIteration, iterationEvents, progressLine, bind, logger, emit, lift,
    onDb, ret.
  destruct (Z.rem i 1000 =? 0); simpl; rewrite Hfetch; simpl; rewrite Hhandle;
    rewrite <- ?app_assoc; reflexivity.
Qed.

(** X5: the trace of a complete pass.  When every call succeeds, the pass
    reads the maximum height, reads the tip, logs the range, then for each
    height from [max m configStartHeight + 1] to the tip logs a progress
    line if the height is a multiple of 1000, fetches the block and hands it
    to the handler, and at the end logs that the scan is complete; it makes
    no other call and writes no other line. *)
Theorem emitNewTransactions_complete_trace configStartHeight w m (d0 : DB)
    (heights : Heights.t) :
  getMaxHeight table (db w) = (Normal m, d0) ->
  cli_getHeights factom = Normal heights ->
  let startHeight := Z.max m configStartHeight in
  let stopHeight := Heights.directoryBlockHeight heights in
  servedOn factom blocks (heightRange (startHeight + 1) stopHeight) d0 ->
  emitNewTransactions table configStartHeight factom w
  = Some (Normal tt,
          mkWorld
            (dbAfter (event_handleDirectoryBlock factom) blocks
               (heightRange (startHeight + 1) stopHeight) d0)
            (trace w
             ++ [GetMaxHeightCall; GetHeightsCall; fetchingLine startHeight stopHeight]
             ++ flat_map (iterationEvents blocks) (heightRange (startHeight + 1) stopHeight)
             ++ [completeLine])%list).
Proof.
  intros Hmax Hheights startHeight stopHeight Hserved.
  rewrite (emitNewTransactions_unfold table factom configStartHeight w m d0 heights
             Hmax Hheights).
  fold startHeight stopHeight.
  set (n := Z.to_nat (stopHeight - startHeight)).
  assert (Hrange : heightRange (startHeight + 1) (startHeight + 1 + Z.of_nat n - 1)
                   = heightRange (startHeight + 1) stopHeight).
  { destruct (Z.le_gt_cases (startHeight + 1) stopHeight).
    - f_equal. lia.
    - rewrite !heightRange_empty by lia. reflexivity. }
  unfold try_catchF, bindF.
  rewrite (scanLoop_prefix_events n n) by (simpl; try lia; rewrite Hrange; exact Hserved).
  rewrite Hrange. rewrite scanLoop_done by lia.
  unfold liftF, logger, emit, completeLine. simpl.
  rewrite <- !app_assoc. reflexivity.
Qed.

(** X6: when the handler throws on the block of a height [h], after the
    heights before it went well, the pass ends the process with exit code 1:
    the block of [h] was fetched and handed over, no later height is
    fetched, and the error is logged as fatal. *)
Theorem handler_failure_is_fatal configStartHeight w m (d0 d : DB)
    (heights : Heights.t) h (e : Js.Error) :
  getMaxHeight table (db w) = (Normal m, d0) ->
  cli_getHeights factom = Normal heights ->
  let startHeight := Z.max m configStartHeight in
  let stopHeight := Heights.directoryBlockHeight heights in
  startHeight < h <= stopHeight ->
  servedOn factom blocks (heightRange (startHeight + 1) (h - 1)) d0 ->
  cli_getDirectoryBlock factom h = Normal (blocks h) ->
  event_handleDirectoryBlock factom (blocks h)
    (dbAfter (event_handleDirectoryBlock factom) blocks
       (heightRange (startHeight + 1) (h - 1)) d0)
  = (Throw e, d) ->
  emitNewTransactions table configStartHeight factom w
  = Some (Exit 1,
          mkWorld d
            (trace w
             ++ [GetMaxHeightCall; GetHeightsCall; fetchingLine startHeight stopHeight]
             ++ flat_map (iterationEvents blocks) (heightRange (startHeight + 1) h)
             ++ [backfillFailedLine e])%list).
Proof.
  intros Hmax Hheights startHeight stopHeight Hh Hserved Hfetch Hthrow.
  rewrite (emitNewTransactions_unfold table factom configStartHeight w m d0 heights
             Hmax Hheights).
  fold startHeight stopHeight.
  set (n := Z.to_nat (h - 1 - startHeight)).
  unfold try_catchF, bindF at 1.
  rewrite (scanLoop_prefix_events n (Z.to_nat (stopHeight - startHeight)));
    [| lia | lia
     | replace (startHeight + 1 + Z.of_nat n - 1) with (h - 1) by lia; exact Hserved].
  replace (startHeight + 1 + Z.of_nat n - 1) with (h - 1) by lia.
  replace (startHeight + 1 + Z.of_nat n) with h by lia.
  destruct (Z.to_nat (stopHeight - startHeight) - n)%nat as [|fuel] eqn:Hfuel; [lia|].
  simpl scanLoop. destruct (Z.leb_spec h stopHeight); [|lia].
  unfold bindF at 1, liftF at 1.
  rewrite (scanIteration_handler_throws h (mkWorld _ _) e d Hfetch Hthrow).
  unfold liftF, bind, logger, emit, process_exit, backfillFailedLine. simpl.
  rewrite (heightRange_snoc (startHeight + 1) h) by lia.
  rewrite flat_map_app. simpl. rewrite app_nil_r.
  rewrite <- !app_assoc. reflexivity.
Qed.

(** X7: when the read of the maximum height fails, the pass ends the process
    with exit code 1 at once: the ledger is not asked for the tip or for any
    block, and the only line logged is the fatal error. *)
Theorem getMaxHeight_failure_is_fatal configStartHeight w (d : DB) (e : Js.Error) :
  getMaxHeight table (db w) = (Throw e, d) ->
  emitNewTransactions table configStartHeight factom w
  = Some (Exit 1, mkWorld d (trace w ++ [GetMaxHeightCall; backfillFailedLine e])%list).
Proof.
  intro Hmax.
  unfold emitNewTransactions, try_catchF, bindF at 1, liftF at 1, onDb.
  rewrite Hmax.
  unfold liftF, bind, logger, emit, process_exit, backfillFailedLine. simpl.
  rewrite <- !app_assoc. reflexivity.
Qed.

(** X8: whatever the ledger and the handler do after the two reads, the
    pass ends, no exception leaves it, and the heights it asked the ledger
    for are the first heights of the range from [max m configStartHeight + 1]
    to the tip, each once and in increasing order: no height at or below the
    start, none above the tip, none out of turn.  A pass that completes has
    asked for the whole range. *)
Theorem emitNewTransactions_fetches_initial_segment configStartHeight w m (d0 : DB)
    (heights : Heights.t) :
  getMaxHeight table (db w) = (Normal m, d0) ->
  cli_getHeights factom = Normal heights ->
  let first := Z.max m configStartHeight + 1 in
  let stopHeight := Heights.directoryBlockHeight heights in
  exists c w' evs n,
    emitNewTransactions table configStartHeight factom w = Some (c, w')
    /\ trace w' = (trace w ++ evs)%list
    /\ fetchedHeights evs = firstn n (heightRange first stopHeight)
    /\ (c = Normal tt -> fetchedHeights evs = heightRange first stopHeight)
    /\ (forall e, c <> Throw e).
Proof.
  intros Hmax Hheights first stopHeight.
  rewrite (emitNewTransactions_unfold table factom configStartHeight w m d0 heights
             Hmax Hheights).
  fold stopHeight. set (startHeight := Z.max m configStartHeight).
  set (w1 := mkWorld d0 _).
  destruct (scanLoop_total factom (Z.to_nat (stopHeight - startHeight))
              (startHeight + 1) stopHeight w1 ltac:(lia))
    as (c & w' & evs & n & Hrun & Ht & Hf & Hn).
  fold first in Hrun, Hf, Hn.
  unfold try_catchF, bindF. fold first. rewrite Hrun.
  destruct c as [[]|e|c].
  - eexists; eexists; eexists; exists n. split; [reflexivity|].
    unfold logger, emit. simpl. rewrite Ht. subst w1. simpl.
    split; [rewrite <- !app_assoc; reflexivity|].
    simpl. rewrite fetchedHeights_app. simpl. rewrite app_nil_r.
    split; [exact Hf|]. split; [intros _; apply Hn; reflexivity | discriminate].
  - eexists; eexists; eexists; exists n. split; [reflexivity|].
    unfold bind, logger, emit, process_exit. simpl. rewrite Ht. subst w1. simpl.
    split; [rewrite <- !app_assoc; reflexivity|].
    simpl. rewrite fetchedHeights_app. simpl. rewrite app_nil_r.
    split; [exact Hf|]. split; discriminate.
  - eexists; eexists; eexists; exists n. split; [reflexivity|].
    rewrite Ht. subst w1. simpl.
    split; [rewrite <- !app_assoc; reflexivity|].
    simpl. split; [exact Hf|]. split; discriminate.
Qed.

End FurtherScan.

(** * Further properties of [config.ts] *)

(** ** The constructor of [Config] *)

Section FurtherConfigConstructor.

Import ConfigTs.

Variable readFileSync : string -> Completion string.
Variable safeLoad : string -> Completion Yaml.
Variable schemas : Schemas.

Implicit Types (path : string) (w : list LogEntry).

(** X9: the two ways in which the constructor ends.  Either it returns an
    instance, having logged the path and nothing else, or it ends the process
    with exit code 1, having logged the path, the line 'Unable to load
    config', the message of the error and, exactly when the code of the error
    is ENOENT, the hint to init the config.  No exception reaches the caller. *)
Theorem constructor_outcomes path w :
  (forall p c, readFileSync p <> Exit c) ->
  (forall y c, safeLoad y <> Exit c) ->
  (exists c,
     constructor readFileSync safeLoad schemas path w
     = (Normal c, (w ++ [readingLine path])%list))
  \/ (exists e,
        constructor readFileSync safeLoad schemas path w
        = (Exit 1, (w ++ [readingLine path] ++ failureLines e)%list)).
Proof.
  intros Hread Hload. rewrite constructor_loaded.
  destruct (loaded readFileSync safeLoad schemas path) as [c|e|c] eqn:H.
  - left. eauto.
  - right. eauto.
  - exfalso. unfold loaded in H.
    destruct (readFileSync path) as [yamlString|e|c'] eqn:Hr; try discriminate.
    + destruct (safeLoad yamlString) as [config|e|c'] eqn:Hl; try discriminate.
      * cbv zeta in H. destruct (error _); try discriminate.
        destruct (value _) as [v|]; try discriminate.
        destruct (v_keys v) as [k|]; try discriminate.
        destruct (_ || _); discriminate.
      * exact (Hload _ _ Hl).
    + exact (Hread _ _ Hr).
Qed.

(** X10: the constructor returns an instance exactly when the file is read,
    the YAML loads, the validation reports no error and gives a value with a
    [keys] section, and bitcoin.tax is off or comes with a non-empty key and
    a non-empty secret; the fields of the instance are then those of the
    validated value. *)
Theorem constructor_returns_iff path w (c : Config) (w' : list LogEntry) :
  constructor readFileSync safeLoad schemas path w = (Normal c, w')
  <-> w' = (w ++ [readingLine path])%list
      /\ exists yamlString config v k,
           readFileSync path = Normal yamlString
           /\ safeLoad yamlString = Normal config
           /\ validate schemas config = mkResult (Some v) None
           /\ v_keys v = Some k
           /\ (bitcoinTax k = false
               \/ (truthy (bitcoinTaxSecret k) = true
                   /\ truthy (bitcoinTaxKey k) = true))
           /\ c = mkInstance (v_factomd v) (v_addresses v) (v_options v) k.
Proof.
  split.
  - rewrite constructor_loaded. unfold loaded.
    destruct (readFileSync path) as [yamlString|e|c'] eqn:Hr; try discriminate.
    destruct (safeLoad yamlString) as [config|e|c'] eqn:Hl; try discriminate.
    cbv zeta. destruct (validate schemas config) as [val err] eqn:Hv. simpl.
    destruct err as [e|]; try discriminate.
    destruct val as [v|]; try discriminate.
    destruct (v_keys v) as [k|] eqn:Hk; try discriminate.
    destruct (bitcoinTax k) eqn:Htax; simpl.
    + destruct (truthy (bitcoinTaxSecret k)) eqn:Hs; simpl; try discriminate.
      destruct (truthy (bitcoinTaxKey k)) eqn:Hkey; simpl; try discriminate.
      intro H. injection H as <- <-. split; [reflexivity|].
      exists yamlString, config, v, k. repeat split; auto.
    + intro H. injection H as <- <-. split; [reflexivity|].
      exists yamlString, config, v, k. repeat split; auto.
  - intros [-> (yamlString & config & v & k & Hr & Hl & Hv & Hk & Htax & ->)].
    apply (constructor_succeeds readFileSync safeLoad schemas path w yamlString config v k);
      assumption.
Qed.

(** X11: an empty configuration file, whose YAML loads as [undefined],
    passes the validation, and the constructor then ends the process with
    exit code 1 on the [TypeError] of [value.keys]. *)
Theorem constructor_empty_document path w yamlString :
  readFileSync path = Normal yamlString ->
  safeLoad yamlString = Normal YUndefined ->
  error (validate schemas YUndefined) = None
  /\ constructor readFileSync safeLoad schemas path w
     = (Exit 1,
        (w ++ [readingLine path;
               logEntry LevelError "Unable to load config" None;
               logEntry LevelError "Cannot read property 'keys' of undefined" None])%list).
Proof.
  intros Hr Hl. split; [reflexivity|].
  rewrite constructor_loaded. unfold loaded. rewrite Hr, Hl. reflexivity.
Qed.

(** X12: when the validated keys switch bitcoin.tax on and the secret or the
    key is missing or empty, the constructor ends the process with exit code
    1 and logs 'Must provide bitcoin.tax secret and key when bitoinTax
    true'. *)
Theorem constructor_requires_bitcoinTax_credentials path w yamlString config v k :
  readFileSync path = Normal yamlString ->
  safeLoad yamlString = Normal config ->
  validate schemas config = mkResult (Some v) None ->
  v_keys v = Some k ->
  bitcoinTax k = true ->
  truthy (bitcoinTaxSecret k) = false \/ truthy (bitcoinTaxKey k) = false ->
  constructor readFileSync safeLoad schemas path w
  = (Exit 1,
     (w ++ [readingLine path;
            logEntry LevelError "Unable to load config" None;
            logEntry LevelError
              "Must provide bitcoin.tax secret and key when bitoinTax true" None])%list).
Proof.
  intros H1 H2 H3 H4 H5 H6.
  rewrite (constructor_bitcoinTax_incomplete readFileSync safeLoad schemas path w
             yamlString config v k H1 H2 H3 H4 H5 H6).
  reflexivity.
Qed.

End FurtherConfigConstructor.

(** ** The application directory *)

Section FurtherAppdir.

Import Appdir.

Variable FS : Type.
Variable existsSync : string -> FS -> bool.
Variable mkdirSync : string -> M FS unit.

(** X13: [createAppdirIfNotExist] is idempotent on a file system where a
    directory exists once [mkdirSync] has made it: a call that returns has
    returned its argument, the directory exists afterwards, and a second
    call returns the same path without writing a line and without touching
    the file system. *)
Theorem createAppdirIfNotExist_idempotent (appdir r : string) (h h' : Host FS) :
  (forall p f f', mkdirSync p f = (Normal tt, f') -> existsSync p f' = true) ->
  createAppdirIfNotExist existsSync mkdirSync appdir h = (Normal r, h') ->
  r = appdir
  /\ existsSync appdir (fs h') = true
  /\ createAppdirIfNotExist existsSync mkdirSync appdir h' = (Normal appdir, h').
Proof.
  intros Hmk Hrun.
  assert (Hexists : existsSync appdir (fs h') = true /\ r = appdir).
  { unfold createAppdirIfNotExist in Hrun.
    destruct (existsSync appdir (fs h)) eqn:He; simpl in Hrun.
    - unfold bind, ret in Hrun. injection Hrun as <- <-. auto.
    - unfold bind, console_log, onFs, ret in Hrun. simpl in Hrun.
      destruct (mkdirSync appdir (fs h)) as [[[]|e|c] f] eqn:Hm; try discriminate.
      injection Hrun as <- <-. simpl. split; [|reflexivity].
      exact (Hmk _ _ _ Hm). }
  destruct Hexists as [He ->]. split; [reflexivity|]. split; [exact He|].
  unfold createAppdirIfNotExist. rewrite He. reflexivity.
Qed.

End FurtherAppdir.

(** * Properties of the configuration module of [unnamed/part_000] *)

Section FurtherLegacyConfig.

Import LegacyConfig.

Context {Json Validated : Type}.
Variable requireConfigJson : Completion Json.
Variable joiValidate : Json -> option Js.Error * Validated.

Lemma validateConfig_cases (st : State Validated) :
  match requireConfigJson with
  | Normal json =>
      match joiValidate json with
      | (Some e, _) => validateConfig requireConfigJson joiValidate st = (Throw e, st)
      | (None, v) =>
          validateConfig requireConfigJson joiValidate st
          = (Normal v,
             mkState (Some v)
               (logs st ++ [logEntry LevelInfo "Configuration successfully read" None])%list)
      end
  | Throw e => validateConfig requireConfigJson joiValidate st = (Throw e, st)
  | Exit c => validateConfig requireConfigJson joiValidate st = (Exit c, st)
  end.
Proof.
  unfold validateConfig, bind, lift, throw, ret.
  destruct requireConfigJson as [json|e|c]; try reflexivity.
  destruct (joiValidate json) as [[e|] v]; reflexivity.
Qed.

(** X14: whatever [getConfig] returns has been validated: in every state
    that calls of [validateConfig] and [getConfig] can reach, a value
    returned by [getConfig] is the validated value that [Joi.validate] gave,
    without error, for the content of config.json. *)
Theorem getConfig_returns_validated (st : State Validated) (v : Validated)
    (st' : State Validated) :
  reachable requireConfigJson joiValidate st ->
  getConfig st = (Normal v, st') ->
  st' = st
  /\ exists json, requireConfigJson = Normal json /\ joiValidate json = (None, v).
Proof.
  intros Hreach Hget.
  assert (Hinv : forall v0, config st = Some v0 ->
                 exists json, requireConfigJson = Normal json
                              /\ joiValidate json = (None, v0)).
  { clear Hget. induction Hreach as [|st c st1 _ IH Hstep|st c st1 _ IH Hstep].
    - discriminate.
    - pose proof (validateConfig_cases st) as Hc.
      destruct requireConfigJson as [json|e|c0].
      + destruct (joiValidate json) as [[e|] v1] eqn:Hj.
        * rewrite Hc in Hstep. injection Hstep as <- <-. exact IH.
        * rewrite Hc in Hstep. injection Hstep as <- <-. simpl.
          intros v0 H0. injection H0 as <-. exists json. auto.
      + rewrite Hc in Hstep. injection Hstep as <- <-. exact IH.
      + rewrite Hc in Hstep. injection Hstep as <- <-. exact IH.
    - assert (Hsame : st1 = st).
      { unfold getConfig in Hstep. destruct (config st); injection Hstep; auto. }
      rewrite Hsame. exact IH. }
  unfold getConfig in Hget. destruct (config st) as [v0|] eqn:Hc; [|discriminate].
  injection Hget as <- <-. split; [reflexivity|]. apply Hinv. reflexivity.
Qed.

(** X15: [getConfig] throws until a validation has succeeded: it throws the
    [ConfigurationError] in the state in which the module is loaded, and a
    call of [validateConfig] that throws leaves the state, and with it the
    answer of [getConfig], as it was. *)
Theorem getConfig_requires_validation :
  getConfig (Validated := Validated) initial
  = (Throw (ConfigurationError "config.json has not been validated!"), initial)
  /\ forall (st st' : State Validated) (e : Js.Error),
       validateConfig requireConfigJson joiValidate st = (Throw e, st') ->
       st' = st.
Proof.
  split; [reflexivity|].
  intros st st' e Hrun. pose proof (validateConfig_cases st) as Hc.
  destruct requireConfigJson as [json|e0|c0].
  - destruct (joiValidate json) as [[e0|] v1]; rewrite Hc in Hrun;
      [injection Hrun as _ <-; reflexivity | discriminate].
  - rewrite Hc in Hrun. injection Hrun as _ <-. reflexivity.
  - rewrite Hc in Hrun. discriminate.
Qed.

(** X16: after a call of [validateConfig] that returns, [getConfig] returns
    the same configuration, and leaves the state as it is. *)
Theorem validateConfig_then_getConfig (st st' : State Validated) (v : Validated) :
  validateConfig requireConfigJson joiValidate st = (Normal v, st') ->
  getConfig st' = (Normal v, st').
Proof.
  intro Hrun. pose proof (validateConfig_cases st) as Hc.
  destruct requireConfigJson as [json|e0|c0].
  - destruct (joiValidate json) as [[e0|] v1]; rewrite Hc in Hrun;
      [discriminate | injection Hrun as <- <-; reflexivity].
  - rewrite Hc in Hrun. discriminate.
  - rewrite Hc in Hrun. discriminate.
Qed.

End FurtherLegacyConfig.

(** * Properties of the wizards of [config.ts] *)

(** ** The prompt engine *)

Section PromptFacts.

Import Inquirer.

(** An accepted answer was read from the line, went through the filter and
    passed the validation; asking takes at least one submission. *)
Lemma askFrom_accepts (q : Question) (script : list (option Value)) :
  forall (line : option Value) (v : Value) (rest : list (option Value)),
    askFrom q line script = Some (v, rest) ->
    (exists raw sub, entered q raw = Some sub /\ filtered q sub = Some v)
    /\ valid q v = true
    /\ (List.length rest < List.length script)%nat.
Proof.
  induction script as [|raw script IH]; intros line v rest; simpl; [discriminate|].
  intro H.
  assert (Hrec : forall line', askFrom q line' script = Some (v, rest) ->
                 (exists raw0 sub, entered q raw0 = Some sub /\ filtered q sub = Some v)
                 /\ valid q v = true
                 /\ (List.length rest < S (List.length script))%nat).
  { intros line' H'. destruct (IH line' v rest H') as [Hex [Hv Hl]].
    split; [exact Hex|]. split; [exact Hv | lia]. }
  unfold submitted in H.
  destruct (entered q (match raw with Some v0 => Some v0 | None => line end))
    as [sub|] eqn:Hs; [|eauto].
  destruct (filtered q sub) as [v'|] eqn:Hf; [|eauto].
  destruct (valid q v') eqn:Hv; [|eauto].
  injection H as <- <-.
  split; [eauto|]. split; [exact Hv | lia].
Qed.

Lemma ask_accepts (q : Question) (script : list (option Value)) (v : Value)
    (rest : list (option Value)) :
  ask q script = Some (v, rest) ->
  (exists raw sub, entered q raw = Some sub /\ filtered q sub = Some v)
  /\ valid q v = true
  /\ (List.length rest < List.length script)%nat.
Proof. apply askFrom_accepts. Qed.

(** What an input prompt hands on: a line that is not empty, or its default,
    or the empty string when it has none. *)
Lemma entered_input (q : Question) (raw : option Value) (sub : Value) :
  type q = TInput ->
  entered q raw = Some sub ->
  (exists s, sub = VString s /\ s <> "")
  \/ sub = match default q with Some d => d | None => VString "" end.
Proof.
  unfold entered. intros -> H.
  destruct raw as [[| | | |s| |]|]; try discriminate.
  - destruct (String.eqb_spec s "") as [->|Hne]; injection H as <-; [right; reflexivity|].
    left. exists s. auto.
  - injection H as <-. right. reflexivity.
Qed.

Lemma entered_number (q : Question) (raw : option Value) (sub : Value) :
  type q = TNumber ->
  entered q raw = Some sub ->
  (exists n, sub = VNumber n)
  \/ sub = match default q with Some d => d | None => VNaN end.
Proof.
  unfold entered. intros -> H.
  destruct raw as [[| |n| | | |]|]; try discriminate; injection H as <-; eauto.
Qed.

Lemma entered_confirm (q : Question) (raw : option Value) (sub : Value) :
  type q = TConfirm ->
  default q = None ->
  entered q raw = Some sub ->
  exists b, sub = VBool b.
Proof.
  unfold entered. intros -> -> H.
  destruct raw as [[|b| | | | |]|]; try discriminate; injection H as <-; eauto.
Qed.

Lemma entered_list (q : Question) (choices : list Value) (raw : option Value)
    (sub : Value) :
  type q = TList choices ->
  entered q raw = Some sub ->
  exists choice, In choice choices /\ (sub = choice \/ strictEq sub choice = true).
Proof.
  unfold entered. intros -> H. destruct raw as [v|].
  - destruct (existsb (strictEq v) choices) eqn:He; [|discriminate].
    injection H as <-. apply existsb_exists in He. destruct He as [c [Hin Hc]].
    exists c. auto.
  - destruct choices as [|c choices]; [discriminate|]. injection H as <-.
    exists c. simpl. auto.
Qed.

Lemma strictEq_string (v : Value) (s : string) :
  strictEq v (VString s) = true -> v = VString s.
Proof.
  destruct v; simpl; try discriminate. intro H.
  apply String.eqb_eq in H. subst. reflexivity.
Qed.

End PromptFacts.

(** ** [createFactomdConfig] *)

Section FactomdWizard.

Import Inquirer Wizard.

(** The answer to an input question without filter and with a default that
    is not empty is a string that is not empty. *)
Lemma ask_input_nonempty (q : Question) (d : string) (script rest : list (option Value))
    (v : Value) :
  type q = TInput -> filter q = None -> default q = Some (VString d) -> d <> "" ->
  ask q script = Some (v, rest) ->
  exists s, v = VString s /\ s <> "".
Proof.
  intros Ht Hf Hd Hne H.
  destruct (ask_accepts q script v rest H) as [[raw [sub [Hs Hfl]]] _].
  unfold filtered in Hfl. rewrite Hf in Hfl. injection Hfl as <-.
  destruct (entered_input q raw sub Ht Hs) as [[s [-> Hs']] | ->].
  - eauto.
  - rewrite Hd. eauto.
Qed.

Lemma ask_number_default (q : Question) (d : Z) (script rest : list (option Value))
    (v : Value) :
  type q = TNumber -> filter q = None -> default q = Some (VNumber d) ->
  ask q script = Some (v, rest) ->
  exists n, v = VNumber n.
Proof.
  intros Ht Hf Hd H.
  destruct (ask_accepts q script v rest H) as [[raw [sub [Hs Hfl]]] _].
  unfold filtered in Hfl. rewrite Hf in Hfl. injection Hfl as <-.
  destruct (entered_number q raw sub Ht Hs) as [[n ->] | ->]; [eauto|].
  rewrite Hd. eauto.
Qed.

(** X17: the two presets.  When the user picks OpenNode (or presses return on
    the list, which opens on it) or the default local node, no other question
    is asked, whatever the rest of the script, and the result is the preset;
    the preset of OpenNode is the default that the schema of the reader gives
    to a file without a [factomd] section. *)
Theorem createFactomdConfig_presets (rest : list (option Value)) :
  createFactomdConfig (Some OpenNode :: rest)
  = Resolved
      (VObject [("host", VString (ConfigTs.host ConfigTs.defaultFactomd));
                ("port", VNumber (ConfigTs.port ConfigTs.defaultFactomd));
                ("path", VString (ConfigTs.path ConfigTs.defaultFactomd));
                ("protocol", VString (ConfigTs.protocol ConfigTs.defaultFactomd))])
  /\ createFactomdConfig (None :: rest) = createFactomdConfig (Some OpenNode :: rest)
  /\ createFactomdConfig (Some DefaultLocal :: rest)
     = Resolved
         (VObject [("host", VString "localhost"); ("port", VNumber 8088);
                   ("path", VString "/v2"); ("protocol", VString "http")]).
Proof. repeat split. Qed.

(** X18: whatever the user does, a configuration that [createFactomdConfig]
    returns holds, in this order, a host that is a non-empty string, a port
    that is a number, a path that is a non-empty string and a protocol that
    is http or https. *)
Theorem createFactomdConfig_result (script : list (option Value)) (r : Value) :
  createFactomdConfig script = Resolved r ->
  exists h n pa pr,
    r = VObject [("host", VString h); ("port", VNumber n);
                 ("path", VString pa); ("protocol", VString pr)]
    /\ h <> "" /\ pa <> "" /\ (pr = "http" \/ pr = "https").
Proof.
  unfold createFactomdConfig, prompt, factomdQuestions.
  cbn [promptFrom when truthy].
  match goal with |- context [ask ?q script] => set (q1 := q) end.
  destruct (ask q1 script) as [[v s1]|] eqn:H1; [|discriminate].
  destruct (ask_accepts q1 script v s1 H1) as [[raw [sub [Hs Hf]]] _].
  destruct (entered_list q1 _ raw sub eq_refl Hs) as [choice [Hin Hc]].
  assert (Hsub : sub = choice).
  { destruct Hc as [|Hc]; [assumption|].
    simpl in Hin. destruct Hin as [<-|[<-|[<-|[]]]]; apply strictEq_string; exact Hc. }
  subst sub. clear Hc Hs H1.
  simpl in Hin. destruct Hin as [<-|[<-|[<-|[]]]];
    vm_compute in Hf; injection Hf as <-.
  - cbn. intro H. injection H as <-.
    exists "api.factomd.net", 443, "/v2", "https". repeat split; try discriminate; auto.
  - cbn. intro H. injection H as <-.
    exists "localhost", 8088, "/v2", "http". repeat split; try discriminate; auto.
  - cbn [promptFrom when name setPath fieldsOf lookup setField String.eqb Ascii.eqb
           Bool.eqb factomdMissing andThen getProp jsNot truthy negb].
    match goal with |- context [ask ?q s1] => set (q2 := q) end.
    destruct (ask q2 s1) as [[vh s2]|] eqn:H2; [|discriminate].
    destruct (ask_input_nonempty q2 "localhost" s1 s2 vh eq_refl eq_refl eq_refl
                ltac:(discriminate) H2) as [h [-> Hh]].
    cbn [promptFrom when name setPath fieldsOf lookup setField String.eqb Ascii.eqb
           Bool.eqb factomdMissing andThen getProp jsNot truthy negb].
    match goal with |- context [ask ?q s2] => set (q3 := q) end.
    destruct (ask q3 s2) as [[vp s3]|] eqn:H3; [|discriminate].
    destruct (ask_number_default q3 8088 s2 s3 vp eq_refl eq_refl eq_refl H3) as [n ->].
    cbn [promptFrom when name setPath fieldsOf lookup setField String.eqb Ascii.eqb
           Bool.eqb factomdMissing andThen getProp jsNot truthy negb].
    match goal with |- context [ask ?q s3] => set (q4 := q) end.
    destruct (ask q4 s3) as [[vpa s4]|] eqn:H4; [|discriminate].
    destruct (ask_input_nonempty q4 "/v2" s3 s4 vpa eq_refl eq_refl eq_refl
                ltac:(discriminate) H4) as [pa [-> Hpa]].
    cbn [promptFrom when name setPath fieldsOf lookup setField String.eqb Ascii.eqb
           Bool.eqb factomdMissing andThen getProp jsNot truthy negb].
    match goal with |- context [ask ?q s4] => set (q5 := q) end.
    destruct (ask q5 s4) as [[vpr s5]|] eqn:H5; [|discriminate].
    destruct (ask_accepts q5 s4 vpr s5 H5) as [[raw5 [sub5 [Hs5 Hf5]]] [Hv5 _]].
    unfold filtered in Hf5. simpl in Hf5. injection Hf5 as <-.
    assert (Hpr : sub5 = VString "http" \/ sub5 = VString "https").
    { unfold valid in Hv5. simpl in Hv5. unfold jsOr in Hv5. simpl in Hv5.
      destruct (strictEq sub5 (VString "http")) eqn:E1.
      - left. apply strictEq_string. exact E1.
      - destruct (strictEq sub5 (VString "https")) eqn:E2; [|discriminate].
        right. apply strictEq_string. exact E2. }
    cbn [promptFrom name setPath fieldsOf lookup setField String.eqb Ascii.eqb
           Bool.eqb getProp spread].
    intro H. injection H as <-.
    destruct Hpr as [-> | ->].
    + exists h, n, pa, "http". auto.
    + exists h, n, pa, "https". auto.
Qed.

End FactomdWizard.

(** ** [createAddressConfig] *)

Section AddressWizard.

Import Inquirer Wizard.

Variable isValidPublicFctAddress : Value -> bool.

Lemma ask_string (q : Question) (script rest : list (option Value)) (v : Value) :
  type q = TInput -> filter q = None -> default q = None ->
  ask q script = Some (v, rest) ->
  (exists s, v = VString s)
  /\ valid q v = true
  /\ (List.length rest < List.length script)%nat.
Proof.
  intros Ht Hf Hd H.
  destruct (ask_accepts q script v rest H) as [[raw [sub [Hs Hfl]]] [Hv Hl]].
  unfold filtered in Hfl. rewrite Hf in Hfl. injection Hfl as <-.
  split; [|auto].
  destruct (entered_input q raw sub Ht Hs) as [[s [-> _]] | ->]; [eauto|].
  rewrite Hd. eauto.
Qed.

Lemma ask_bool (q : Question) (script rest : list (option Value)) (v : Value) :
  type q = TConfirm -> filter q = None -> default q = None ->
  ask q script = Some (v, rest) ->
  (exists b, v = VBool b) /\ (List.length rest < List.length script)%nat.
Proof.
  intros Ht Hf Hd H.
  destruct (ask_accepts q script v rest H) as [[raw [sub [Hs Hfl]]] [_ Hl]].
  unfold filtered in Hfl. rewrite Hf in Hfl. injection Hfl as <-.
  split; [|exact Hl]. exact (entered_confirm q raw sub Ht Hd Hs).
Qed.

(** A name that no entry carries. *)
Lemma someNameIs_false (addresses : list Value) (nm : string) :
  someNameIs addresses (VString nm) = Normal false ->
  ~ In (VString nm) (map nameOf addresses).
Proof.
  induction addresses as [|a addresses IH]; simpl; [auto|].
  unfold andThen. intro H.
  assert (Hget : getProp a "name" = Normal (nameOf a) \/ exists e, getProp a "name" = Throw e).
  { destruct a; simpl; eauto. }
  destruct Hget as [Hget|[e Hget]]; rewrite Hget in H; [|discriminate].
  destruct (strictEq (nameOf a) (VString nm)) eqn:E; [discriminate|].
  intros [Hin|Hin].
  - rewrite Hin in E. simpl in E. rewrite String.eqb_refl in E. discriminate.
  - exact (IH H Hin).
Qed.

(** One round of questions. *)
Lemma addressRound (addresses : list Value) (addressId : string)
    (script script' : list (option Value)) (result : Value) :
  prompt (addressQuestions isValidPublicFctAddress addresses addressId) script
  = Resolved (result, script') ->
  exists addr nm cb ncb more,
    result = VObject [("address", VString addr); ("name", VString nm);
                      ("coinbase", VBool cb); ("nonCoinbase", VBool ncb);
                      ("newAddress", VBool more)]
    /\ isValidPublicFctAddress (VString addr) = true
    /\ nm <> ""
    /\ ~ In (VString nm) (map nameOf addresses)
    /\ (List.length script' < List.length script)%nat.
Proof.
  unfold prompt, addressQuestions.
  cbn [promptFrom when truthy].
  match goal with |- context [ask ?q script] => set (q1 := q) end.
  destruct (ask q1 script) as [[v1 s1]|] eqn:H1; [|discriminate].
  destruct (ask_string q1 script s1 v1 eq_refl eq_refl eq_refl H1) as [[addr ->] [Hv1 Hl1]].
  cbn [promptFrom when truthy name setPath fieldsOf lookup setField].
  match goal with |- context [ask ?q s1] => set (q2 := q) end.
  destruct (ask q2 s1) as [[v2 s2]|] eqn:H2; [|discriminate].
  destruct (ask_string q2 s1 s2 v2 eq_refl eq_refl eq_refl H2) as [[nm ->] [Hv2 Hl2]].
  cbn [promptFrom when truthy name setPath fieldsOf lookup setField String.eqb Ascii.eqb
         Bool.eqb].
  match goal with |- context [ask ?q s2] => set (q3 := q) end.
  destruct (ask q3 s2) as [[v3 s3]|] eqn:H3; [|discriminate].
  destruct (ask_bool q3 s2 s3 v3 eq_refl eq_refl eq_refl H3) as [[cb ->] Hl3].
  cbn [promptFrom when truthy name setPath fieldsOf lookup setField String.eqb Ascii.eqb
         Bool.eqb].
  match goal with |- context [ask ?q s3] => set (q4 := q) end.
  destruct (ask q4 s3) as [[v4 s4]|] eqn:H4; [|discriminate].
  destruct (ask_bool q4 s3 s4 v4 eq_refl eq_refl eq_refl H4) as [[ncb ->] Hl4].
  cbn [promptFrom when truthy name setPath fieldsOf lookup setField String.eqb Ascii.eqb
         Bool.eqb].
  match goal with |- context [ask ?q s4] => set (q5 := q) end.
  destruct (ask q5 s4) as [[v5 s5]|] eqn:H5; [|discriminate].
  destruct (ask_bool q5 s4 s5 v5 eq_refl eq_refl eq_refl H5) as [[more ->] Hl5].
  cbn [promptFrom when truthy name setPath fieldsOf lookup setField String.eqb Ascii.eqb
         Bool.eqb].
  intro H. injection H as <- <-.
  exists addr, nm, cb, ncb, more.
  split; [reflexivity|].
  split.
  { unfold valid in Hv1. simpl in Hv1. unfold jsOr in Hv1. simpl in Hv1.
    destruct (isValidPublicFctAddress (VString addr)); [reflexivity|discriminate]. }
  assert (Hname : nm <> "" /\ someNameIs addresses (VString nm) = Normal false).
  { unfold valid in Hv2. simpl in Hv2.
    destruct (String.length nm) eqn:Hlen; simpl in Hv2; [discriminate|].
    split; [intros ->; discriminate|].
    unfold andThen in Hv2.
    destruct (someNameIs addresses (VString nm)) as [[|]|e|c]; try discriminate.
    reflexivity. }
  destruct Hname as [Hne Hfree].
  split; [exact Hne|]. split; [exact (someNameIs_false _ _ Hfree) | lia].
Qed.

Lemma createAddressConfigFrom_result (fuel : nat) :
  forall (addresses : list Value) (script : list (option Value)) (result : list Value),
    NoDup (map nameOf addresses) ->
    createAddressConfigFrom isValidPublicFctAddress fuel addresses script
    = Some (Resolved result) ->
    exists added,
      result = (addresses ++ added)%list
      /\ added <> []
      /\ NoDup (map nameOf result)
      /\ Forall (addressEntryOf isValidPublicFctAddress) added.
Proof.
  induction fuel as [|fuel IH]; intros addresses script result Hnodup; simpl;
    [discriminate|].
  destruct (prompt _ script) as [|[r script']|e] eqn:Hp; try discriminate.
  destruct (addressRound _ _ _ _ _ Hp)
    as (addr & nm & cb & ncb & more & -> & Hvalid & Hne & Hfree & _).
  cbn [getProp lookup String.eqb Ascii.eqb Bool.eqb truthy].
  set (entry := without "newAddress" _).
  assert (Hentry : entry = VObject [("address", VString addr); ("name", VString nm);
                                    ("coinbase", VBool cb); ("nonCoinbase", VBool ncb)])
    by reflexivity.
  assert (Hok : addressEntryOf isValidPublicFctAddress entry).
  { exists addr, nm, cb, ncb. rewrite Hentry. auto. }
  assert (Hnodup' : NoDup (map nameOf (addresses ++ [entry]))).
  { rewrite map_app. simpl. rewrite Hentry. unfold nameOf at 2. simpl.
    apply NoDup_app; [exact Hnodup | repeat constructor; auto |].
    intros a Ha [<-|[]]. exact (Hfree Ha). }
  destruct more.
  - intro H. destruct (IH _ _ _ Hnodup' H) as (added & -> & _ & Hnd & Hall).
    exists (entry :: added). rewrite <- app_assoc. simpl.
    split; [reflexivity|]. split; [discriminate|].
    split; [rewrite <- app_assoc in Hnd; exact Hnd|].
    constructor; assumption.
  - intro H. injection H as <-. exists [entry].
    split; [reflexivity|]. split; [discriminate|]. split; [exact Hnodup'|].
    constructor; [exact Hok | constructor].
Qed.

(** The fuel of [createAddressConfig] never runs out. *)
Lemma createAddressConfigFrom_fuel (fuel : nat) :
  forall (addresses : list Value) (script : list (option Value)),
    (List.length script < fuel)%nat ->
    createAddressConfigFrom isValidPublicFctAddress fuel addresses script <> None.
Proof.
  induction fuel as [|fuel IH]; intros addresses script Hlen; [lia|]. simpl.
  destruct (prompt _ script) as [|[r script']|e] eqn:Hp; try discriminate.
  destruct (addressRound _ _ _ _ _ Hp)
    as (addr & nm & cb & ncb & more & -> & _ & _ & _ & Hl).
  cbn [getProp lookup String.eqb Ascii.eqb Bool.eqb truthy].
  destruct more; [|discriminate]. apply IH. lia.
Qed.

(** X19: [createAddressConfig] keeps the names unique.  Started on a list
    of entries with distinct names, it ends, and when its promise resolves
    the result is that list followed by at least one new entry; each new
    entry holds an address that [isValidPublicFctAddress] accepts, a name
    that is not empty and the two switches, and the names of the result are
    distinct. *)
Theorem createAddressConfig_unique_names (addresses : list Value)
    (script : list (option Value)) :
  NoDup (map nameOf addresses) ->
  createAddressConfig isValidPublicFctAddress addresses script <> None
  /\ forall result,
       createAddressConfig isValidPublicFctAddress addresses script
       = Some (Resolved result) ->
       exists added,
         result = (addresses ++ added)%list
         /\ added <> []
         /\ NoDup (map nameOf result)
         /\ Forall (addressEntryOf isValidPublicFctAddress) added.
Proof.
  intro Hnodup. split.
  - apply createAddressConfigFrom_fuel. lia.
  - intros result H. exact (createAddressConfigFrom_result _ _ _ _ Hnodup H).
Qed.

End AddressWizard.

(** ** [createKeyConfig] and [createOptionConfig] *)

Section KeyAndOptionWizards.

Import Inquirer Wizard.

Variable toUpperCase : string -> string.

Lemma ask_hex (q : Question) (n : nat) (msg : string)
    (script rest : list (option Value)) (v : Value) :
  type q = TInput -> filter q = None -> default q = None ->
  validate q
  = Some (fun key => Normal (jsOr (VBool (hexOfLength n key)) (VError msg))) ->
  ask q script = Some (v, rest) ->
  exists s, v = VString s /\ hexOfLength n (VString s) = true.
Proof.
  intros Ht Hf Hd Hval H.
  destruct (ask_string q script rest v Ht Hf Hd H) as [[s ->] [Hv _]].
  exists s. split; [reflexivity|].
  unfold valid in Hv. rewrite Hval in Hv. cbv beta in Hv. unfold jsOr in Hv.
  destruct (hexOfLength n (VString s)); [reflexivity | simpl in Hv; discriminate].
Qed.

Lemma hexOfLength_truthy (n : nat) (s : string) :
  (0 < n)%nat -> hexOfLength n (VString s) = true -> truthy (VString s) = true.
Proof.
  intros Hn H. simpl in *. apply andb_true_iff in H. destruct H as [Hl _].
  apply Nat.eqb_eq in Hl. destruct s; simpl in *; [lia | reflexivity].
Qed.

(** X20: the keys that [createKeyConfig] returns.  The cryptocompare key is
    a string of 64 hexadecimal digits.  When the user declines bitcoin.tax
    the result holds no bitcoin.tax key and no secret; when the user accepts,
    it holds a key of 16 and a secret of 32 hexadecimal digits.  In both
    cases the condition on which the constructor of [Config] refuses the
    keys, bitcoinTax without secret or without key, is false. *)
Theorem createKeyConfig_result (script : list (option Value)) (r : Value) :
  createKeyConfig script = Resolved r ->
  exists cc fields,
    r = VObject (("cryptocompare", VString cc) :: fields)
    /\ hexOfLength 64 (VString cc) = true
    /\ (fields = [("bitcoinTax", VBool false)]
        \/ exists k s,
             fields = [("bitcoinTax", VBool true); ("bitcoinTaxKey", VString k);
                       ("bitcoinTaxSecret", VString s)]
             /\ hexOfLength 16 (VString k) = true
             /\ hexOfLength 32 (VString s) = true)
    /\ (truthy (lookup "bitcoinTax" fields)
        && negb (truthy (lookup "bitcoinTaxSecret" fields))
        || truthy (lookup "bitcoinTax" fields)
           && negb (truthy (lookup "bitcoinTaxKey" fields)))
       = false.
Proof.
  unfold createKeyConfig, prompt, keyQuestions.
  cbn [promptFrom when truthy].
  match goal with |- context [ask ?q script] => set (q1 := q) end.
  destruct (ask q1 script) as [[v1 s1]|] eqn:H1; [|discriminate].
  destruct (ask_hex q1 64 _ script s1 v1 eq_refl eq_refl eq_refl eq_refl H1)
    as [cc [-> Hcc]].
  cbn [promptFrom when truthy name setPath fieldsOf lookup setField].
  match goal with |- context [ask ?q s1] => set (q2 := q) end.
  destruct (ask q2 s1) as [[v2 s2]|] eqn:H2; [|discriminate].
  destruct (ask_bool q2 s1 s2 v2 eq_refl eq_refl eq_refl H2) as [[tax ->] _].
  cbn [promptFrom when truthy name setPath fieldsOf lookup setField String.eqb Ascii.eqb
         Bool.eqb getProp].
  destruct tax.
  - match goal with |- context [ask ?q s2] => set (q3 := q) end.
    destruct (ask q3 s2) as [[v3 s3]|] eqn:H3; [|discriminate].
    destruct (ask_hex q3 16 _ s2 s3 v3 eq_refl eq_refl eq_refl eq_refl H3)
      as [k [-> Hk]].
    cbn [promptFrom when truthy name setPath fieldsOf lookup setField String.eqb
           Ascii.eqb Bool.eqb getProp].
    match goal with |- context [ask ?q s3] => set (q4 := q) end.
    destruct (ask q4 s3) as [[v4 s4]|] eqn:H4; [|discriminate].
    destruct (ask_hex q4 32 _ s3 s4 v4 eq_refl eq_refl eq_refl eq_refl H4)
      as [s [-> Hs]].
    cbn [promptFrom when truthy name setPath fieldsOf lookup setField String.eqb
           Ascii.eqb Bool.eqb getProp].
    intro H. injection H as <-.
    eexists; eexists. split; [reflexivity|]. split; [exact Hcc|]. split.
    + right. exists k, s. auto.
    + cbn [lookup String.eqb Ascii.eqb Bool.eqb].
      rewrite (hexOfLength_truthy 16 k) by (try lia; exact Hk).
      rewrite (hexOfLength_truthy 32 s) by (try lia; exact Hs).
      reflexivity.
  - intro H. injection H as <-.
    eexists; eexists. split; [reflexivity|]. split; [exact Hcc|]. split.
    + left. reflexivity.
    + reflexivity.
Qed.

(** What [createOptionConfig] returns when its promise resolves. *)
Lemma createOptionConfig_resolved (script : list (option Value)) (r : Value) :
  createOptionConfig toUpperCase script = Resolved r ->
  exists typed n,
    r = VObject [("currency", VString (toUpperCase typed)); ("startHeight", VNumber n)]
    /\ String.length (toUpperCase typed) = 3%nat
    /\ 0 < n.
Proof.
  unfold createOptionConfig, prompt, optionQuestions.
  cbn [promptFrom when truthy].
  match goal with |- context [ask ?q script] => set (q1 := q) end.
  destruct (ask q1 script) as [[v1 s1]|] eqn:H1; [|discriminate].
  destruct (ask_accepts q1 script v1 s1 H1) as [[raw [sub [Hs Hf]]] [Hv _]].
  assert (Hsub : exists typed, sub = VString typed).
  { destruct (entered_input q1 raw sub eq_refl Hs) as [[s [-> _]] | ->]; eauto.
    simpl. eauto. }
  destruct Hsub as [typed ->].
  unfold filtered in Hf. simpl in Hf. injection Hf as <-.
  assert (Hlen : String.length (toUpperCase typed) = 3%nat).
  { unfold valid in Hv. simpl in Hv. unfold jsOr in Hv. simpl in Hv.
    destruct (Z.eqb_spec (Z.of_nat (String.length (toUpperCase typed))) 3) as [E|N];
      [lia | discriminate]. }
  cbn [promptFrom when truthy name setPath fieldsOf lookup setField].
  match goal with |- context [ask ?q s1] => set (q2 := q) end.
  destruct (ask q2 s1) as [[v2 s2]|] eqn:H2; [|discriminate].
  destruct (ask_accepts q2 s1 v2 s2 H2) as [[raw2 [sub2 [Hs2 Hf2]]] [Hv2 _]].
  unfold filtered in Hf2. simpl in Hf2. injection Hf2 as <-.
  assert (Hn : exists n, sub2 = VNumber n /\ 0 < n).
  { unfold valid in Hv2. simpl in Hv2.
    destruct (entered_number q2 raw2 sub2 eq_refl Hs2) as [[n ->] | ->].
    - exists n. split; [reflexivity|]. simpl in Hv2.
      destruct (Z.ltb_spec 0 n); [assumption | discriminate].
    - simpl. exists 143400. split; [reflexivity | lia]. }
  destruct Hn as [n [-> Hpos]].
  cbn [promptFrom when truthy name setPath fieldsOf lookup setField String.eqb Ascii.eqb
         Bool.eqb].
  intro H. injection H as <-.
  exists typed, n. auto.
Qed.

(** A refused height stays on the line: return alone submits it again, any
    number of times. *)
Lemma askFrom_refused_height (q : Question) (n : Z) (returns : nat) :
  type q = TNumber -> filter q = None ->
  valid q (VNumber n) = false ->
  refusedLine q (VNumber n) = Some (VNumber n) ->
  askFrom q (Some (VNumber n)) (repeat None returns) = None.
Proof.
  intros Ht Hf Hv Hl. induction returns as [|returns IH]; [reflexivity|].
  cbn [repeat askFrom]. unfold submitted, entered, filtered.
  rewrite Ht, Hf, Hv, Hl. exact IH.
Qed.

(** X21: the options that [createOptionConfig] returns.  The currency is the
    upper case of a line that was submitted and has exactly 3 characters, and
    the start height is a number above 0.  When the first line is accepted
    as the currency and the user presses return alone at the question for the
    height, the start height is the default, 143400.  A height that is
    refused (0 or less, above -10^21) stays on the line: however often the
    user then presses return alone, the promise stays pending. *)
Theorem createOptionConfig_result (script : list (option Value)) (r : Value) :
  (createOptionConfig toUpperCase script = Resolved r ->
   exists typed n,
     r = VObject [("currency", VString (toUpperCase typed)); ("startHeight", VNumber n)]
     /\ String.length (toUpperCase typed) = 3%nat
     /\ 0 < n)
  /\ (forall typed rest,
        String.length (toUpperCase typed) = 3%nat ->
        createOptionConfig toUpperCase (Some (VString typed) :: None :: rest)
        = Resolved (VObject [("currency", VString (toUpperCase typed));
                             ("startHeight", VNumber 143400)]))
  /\ (forall typed n returns,
        String.length (toUpperCase typed) = 3%nat ->
        - 10 ^ 21 < n <= 0 ->
        createOptionConfig toUpperCase
          (Some (VString typed) :: Some (VNumber n) :: repeat None returns)
        = Pending).
Proof.
  split; [apply createOptionConfig_resolved|].
  assert (Hcurrency : forall typed rest,
            String.length (toUpperCase typed) = 3%nat ->
            ask (hd (mkQuestion TInput [] "" None None None None)
                   (optionQuestions toUpperCase))
              (Some (VString typed) :: rest)
            = Some (VString (toUpperCase typed), rest)).
  { intros typed rest Hlen.
    unfold ask, optionQuestions. cbn [hd askFrom].
    unfold submitted, entered, filtered, valid.
    cbn [type default filter validate].
    assert (Hsub : (if String.eqb typed "" then Some (VString "") else Some (VString typed))
                   = Some (VString typed)).
    { destruct (String.eqb_spec typed "") as [->|_]; reflexivity. }
    rewrite Hsub. cbn [getProp andThen String.eqb Ascii.eqb Bool.eqb].
    rewrite Hlen. reflexivity. }
  split.
  - intros typed rest Hlen.
    unfold createOptionConfig, prompt.
    unfold optionQuestions in *. cbn [hd] in Hcurrency.
    cbn [promptFrom when truthy]. rewrite (Hcurrency typed _ Hlen).
    reflexivity.
  - intros typed n returns Hlen Hn.
    unfold createOptionConfig, prompt.
    unfold optionQuestions in *. cbn [hd] in Hcurrency.
    cbn [promptFrom when truthy]. rewrite (Hcurrency typed _ Hlen).
    cbn [promptFrom when truthy name setPath fieldsOf lookup setField].
    match goal with |- context [ask ?q _] => set (q2 := q) end.
    assert (Hv : valid q2 (VNumber n) = false).
    { unfold valid, q2. cbn [validate positive].
      destruct (Z.ltb_spec 0 n); [lia | reflexivity]. }
    assert (Hl : refusedLine q2 (VNumber n) = Some (VNumber n)).
    { unfold refusedLine, q2. cbn [validate type].
      destruct (Z.ltb_spec (Z.abs n) (10 ^ 21)); [reflexivity | lia]. }
    unfold ask. cbn [askFrom]. unfold submitted, entered, filtered.
    change (type q2) with TNumber. change (filter q2) with (@None (Value -> Completion Value)).
    cbv beta iota. rewrite Hv, Hl.
    rewrite (askFrom_refused_height q2 n returns eq_refl eq_refl Hv Hl).
    reflexivity.
Qed.

End KeyAndOptionWizards.

(** * The further properties on the sample data *)

Lemma sumFCToutputs_order_independent_witness :
  sumFCToutputs Sample.coinbaseTx Sample.addressA
  = sumFCToutputs SampleMore.shuffledTx Sample.addressA.
Proof.
  apply sumFCToutputs_order_independent. simpl.
  apply perm_trans
    with [TransactionAddress.make Sample.addressA 150000000;
          TransactionAddress.make Sample.addressA 50000000;
          TransactionAddress.make Sample.addressB 7].
  - apply perm_skip. apply perm_swap.
  - apply perm_swap.
Defined.

(** 1 FCT and 1.3 FCT: the row holds 2.3000000000000003, within 2^-52 of
    2.3; taken one by one, the two outputs give 1 and 1.3. *)
Lemma sumFCToutputs_accuracy_witness :
  (Qabs (sumFCToutputs Sample.roundedTx Sample.addressA - inject_Z 230000000 / 100000000)
   <= inject_Z 230000000 / 100000000 * (1 # 4503599627370496))%Q
  /\ (Qabs (sumFCToutputs Sample.roundedTx Sample.addressA
            - (sumFCToutputs SampleMore.headTx Sample.addressA
               + sumFCToutputs SampleMore.tailTx Sample.addressA))
      <= inject_Z 230000000 / 100000000 * (1 # 2251799813685248))%Q.
Proof.
  destruct (sumFCToutputs_accuracy Sample.roundedTx Sample.addressA) as [H1 H2].
  - intros o [<-|[<-|[]]]; simpl; lia.
  - simpl. lia.
  - split; [exact H1|]. apply (H2 SampleMore.headTx SampleMore.tailTx). reflexivity.
Defined.

Lemma sample_amounts_nonneg :
  forall o, In o (Transaction.factoidOutputs Sample.coinbaseTx) ->
            0 <= TransactionAddress.amount o.
Proof. intros o [<-|[<-|[<-|[]]]]; simpl; lia. Defined.

(** The sample coinbase transaction is recorded for the address that
    records coinbase. *)
Lemma saveNewTransaction_records_iff_witness :
  insertedRows
    (newEvents (Sample.world Sample.emptyStore)
       (snd (saveNewTransaction Sample.coinbaseOnly Store.table Sample.coinbaseTx
               (Sample.world Sample.emptyStore))))
  <> [].
Proof.
  apply (proj2 (saveNewTransaction_records_iff Store.table Sample.coinbaseOnly
                  Sample.coinbaseTx (Sample.world Sample.emptyStore)
                  sample_amounts_nonneg ltac:(vm_compute; discriminate))).
  split; [exact sample_coinbase_passes|].
  exists (TransactionAddress.make Sample.addressA 150000000).
  split; [left; reflexivity|]. split; [reflexivity | simpl; lia].
Defined.

(** The record of the sample coinbase transaction is in the store.  A
    database that throws [DuplicateRecord] ends the process; one that
    returns a rejected promise gets it back, and the process goes on. *)
Lemma saveNewTransaction_insertion_outcomes_witness :
  saveNewTransaction Sample.coinbaseOnly Store.table Sample.coinbaseTx
    (Sample.world Sample.usedStore)
  = (Exit 1,
     mkWorld Sample.usedStore
       [savingLine Sample.coinbaseRow; InsertCall Sample.coinbaseRow;
        saveFailedLine Store.DuplicateRecord])
  /\ saveNewTransaction Sample.coinbaseOnly SampleMore.asyncTable Sample.coinbaseTx
       (Sample.world Sample.usedStore)
     = (Normal (Some (SampleMore.RejectedWith Store.DuplicateRecord)),
        mkWorld Sample.usedStore
          [savingLine Sample.coinbaseRow; InsertCall Sample.coinbaseRow]).
Proof.
  split.
  - apply (proj1 (saveNewTransaction_insertion_outcomes Store.table Sample.coinbaseOnly
                    Sample.coinbaseTx (Sample.world Sample.usedStore) Sample.coinbaseRow
                    sample_coinbase_passes sample_coinbase_income eq_refl)).
    reflexivity.
  - apply (proj2 (saveNewTransaction_insertion_outcomes SampleMore.asyncTable
                    Sample.coinbaseOnly Sample.coinbaseTx (Sample.world Sample.usedStore)
                    Sample.coinbaseRow sample_coinbase_passes sample_coinbase_income
                    eq_refl)).
    reflexivity.
Defined.

Lemma saveNewTransaction_invalid_timestamp_throws_witness :
  saveNewTransaction Sample.coinbaseOnly Store.table SampleMore.undatedTx
    (Sample.world Sample.emptyStore)
  = (Throw (RangeError "Invalid time value"), Sample.world Sample.emptyStore).
Proof.
  apply saveNewTransaction_invalid_timestamp_throws.
  - intros [[_ H]|[H _]]; [discriminate H | apply H; reflexivity].
  - intro H. vm_compute in H. discriminate H.
  - vm_compute. reflexivity.
Defined.

(** Start height 998, tip 1001: the log of the pass, with its one progress
    line. *)
Lemma emitNewTransactions_complete_trace_witness :
  option_map (fun r => logged (trace (snd r)))
    (emitNewTransactions Store.table 998 (Sample.ledger 1001)
       (Sample.world Sample.emptyStore))
  = Some [logEntry LevelInfo "Fetching new tranactions between 998 and 1001" None;
          logEntry LevelInfo "Scanning block height: 1000" None;
          logEntry LevelInfo "Scan complete" None].
Proof.
  rewrite (emitNewTransactions_complete_trace Store.table (Sample.ledger 1001)
             Sample.block 998 (Sample.world Sample.emptyStore) 100 Sample.emptyStore
             (Heights.make 1001) eq_refl eq_refl).
  - reflexivity.
  - vm_compute. repeat split.
Defined.

(** The block 102 holds a transaction without a valid date: the handler
    throws on it and the pass ends the process. *)
Lemma handler_failure_is_fatal_witness :
  option_map (fun r => (fst r, fetchedHeights (trace (snd r))))
    (emitNewTransactions Store.table 50 (SampleMore.ledger 103)
       (Sample.world Sample.emptyStore))
  = Some (Exit 1, [101; 102]).
Proof.
  rewrite (handler_failure_is_fatal Store.table (SampleMore.ledger 103)
             SampleMore.block 50 (Sample.world Sample.emptyStore) 100
             Sample.emptyStore Sample.emptyStore (Heights.make 103) 102
             (RangeError "Invalid time value") eq_refl eq_refl).
  - reflexivity.
  - simpl. lia.
  - vm_compute. repeat split.
  - reflexivity.
  - reflexivity.
Defined.

Lemma getMaxHeight_failure_is_fatal_witness :
  option_map fst
    (emitNewTransactions SampleMore.lockedTable 50 (Sample.ledger 103)
       (Sample.world Sample.emptyStore))
  = Some (Exit 1).
Proof.
  rewrite (getMaxHeight_failure_is_fatal SampleMore.lockedTable (Sample.ledger 103) 50
             (Sample.world Sample.emptyStore) Sample.emptyStore
             (mkError "Error" "SQLITE_BUSY: database is locked" None) eq_refl).
  reflexivity.
Defined.

Lemma emitNewTransactions_fetches_initial_segment_witness :
  exists c w' (evs : list (Event Classifier.Block)) n,
    emitNewTransactions Store.table 50 (Sample.ledgerWithout 103 102)
      (Sample.world Sample.emptyStore)
    = Some (c, w')
    /\ fetchedHeights evs = firstn n [101; 102; 103]
    /\ (forall e, c <> Throw e).
Proof.
  destruct (emitNewTransactions_fetches_initial_segment Store.table
              (Sample.ledgerWithout 103 102) 50 (Sample.world Sample.emptyStore) 100
              Sample.emptyStore (Heights.make 103) eq_refl eq_refl)
    as (c & w' & evs & n & Hrun & _ & Hf & _ & Hc).
  exists c, w', evs, n. split; [exact Hrun|]. split; [exact Hf | exact Hc].
Defined.

Lemma sample_read_never_exits : forall p c, Sample.readConfigFile p <> Exit c.
Proof.
  intros p c. unfold Sample.readConfigFile.
  destruct (String.eqb p Sample.configPath); discriminate.
Defined.

Lemma sample_load_never_exits : forall y c, Sample.loadYaml y <> Exit c.
Proof. intros y c. discriminate. Defined.

Lemma constructor_outcomes_witness :
  (exists c,
     ConfigTs.constructor Sample.readConfigFile Sample.loadYaml SampleMore.schemasWithKeys
       "/nowhere/config.yaml" []
     = (Normal c, [ConfigTs.readingLine "/nowhere/config.yaml"]))
  \/ (exists e,
        ConfigTs.constructor Sample.readConfigFile Sample.loadYaml
          SampleMore.schemasWithKeys "/nowhere/config.yaml" []
        = (Exit 1,
           ([ConfigTs.readingLine "/nowhere/config.yaml"] ++ ConfigTs.failureLines e)%list)).
Proof.
  exact (constructor_outcomes Sample.readConfigFile Sample.loadYaml
           SampleMore.schemasWithKeys "/nowhere/config.yaml" []
           sample_read_never_exits sample_load_never_exits).
Defined.

Lemma constructor_empty_document_witness :
  fst (ConfigTs.constructor Sample.readConfigFile (fun _ => Normal ConfigTs.YUndefined)
         Sample.schemas Sample.configPath [])
  = Exit 1.
Proof.
  rewrite (proj2 (constructor_empty_document Sample.readConfigFile
                    (fun _ => Normal ConfigTs.YUndefined) Sample.schemas
                    Sample.configPath [] "addresses: [...]" eq_refl eq_refl)).
  reflexivity.
Defined.

Lemma constructor_requires_bitcoinTax_credentials_witness :
  fst (ConfigTs.constructor Sample.readConfigFile (fun _ => Normal SampleMore.withKeys)
         SampleMore.schemasWithKeys Sample.configPath [])
  = Exit 1.
Proof.
  rewrite (constructor_requires_bitcoinTax_credentials Sample.readConfigFile
             (fun _ => Normal SampleMore.withKeys) SampleMore.schemasWithKeys
             Sample.configPath [] "addresses: [...]" SampleMore.withKeys
             (ConfigTs.mkValue ConfigTs.defaultFactomd (Some Sample.keysWithoutSecret)
                [Sample.addressEntry] ConfigTs.defaultOptions)
             Sample.keysWithoutSecret eq_refl eq_refl eq_refl eq_refl eq_refl
             (or_introl eq_refl)).
  reflexivity.
Defined.

(** On a file system that holds [/home/user] only, the first call makes the
    directory and the second call does nothing. *)
Lemma createAppdirIfNotExist_idempotent_witness :
  Appdir.createAppdirIfNotExist Appdir.listExists Appdir.listMkdir "/home/user/.factoidd"
    (Appdir.mkHost ["/home/user"; "/home/user/.factoidd"]
       ["Creating app directory at: /home/user/.factoidd"])
  = (Normal "/home/user/.factoidd",
     Appdir.mkHost ["/home/user"; "/home/user/.factoidd"]
       ["Creating app directory at: /home/user/.factoidd"]).
Proof.
  apply (createAppdirIfNotExist_idempotent (list string) Appdir.listExists
           Appdir.listMkdir "/home/user/.factoidd" "/home/user/.factoidd"
           (Appdir.mkHost ["/home/user"] [])).
  - intros p f f' H. unfold Appdir.listMkdir in H.
    destruct (Appdir.listExists p f) eqn:E; [discriminate|].
    injection H as <-. unfold Appdir.listExists. rewrite existsb_app. simpl.
    rewrite String.eqb_refl. apply orb_true_r.
  - reflexivity.
Defined.

Lemma sample_legacy_reachable :
  reachable (Normal "{...}") SampleMore.legacyValidate
    (LegacyConfig.mkState (Some "{...} (validated)")
       [logEntry LevelInfo "Configuration successfully read" None]).
Proof.
  apply (reachable_validateConfig (Normal "{...}") SampleMore.legacyValidate
           LegacyConfig.initial (Normal "{...} (validated)")).
  - apply reachable_initial.
  - reflexivity.
Defined.

Lemma getConfig_returns_validated_witness :
  exists json,
    Normal "{...}" = Normal json
    /\ SampleMore.legacyValidate json = (None, "{...} (validated)").
Proof.
  apply (getConfig_returns_validated (Normal "{...}") SampleMore.legacyValidate
           (LegacyConfig.mkState (Some "{...} (validated)")
              [logEntry LevelInfo "Configuration successfully read" None])
           "{...} (validated)" _ sample_legacy_reachable eq_refl).
Defined.

Lemma getConfig_requires_validation_witness :
  LegacyConfig.mkState (Validated := string) None [] = LegacyConfig.initial.
Proof.
  apply (proj2 (getConfig_requires_validation (Normal "") SampleMore.legacyValidate)
           LegacyConfig.initial _ (mkError "ValidationError" "value is required" None)).
  reflexivity.
Defined.

Lemma validateConfig_then_getConfig_witness :
  LegacyConfig.getConfig
    (LegacyConfig.mkState (Some "{...} (validated)")
       [logEntry LevelInfo "Configuration successfully read" None])
  = (Normal "{...} (validated)",
     LegacyConfig.mkState (Some "{...} (validated)")
       [logEntry LevelInfo "Configuration successfully read" None]).
Proof.
  apply (validateConfig_then_getConfig (Normal "{...}") SampleMore.legacyValidate
           LegacyConfig.initial).
  reflexivity.
Defined.

Lemma createFactomdConfig_result_witness :
  exists h n pa pr,
    Inquirer.VObject
      [("host", Inquirer.VString "localhost"); ("port", Inquirer.VNumber 8090);
       ("path", Inquirer.VString "/api/v2"); ("protocol", Inquirer.VString "https")]
    = Inquirer.VObject
        [("host", Inquirer.VString h); ("port", Inquirer.VNumber n);
         ("path", Inquirer.VString pa); ("protocol", Inquirer.VString pr)]
    /\ h <> "" /\ pa <> "" /\ (pr = "http" \/ pr = "https").
Proof.
  apply (createFactomdConfig_result SampleMore.ownNodeScript). reflexivity.
Defined.

Lemma createAddressConfig_unique_names_witness :
  exists result,
    Wizard.createAddressConfig SampleMore.looksValid [] SampleMore.twoAddressesScript
    = Some (Inquirer.Resolved result)
    /\ map nameOf result = [Inquirer.VString "node"; Inquirer.VString "wallet"]
    /\ NoDup (map nameOf result).
Proof.
  destruct (createAddressConfig_unique_names SampleMore.looksValid []
              SampleMore.twoAddressesScript (NoDup_nil _)) as [_ H].
  eexists. split; [reflexivity|]. split; [reflexivity|].
  destruct (H _ eq_refl) as (added & _ & _ & Hnd & _). exact Hnd.
Defined.

Lemma createKeyConfig_result_witness :
  exists cc fields,
    Wizard.createKeyConfig SampleMore.keyScript
    = Inquirer.Resolved (Inquirer.VObject (("cryptocompare", Inquirer.VString cc) :: fields))
    /\ Wizard.hexOfLength 64 (Inquirer.VString cc) = true.
Proof.
  destruct (createKeyConfig_result SampleMore.keyScript _ eq_refl)
    as (cc & fields & Hr & Hcc & _).
  exists cc, fields. split; [|exact Hcc].
  rewrite <- Hr. reflexivity.
Defined.

(** The user types euro, which is refused, then EUR, then 0, which is
    refused, then 143500; with EUR and return alone the height is 143400;
    with EUR, 0 and three times return alone the wizard is still waiting. *)
Lemma createOptionConfig_result_witness :
  (exists typed n,
     Inquirer.VObject
       [("currency", Inquirer.VString "EUR"); ("startHeight", Inquirer.VNumber 143500)]
     = Inquirer.VObject
         [("currency", Inquirer.VString ((fun s => s) typed));
          ("startHeight", Inquirer.VNumber n)]
     /\ String.length ((fun s => s) typed) = 3%nat
     /\ 0 < n)
  /\ Wizard.createOptionConfig (fun s => s) [Some (Inquirer.VString "EUR"); None]
     = Inquirer.Resolved
         (Inquirer.VObject
            [("currency", Inquirer.VString "EUR");
             ("startHeight", Inquirer.VNumber 143400)])
  /\ Wizard.createOptionConfig (fun s => s)
       [Some (Inquirer.VString "EUR"); Some (Inquirer.VNumber 0); None; None; None]
     = Inquirer.Pending.
Proof.
  destruct (createOptionConfig_result (fun s => s) SampleMore.optionScript
              (Inquirer.VObject
                 [("currency", Inquirer.VString "EUR");
                  ("startHeight", Inquirer.VNumber 143500)]))
    as (H1 & H2 & H3).
  split; [exact (H1 eq_refl)|]. split.
  - exact (H2 "EUR" [] eq_refl).
  - apply (H3 "EUR" 0 3%nat eq_refl). simpl. lia.
Defined.
